(** * Secure link service: the link lifecycle engine

    A shallow embedding of the Python sources under [app/]:

    - [app/services/hashing_service.py]     module [HashingService]
    - [app/services/encryption_service.py]  module [EncryptionService]
    - [app/repositories/link_repository.py] module [LinkRepository]
    - [app/schemas/link.py]                 the three response records
    - [app/controllers/link_controller.py]  module [LinkController]

    Python [bytes] are [list byte] and Python [int] is [Z].  A Python
    [str] is the [string] of the bytes of its UTF-8 encoding, so that
    every code point has its place; the short codes and keys that go to
    the Redis client are taken to be strs that UTF-8 can encode.  JSON
    values are the inductive [json]: [None], booleans, integers, floats,
    strings, lists and dicts with string keys.  A float is held as its
    [repr], or is an infinity or a NaN.  The interpreter's limits on
    recursion depth and on the number of digits of an integer are
    outside the model.  A naive [datetime] is the record of its fields.

    The library functions the sources call are written out where the
    properties depend on them: SHA-256, base64, hex, UTF-8, [json.dumps]
    and [json.loads], [isoformat] and [fromisoformat], [timedelta]
    addition.  The cipher ([cryptography.fernet.Fernet] bound to the
    process key), the float stamp [str(now.timestamp())] and the reading
    of a decimal text as a float are parameters, the classes [Fernet],
    [LocalTime] and [PyFloat].

    Calls that leave the process (the clock, the random source, the Redis
    client) are the constructors of the program type [Prog].  A run of a
    program is a trace of these calls with the answers they got, checked
    by [replay]; [run] executes a program against a handler with a state
    of its own. *)

From Stdlib Require Import ZArith List String Ascii Bool Lia.
From Stdlib Require Import Init.Byte DecimalFacts DecimalPos DecimalZ.
From stdpp Require Import base gmap strings.
Import ListNotations.

Local Open Scope string_scope.
Local Open Scope list_scope.
Local Open Scope Z_scope.

(** ** Python [bytes] and [str] *)

Definition bytes := list byte.

Definition byte_to_Z (b : byte) : Z := Z.of_N (Byte.to_N b).

Definition Z_to_byte (z : Z) : byte :=
  match Byte.of_N (Z.to_N (z mod 256)) with
  | Some b => b
  | None => x00
  end.

Definition chars (s : string) : list ascii := list_ascii_of_string s.
Definition str (l : list ascii) : string := string_of_list_ascii l.

Definition ord (c : ascii) : Z := Z.of_N (N_of_ascii c).
Definition chr (z : Z) : ascii := ascii_of_N (Z.to_N z).

(** [s[:n]] for a list, with Python's reading of a negative bound (counted
    from the end). *)
Definition slice_to {A} (n : Z) (l : list A) : list A :=
  if 0 <=? n then firstn (Z.to_nat n) l
  else firstn (Z.to_nat (Z.of_nat (List.length l) + n)) l.

(** [s.rstrip(c)] for a single character [c]. *)
Fixpoint rstrip (c : ascii) (l : list ascii) : list ascii :=
  match l with
  | [] => []
  | x :: r =>
      match rstrip c r with
      | [] => if Ascii.eqb x c then [] else [x]
      | r' => x :: r'
      end
  end.

(** ** hashlib.sha256 (FIPS 180-4), on 32-bit words held in [Z] *)

Module SHA256.

Definition w32 (x : Z) : Z := x mod 2 ^ 32.
Definition add32 (x y : Z) : Z := w32 (x + y).
Definition rotr (n x : Z) : Z :=
  Z.lor (Z.shiftr x n) (w32 (Z.shiftl x (32 - n))).
Definition not32 (x : Z) : Z := Z.lxor x (2 ^ 32 - 1).

Definition Ch (x y z : Z) : Z := Z.lxor (Z.land x y) (Z.land (not32 x) z).
Definition Maj (x y z : Z) : Z :=
  Z.lxor (Z.lxor (Z.land x y) (Z.land x z)) (Z.land y z).
Definition bsig0 (x : Z) : Z := Z.lxor (Z.lxor (rotr 2 x) (rotr 13 x)) (rotr 22 x).
Definition bsig1 (x : Z) : Z := Z.lxor (Z.lxor (rotr 6 x) (rotr 11 x)) (rotr 25 x).
Definition ssig0 (x : Z) : Z := Z.lxor (Z.lxor (rotr 7 x) (rotr 18 x)) (Z.shiftr x 3).
Definition ssig1 (x : Z) : Z := Z.lxor (Z.lxor (rotr 17 x) (rotr 19 x)) (Z.shiftr x 10).

(** The constants are fractional parts of roots of the first primes:
    the round constants the first 32 bits of those of the cube roots of
    the first 64 primes, the initial state those of the square roots of
    the first 8. *)
Definition is_prime (n : Z) : bool :=
  forallb (fun d => negb (n mod Z.of_nat d =? 0)) (seq 2 (Z.to_nat n - 2)).

Definition primes (count : nat) : list Z :=
  firstn count (filter is_prime (List.map Z.of_nat (seq 2 400))).

(** The integer cube root, one bit at a time from bit [bits - 1] down. *)
Fixpoint cube_root (bits : nat) (n r : Z) : Z :=
  match bits with
  | O => r
  | S bits' =>
      let r' := r + 2 ^ Z.of_nat bits' in
      cube_root bits' n (if r' * r' * r' <=? n then r' else r)
  end.

Definition K : list Z :=
  Eval vm_compute in
    List.map (fun p => w32 (cube_root 40 (p * 2 ^ 96) 0)) (primes 64).

Definition initial_words : list Z :=
  Eval vm_compute in
    List.map (fun p => w32 (Z.sqrt (p * 2 ^ 64))) (primes 8).

(** The hash state: eight working words. *)
Record state := State {
  sa : Z; sb : Z; sc : Z; sd : Z; se : Z; sf : Z; sg : Z; sh : Z }.

Definition H0 : state :=
  match initial_words with
  | [a; b; c; d; e; f; g; h] => State a b c d e f g h
  | _ => State 0 0 0 0 0 0 0 0
  end.

(** The [n] low bytes of [x], most significant first. *)
Definition be_bytes (n : nat) (x : Z) : bytes :=
  List.map (fun i => Z_to_byte (Z.shiftr x (8 * Z.of_nat i))) (rev (seq 0 n)).

(** Padding: a 1 bit, zero bits up to 56 mod 64 bytes, then the message
    length in bits as a 64-bit big-endian integer. *)
Definition pad (msg : bytes) : bytes :=
  let len := Z.of_nat (List.length msg) in
  let zeros := Z.to_nat ((55 - len) mod 64) in
  msg ++ [x80] ++ repeat x00 zeros ++ be_bytes 8 (8 * len).

Fixpoint words (bs : bytes) : list Z :=
  match bs with
  | b0 :: b1 :: b2 :: b3 :: r =>
      (byte_to_Z b0 * 2 ^ 24 + byte_to_Z b1 * 2 ^ 16
       + byte_to_Z b2 * 2 ^ 8 + byte_to_Z b3) :: words r
  | _ => []
  end.

(** Message schedule; [rev_w] holds the words computed so far, the most
    recent first. *)
Fixpoint schedule (n : nat) (rev_w : list Z) : list Z :=
  match n with
  | O => rev_w
  | S n' =>
      let w := add32 (add32 (ssig1 (nth 1 rev_w 0)) (nth 6 rev_w 0))
                     (add32 (ssig0 (nth 14 rev_w 0)) (nth 15 rev_w 0)) in
      schedule n' (w :: rev_w)
  end.

Definition round (s : state) (kw : Z * Z) : state :=
  let t1 := add32 (add32 (add32 (sh s) (bsig1 (se s)))
                         (add32 (Ch (se s) (sf s) (sg s)) (fst kw))) (snd kw) in
  let t2 := add32 (bsig0 (sa s)) (Maj (sa s) (sb s) (sc s)) in
  State (add32 t1 t2) (sa s) (sb s) (sc s) (add32 (sd s) t1) (se s) (sf s) (sg s).

Definition compress (h : state) (block : list Z) : state :=
  let w := rev (schedule 48 (rev block)) in
  let s := fold_left round (combine K w) h in
  State (add32 (sa h) (sa s)) (add32 (sb h) (sb s))
        (add32 (sc h) (sc s)) (add32 (sd h) (sd s))
        (add32 (se h) (se s)) (add32 (sf h) (sf s))
        (add32 (sg h) (sg s)) (add32 (sh h) (sh s)).

Fixpoint blocks (n : nat) (ws : list Z) (h : state) : state :=
  match n with
  | O => h
  | S n' => blocks n' (skipn 16 ws) (compress h (firstn 16 ws))
  end.

Definition digest (msg : bytes) : bytes :=
  let ws := words (pad msg) in
  let h := blocks (List.length ws / 16)%nat ws H0 in
  be_bytes 4 (sa h) ++ be_bytes 4 (sb h) ++ be_bytes 4 (sc h) ++ be_bytes 4 (sd h)
  ++ be_bytes 4 (se h) ++ be_bytes 4 (sf h) ++ be_bytes 4 (sg h) ++ be_bytes 4 (sh h).

End SHA256.

(** ** bytes.hex() and bytes.fromhex() *)

Definition hex_digit (n : Z) : ascii :=
  nth (Z.to_nat n) (chars "0123456789abcdef") "0"%char.

Definition hex (bs : bytes) : string :=
  str (flat_map (fun b => [hex_digit (byte_to_Z b / 16);
                           hex_digit (byte_to_Z b mod 16)]) bs).

Definition hex_value (c : ascii) : option Z :=
  let n := ord c in
  if (48 <=? n) && (n <=? 57) then Some (n - 48)
  else if (97 <=? n) && (n <=? 102) then Some (n - 87)
  else if (65 <=? n) && (n <=? 70) then Some (n - 55)
  else None.

Definition is_ascii_space (c : ascii) : bool :=
  let n := ord c in
  (n =? 32) || ((9 <=? n) && (n <=? 13)).

(** [bytes.fromhex]: two hex digits per byte, ASCII whitespace allowed
    between bytes; [None] stands for the [ValueError]. *)
Fixpoint fromhex_chars (l : list ascii) : option bytes :=
  match l with
  | [] => Some []
  | c :: r =>
      if is_ascii_space c then fromhex_chars r
      else match r with
           | [] => None
           | c' :: r' =>
               match hex_value c, hex_value c', fromhex_chars r' with
               | Some h, Some l, Some bs => Some (Z_to_byte (16 * h + l) :: bs)
               | _, _, _ => None
               end
           end
  end.

Definition fromhex (s : string) : option bytes := fromhex_chars (chars s).

(** ** base64.urlsafe_b64encode

    [b64encode] regroups each 24-bit group into four 6-bit groups and pads
    the last group with [=]; [urlsafe_b64encode] then translates [+] and [/]
    to [-] and [_].  The result is ASCII, held as a list of characters. *)

Definition b64_alphabet : list ascii :=
  chars "ABCDEFGHIJKLMNOPQRSTUVWXYZabcdefghijklmnopqrstuvwxyz0123456789+/".

Definition b64_char (i : Z) : ascii := nth (Z.to_nat i) b64_alphabet "="%char.

Fixpoint b64encode (bs : bytes) : list ascii :=
  match bs with
  | [] => []
  | [b0] =>
      let n := byte_to_Z b0 * 16 in
      [b64_char ((n / 64) mod 64); b64_char (n mod 64); "="%char; "="%char]
  | [b0; b1] =>
      let n := (byte_to_Z b0 * 256 + byte_to_Z b1) * 4 in
      [b64_char ((n / 4096) mod 64); b64_char ((n / 64) mod 64);
       b64_char (n mod 64); "="%char]
  | b0 :: b1 :: b2 :: r =>
      let n := byte_to_Z b0 * 65536 + byte_to_Z b1 * 256 + byte_to_Z b2 in
      b64_char ((n / 262144) mod 64) :: b64_char ((n / 4096) mod 64)
      :: b64_char ((n / 64) mod 64) :: b64_char (n mod 64) :: b64encode r
  end.

Definition urlsafe_translate (c : ascii) : ascii :=
  if Ascii.eqb c "+" then "-"%char
  else if Ascii.eqb c "/" then "_"%char
  else c.

Definition urlsafe_b64encode (bs : bytes) : list ascii :=
  List.map urlsafe_translate (b64encode bs).

(** ** app/services/hashing_service.py *)

Module HashingService.

Definition default_max_length : Z := 8.

(** [HashingService.generate_short_code]. None of the calls in the [try]
    block can raise on a [bytes] argument, so the [except] branch is not
    modelled. *)
Definition generate_short_code (encrypted_data : bytes) (max_length : Z) : string :=
  let hash_bytes := SHA256.digest encrypted_data in
  let hash_bytes := slice_to max_length hash_bytes in
  let encoded := rstrip "=" (urlsafe_b64encode hash_bytes) in
  let short_code := slice_to max_length encoded in
  str short_code.

Definition generate_from_data (data : bytes) : string :=
  generate_short_code data default_max_length.

End HashingService.

(** The unpadded URL-safe base64 of RFC 4648, section 5, written directly
    over the URL-safe alphabet: the encoding the specification names. *)
Definition urlsafe_alphabet : list ascii :=
  chars "ABCDEFGHIJKLMNOPQRSTUVWXYZabcdefghijklmnopqrstuvwxyz0123456789-_".

Definition urlsafe_char (i : Z) : ascii := nth (Z.to_nat i) urlsafe_alphabet "="%char.

Fixpoint b64url_nopad (bs : bytes) : list ascii :=
  match bs with
  | [] => []
  | [b0] =>
      let n := byte_to_Z b0 * 16 in
      [urlsafe_char ((n / 64) mod 64); urlsafe_char (n mod 64)]
  | [b0; b1] =>
      let n := (byte_to_Z b0 * 256 + byte_to_Z b1) * 4 in
      [urlsafe_char ((n / 4096) mod 64); urlsafe_char ((n / 64) mod 64);
       urlsafe_char (n mod 64)]
  | b0 :: b1 :: b2 :: r =>
      let n := byte_to_Z b0 * 65536 + byte_to_Z b1 * 256 + byte_to_Z b2 in
      urlsafe_char ((n / 262144) mod 64) :: urlsafe_char ((n / 4096) mod 64)
      :: urlsafe_char ((n / 64) mod 64) :: urlsafe_char (n mod 64) :: b64url_nopad r
  end.

(** The short code as the specification words it. *)
Definition derive_spec (blob : bytes) : string :=
  str (firstn 8 (b64url_nopad (firstn 8 (SHA256.digest blob)))).

Definition is_urlsafe (c : ascii) : bool :=
  let n := ord c in
  ((65 <=? n) && (n <=? 90)) || ((97 <=? n) && (n <=? 122))
  || ((48 <=? n) && (n <=? 57)) || (n =? 45) || (n =? 95).


(** ** Code points, [str.encode()] and [bytes.decode()] (UTF-8)

    A [str] is held as the bytes of its UTF-8 encoding, one [ascii] per
    byte; a surrogate code point, which Python keeps in a [str] and UTF-8
    has no form for, is held as the three bytes that the encoding rule
    gives it.  [code_points] reads the code points back and is [None] on a
    text that is no such encoding (a wrong continuation byte, an overlong
    form, a value above 10FFFF). *)

Definition is_high_surrogate (n : Z) : bool := (55296 <=? n) && (n <=? 56319).
Definition is_low_surrogate (n : Z) : bool := (56320 <=? n) && (n <=? 57343).
Definition is_surrogate (n : Z) : bool := is_high_surrogate n || is_low_surrogate n.

Definition is_continuation (c : ascii) : bool := (128 <=? ord c) && (ord c <? 192).

Definition code_point_chars (n : Z) : list ascii :=
  if n <? 128 then [chr n]
  else if n <? 2048 then [chr (192 + n / 64); chr (128 + n mod 64)]
  else if n <? 65536 then
    [chr (224 + n / 4096); chr (128 + n / 64 mod 64); chr (128 + n mod 64)]
  else
    [chr (240 + n / 262144); chr (128 + n / 4096 mod 64);
     chr (128 + n / 64 mod 64); chr (128 + n mod 64)].

Fixpoint code_points (s : list ascii) : option (list Z) :=
  match s with
  | [] => Some []
  | c1 :: r1 =>
      let n1 := ord c1 in
      if n1 <? 128 then option_map (cons n1) (code_points r1)
      else if n1 <? 224 then
        match r1 with
        | c2 :: r2 =>
            let n := (n1 - 192) * 64 + (ord c2 - 128) in
            if is_continuation c2 && (128 <=? n)
            then option_map (cons n) (code_points r2)
            else None
        | _ => None
        end
      else if n1 <? 240 then
        match r1 with
        | c2 :: c3 :: r3 =>
            let n := ((n1 - 224) * 64 + (ord c2 - 128)) * 64 + (ord c3 - 128) in
            if is_continuation c2 && is_continuation c3 && (2048 <=? n)
            then option_map (cons n) (code_points r3)
            else None
        | _ => None
        end
      else
        match r1 with
        | c2 :: c3 :: c4 :: r4 =>
            let n := (((n1 - 240) * 64 + (ord c2 - 128)) * 64
                      + (ord c3 - 128)) * 64 + (ord c4 - 128) in
            if is_continuation c2 && is_continuation c3 && is_continuation c4
               && (65536 <=? n) && (n <=? 1114111)
            then option_map (cons n) (code_points r4)
            else None
        | _ => None
        end
  end.

Definition is_code_point (n : Z) : Prop := 0 <= n <= 1114111.

(** A text of ASCII characters. *)
Definition is_ascii_text (l : list ascii) : Prop :=
  List.Forall (fun c => ord c < 128) l.

(** [s.encode()].  It raises [UnicodeEncodeError] on a surrogate; the
    service encodes the output of [json.dumps] only, which is ASCII. *)
Definition utf8_encode (s : string) : bytes :=
  List.map (fun c => Z_to_byte (ord c)) (chars s).

(** [b.decode()]; [None] is the [UnicodeDecodeError]. *)
Definition utf8_decode (bs : bytes) : option string :=
  let text := List.map (fun b => chr (byte_to_Z b)) bs in
  match code_points text with
  | Some cps => if existsb is_surrogate cps then None else Some (str text)
  | None => None
  end.

(** ** Python [float]

    A finite float is held as its [repr], the shortest decimal text that
    reads back as the same float ([1.5], [1e+16], [-0.0]); the reading of
    a decimal text as a float and the comparison of a float with an
    integer are arithmetic of the interpreter, the class [PyFloat]. *)

Inductive pyfloat : Type :=
| Finite (repr : string)
| Infinity
| NegInfinity
| NaN.

Class PyFloat : Type := {
  (** [float(text)] for a JSON number text with a fraction or an
      exponent; the answer is infinite when the number is too large. *)
  parse_float : list ascii -> pyfloat;
  (** [x == n] for the finite float [x] of the given [repr] and the
      [int] [n]. *)
  float_eq_int : string -> Z -> bool }.

Definition is_zero_float (x : pyfloat) : bool :=
  match x with
  | Finite s => String.eqb s "0.0" || String.eqb s "-0.0"
  | _ => false
  end.

(** [x == y] on floats: a NaN equals nothing, the two zeros are equal. *)
Definition float_eqb (x y : pyfloat) : bool :=
  match x, y with
  | Finite s, Finite t => String.eqb s t || (is_zero_float x && is_zero_float y)
  | Infinity, Infinity => true
  | NegInfinity, NegInfinity => true
  | _, _ => false
  end.

(** ** JSON values and Python's [json] module *)

#[local] Unset Elimination Schemes.
Inductive json : Type :=
| JNull
| JBool (b : bool)
| JInt (n : Z)
| JFloat (x : pyfloat)
| JStr (s : string)
| JList (l : list json)
| JDict (d : list (string * json)).
#[local] Set Elimination Schemes.

(** A Python [dict] with [str] keys, in insertion order. *)
Definition dict := list (string * json).

Fixpoint dict_get (k : string) (d : dict) : option json :=
  match d with
  | [] => None
  | (k', v) :: r => if String.eqb k k' then Some v else dict_get k r
  end.

(** [d[k] = v]: an existing key keeps its position. *)
Fixpoint dict_set (k : string) (v : json) (d : dict) : dict :=
  match d with
  | [] => [(k, v)]
  | (k', v') :: r =>
      if String.eqb k k' then (k, v) :: r else (k', v') :: dict_set k v r
  end.

Definition dict_of_pairs (l : list (string * json)) : dict :=
  fold_left (fun d kv => dict_set (fst kv) (snd kv) d) l [].

Fixpoint distinct (ks : list string) : bool :=
  match ks with
  | [] => true
  | k :: r => negb (existsb (String.eqb k) r) && distinct r
  end.

(** Python truth value: [bool(v)]. *)
Definition truthy (v : json) : bool :=
  match v with
  | JNull => false
  | JBool b => b
  | JInt n => negb (n =? 0)
  | JFloat x => negb (is_zero_float x)
  | JStr s => negb (String.eqb s EmptyString)
  | JList l => match l with [] => false | _ => true end
  | JDict d => match d with [] => false | _ => true end
  end.

(** *** json.dumps (default arguments: [ensure_ascii], [allow_nan],
        separators [", "] and [": "]) *)

Definition dquote : ascii := "034"%char.
Definition backslash : ascii := "092"%char.

(** A character of the text as [ensure_ascii] writes it: the short
    escapes, printable ASCII as it is, [\uXXXX] for the rest, and a pair
    of surrogate escapes for a code point above FFFF. *)
Definition hex4_chars (n : Z) : list ascii :=
  [hex_digit (n / 4096); hex_digit (n / 256 mod 16);
   hex_digit (n / 16 mod 16); hex_digit (n mod 16)].

Definition escape_code_point (n : Z) : list ascii :=
  if n =? 34 then [backslash; dquote]
  else if n =? 92 then [backslash; backslash]
  else if n =? 10 then chars "\n"
  else if n =? 13 then chars "\r"
  else if n =? 9 then chars "\t"
  else if n =? 8 then chars "\b"
  else if n =? 12 then chars "\f"
  else if (32 <=? n) && (n <=? 126) then [chr n]
  else if n <? 65536 then chars "\u" ++ hex4_chars n
  else
    chars "\u" ++ hex4_chars (55296 + (n - 65536) / 1024)
    ++ chars "\u" ++ hex4_chars (56320 + (n - 65536) mod 1024).

(** The code points of a [str]; a text that is no encoding of a [str]
    is read byte by byte. *)
Definition code_points_of (s : string) : list Z :=
  match code_points (chars s) with
  | Some cps => cps
  | None => List.map ord (chars s)
  end.

Definition quote (s : string) : list ascii :=
  dquote :: flat_map escape_code_point (code_points_of s) ++ [dquote].

Definition digit_char (d : Z) : ascii := chr (48 + d).

Fixpoint uint_chars (u : Decimal.uint) : list ascii :=
  match u with
  | Decimal.Nil => []
  | Decimal.D0 r => digit_char 0 :: uint_chars r
  | Decimal.D1 r => digit_char 1 :: uint_chars r
  | Decimal.D2 r => digit_char 2 :: uint_chars r
  | Decimal.D3 r => digit_char 3 :: uint_chars r
  | Decimal.D4 r => digit_char 4 :: uint_chars r
  | Decimal.D5 r => digit_char 5 :: uint_chars r
  | Decimal.D6 r => digit_char 6 :: uint_chars r
  | Decimal.D7 r => digit_char 7 :: uint_chars r
  | Decimal.D8 r => digit_char 8 :: uint_chars r
  | Decimal.D9 r => digit_char 9 :: uint_chars r
  end.

(** [repr] of a Python [int]. *)
Definition int_chars (n : Z) : list ascii :=
  match Z.to_int n with
  | Decimal.Pos u => uint_chars u
  | Decimal.Neg u => "-"%char :: uint_chars u
  end.

Fixpoint join (sep : list ascii) (items : list (list ascii)) : list ascii :=
  match items with
  | [] => []
  | [x] => x
  | x :: r => x ++ sep ++ join sep r
  end.

Fixpoint dumps_chars (v : json) : list ascii :=
  match v with
  | JNull => chars "null"
  | JBool true => chars "true"
  | JBool false => chars "false"
  | JInt n => int_chars n
  | JFloat (Finite repr) => chars repr
  | JFloat Infinity => chars "Infinity"
  | JFloat NegInfinity => chars "-Infinity"
  | JFloat NaN => chars "NaN"
  | JStr s => quote s
  | JList l => "["%char :: join (chars ", ") (List.map dumps_chars l) ++ ["]"%char]
  | JDict d =>
      "{"%char
      :: join (chars ", ")
           (List.map (fun kv => quote (fst kv) ++ chars ": " ++ dumps_chars (snd kv)) d)
      ++ ["}"%char]
  end.

Definition json_dumps (v : json) : string := str (dumps_chars v).

(** *** json.loads

    [None] stands for [json.JSONDecodeError].  The scanner is the one of
    the C accelerator, which [json] uses when it is there. *)

Definition is_json_space (c : ascii) : bool :=
  let n := ord c in (n =? 32) || (n =? 9) || (n =? 10) || (n =? 13).

Fixpoint skip_ws (s : list ascii) : list ascii :=
  match s with
  | c :: r => if is_json_space c then skip_ws r else s
  | [] => []
  end.

Definition is_digit (c : ascii) : bool := (48 <=? ord c) && (ord c <=? 57).

Definition cons_digit (c : ascii) (u : Decimal.uint) : Decimal.uint :=
  match ord c - 48 with
  | 0 => Decimal.D0 u | 1 => Decimal.D1 u | 2 => Decimal.D2 u
  | 3 => Decimal.D3 u | 4 => Decimal.D4 u | 5 => Decimal.D5 u
  | 6 => Decimal.D6 u | 7 => Decimal.D7 u | 8 => Decimal.D8 u
  | _ => Decimal.D9 u
  end.

Fixpoint read_digits (s : list ascii) : Decimal.uint * list ascii :=
  match s with
  | c :: r =>
      if is_digit c then let '(u, r') := read_digits r in (cons_digit c u, r')
      else (Decimal.Nil, s)
  | [] => (Decimal.Nil, [])
  end.

(** The integer part of a number literal: an optional minus sign, then
    either a single 0 or a digit run that does not start with 0. *)
Definition scan_int (s : list ascii) : option (Z * list ascii) :=
  let '(negative, s1) :=
    match s with
    | c :: r => if Ascii.eqb c "-" then (true, r) else (false, s)
    | [] => (false, s)
    end in
  match s1 with
  | c :: r =>
      if Ascii.eqb c "0" then Some (0, r)
      else if is_digit c then
        let '(u, r') := read_digits s1 in
        Some (Z.of_int (if negative then Decimal.Neg u else Decimal.Pos u), r')
      else None
  | [] => None
  end.

Fixpoint span_digits (s : list ascii) : list ascii * list ascii :=
  match s with
  | c :: r =>
      if is_digit c then let '(ds, t) := span_digits r in (c :: ds, t)
      else ([], s)
  | [] => ([], [])
  end.

(** The fraction of a number literal, when there is one: a point and at
    least one digit. *)
Definition scan_fraction (s : list ascii) : list ascii * list ascii :=
  match s with
  | c :: r =>
      if Ascii.eqb c "." then
        match span_digits r with
        | ([], _) => ([], s)
        | (ds, t) => (c :: ds, t)
        end
      else ([], s)
  | [] => ([], s)
  end.

(** The exponent, when there is one: [e] or [E], an optional sign and at
    least one digit. *)
Definition scan_exponent (s : list ascii) : list ascii * list ascii :=
  match s with
  | c :: r =>
      if Ascii.eqb c "e" || Ascii.eqb c "E" then
        let '(sign, r1) :=
          match r with
          | c' :: r' =>
              if Ascii.eqb c' "+" || Ascii.eqb c' "-" then ([c'], r')
              else ([], r)
          | [] => ([], r)
          end in
        match span_digits r1 with
        | ([], _) => ([], s)
        | (ds, t) => (c :: sign ++ ds, t)
        end
      else ([], s)
  | [] => ([], s)
  end.

Definition simple_escape (c : ascii) : option ascii :=
  let n := ord c in
  if n =? 34 then Some (chr 34)        (* quote *)
  else if n =? 92 then Some (chr 92)   (* backslash *)
  else if n =? 47 then Some (chr 47)   (* slash *)
  else if n =? 98 then Some (chr 8)    (* b *)
  else if n =? 102 then Some (chr 12)  (* f *)
  else if n =? 110 then Some (chr 10)  (* n *)
  else if n =? 114 then Some (chr 13)  (* r *)
  else if n =? 116 then Some (chr 9)   (* t *)
  else None.

Definition hex4 (h1 h2 h3 h4 : ascii) : option Z :=
  match hex_value h1, hex_value h2, hex_value h3, hex_value h4 with
  | Some a, Some b, Some c, Some d => Some (((a * 16 + b) * 16 + c) * 16 + d)
  | _, _, _, _ => None
  end.

Definition prepend (x : list ascii) (o : option (list ascii * list ascii))
    : option (list ascii * list ascii) :=
  match o with
  | Some (y, t) => Some (x ++ y, t)
  | None => None
  end.

(** What follows the escape of a high surrogate: the escape of a low
    surrogate, which joins it; an escape that is no four hex digits;
    or anything else. *)
Inductive after_high : Type :=
| Joined (low : Z)
| Malformed
| Apart.

Definition low_escape (s : list ascii) : after_high :=
  match s with
  | b :: u :: g1 :: g2 :: g3 :: g4 :: _ =>
      if Ascii.eqb b backslash && Ascii.eqb u "u" then
        match hex4 g1 g2 g3 g4 with
        | Some m => if is_low_surrogate m then Joined m else Apart
        | None => Malformed
        end
      else Apart
  | _ => Apart
  end.

Definition join_surrogates (high low : Z) : Z :=
  65536 + (high - 55296) * 1024 + (low - 56320).

(** The body of a string literal, after the opening quote. *)
Fixpoint scan_string (s : list ascii) : option (list ascii * list ascii) :=
  match s with
  | [] => None
  | c :: r =>
      if Ascii.eqb c dquote then Some ([], r)
      else if Ascii.eqb c backslash then
        match r with
        | e :: r' =>
            if Ascii.eqb e "u" then
              match r' with
              | h1 :: h2 :: h3 :: h4 :: r'' =>
                  match hex4 h1 h2 h3 h4 with
                  | Some n =>
                      if is_high_surrogate n then
                        match low_escape r'' with
                        | Joined m =>
                            match r'' with
                            | _ :: _ :: _ :: _ :: _ :: _ :: t =>
                                prepend (code_point_chars (join_surrogates n m))
                                  (scan_string t)
                            | _ => None
                            end
                        | Malformed => None
                        | Apart => prepend (code_point_chars n) (scan_string r'')
                        end
                      else prepend (code_point_chars n) (scan_string r'')
                  | None => None
                  end
              | _ => None
              end
            else
              match simple_escape e with
              | Some x => prepend [x] (scan_string r')
              | None => None
              end
        | [] => None
        end
      else if ord c <? 32 then None
      else prepend [c] (scan_string r)
  end.

Fixpoint strip_prefix_chars (p s : list ascii) : option (list ascii) :=
  match p with
  | [] => Some s
  | c :: p' =>
      match s with
      | c' :: s' => if Ascii.eqb c c' then strip_prefix_chars p' s' else None
      | [] => None
      end
  end.

Definition strip_prefix (p : string) (s : list ascii) : option (list ascii) :=
  strip_prefix_chars (chars p) s.

Section Loads.
Context {floats : PyFloat}.

(** A number: an [int] when the literal has neither fraction nor
    exponent, else the [float] of the text of the literal. *)
Definition scan_number (s : list ascii) : option (json * list ascii) :=
  match scan_int s with
  | Some (n, r) =>
      let '(fraction, r1) := scan_fraction r in
      let '(exponent, r2) := scan_exponent r1 in
      match fraction, exponent with
      | [], [] => Some (JInt n, r)
      | _, _ =>
          Some (JFloat (parse_float
                          (firstn (List.length s - List.length r2) s)), r2)
      end
  | None => None
  end.

(** The recursive-descent scanner; every call consumes a character, so the
    length of the text bounds its depth. *)
Fixpoint scan_value (fuel : nat) (s : list ascii) : option (json * list ascii) :=
  match fuel with
  | O => None
  | S fuel =>
      match s with
      | [] => None
      | c :: r =>
          if Ascii.eqb c dquote then
            match scan_string r with
            | Some (x, t) => Some (JStr (str x), t)
            | None => None
            end
          else if Ascii.eqb c "{" then
            match skip_ws r with
            | c' :: r' =>
                if Ascii.eqb c' "}" then Some (JDict [], r')
                else
                  match scan_members fuel (c' :: r') with
                  | Some (d, t) => Some (JDict (dict_of_pairs d), t)
                  | None => None
                  end
            | [] => None
            end
          else if Ascii.eqb c "[" then
            match skip_ws r with
            | c' :: r' =>
                if Ascii.eqb c' "]" then Some (JList [], r')
                else
                  match scan_elements fuel (c' :: r') with
                  | Some (l, t) => Some (JList l, t)
                  | None => None
                  end
            | [] => None
            end
          else if Ascii.eqb c "n" then option_map (pair JNull) (strip_prefix "null" s)
          else if Ascii.eqb c "t" then option_map (pair (JBool true)) (strip_prefix "true" s)
          else if Ascii.eqb c "f" then option_map (pair (JBool false)) (strip_prefix "false" s)
          else if Ascii.eqb c "N" then option_map (pair (JFloat NaN)) (strip_prefix "NaN" s)
          else if Ascii.eqb c "I" then
            option_map (pair (JFloat Infinity)) (strip_prefix "Infinity" s)
          else
            match strip_prefix "-Infinity" s with
            | Some t => Some (JFloat NegInfinity, t)
            | None => scan_number s
            end
      end
  end

with scan_elements (fuel : nat) (s : list ascii) : option (list json * list ascii) :=
  match fuel with
  | O => None
  | S fuel =>
      match scan_value fuel s with
      | Some (v, r) =>
          match skip_ws r with
          | c :: r' =>
              if Ascii.eqb c "]" then Some ([v], r')
              else if Ascii.eqb c "," then
                match scan_elements fuel (skip_ws r') with
                | Some (l, t) => Some (v :: l, t)
                | None => None
                end
              else None
          | [] => None
          end
      | None => None
      end
  end

with scan_members (fuel : nat) (s : list ascii)
  : option (list (string * json) * list ascii) :=
  match fuel with
  | O => None
  | S fuel =>
      match s with
      | c :: r =>
          if Ascii.eqb c dquote then
            match scan_string r with
            | Some (k, r1) =>
                match skip_ws r1 with
                | c1 :: r2 =>
                    if Ascii.eqb c1 ":" then
                      match scan_value fuel (skip_ws r2) with
                      | Some (v, r3) =>
                          match skip_ws r3 with
                          | c3 :: r4 =>
                              if Ascii.eqb c3 "}" then Some ([(str k, v)], r4)
                              else if Ascii.eqb c3 "," then
                                match scan_members fuel (skip_ws r4) with
                                | Some (d, t) => Some ((str k, v) :: d, t)
                                | None => None
                                end
                              else None
                          | [] => None
                          end
                      | None => None
                      end
                    else None
                | [] => None
                end
            | None => None
            end
          else None
      | [] => None
      end
  end.

Definition json_loads (s : string) : option json :=
  let text := chars s in
  match scan_value (S (List.length text)) (skip_ws text) with
  | Some (v, r) => match skip_ws r with [] => Some v | _ => None end
  | None => None
  end.

(** *** Values that [json] writes and reads back

    [wf_json] says that a [json] term stands for a Python value and that
    [json.loads] reads it back from what [json.dumps] writes: the keys of
    a [dict] are pairwise distinct; a string is the encoding of a [str]
    in which no high surrogate stands right before a low one (the
    escapes of such a pair are read back as one code point); and the text
    of a finite float is a number literal that reads as that float, as
    the [repr] of every finite float does ([float(repr(x)) == x]). *)

Fixpoint apart (cps : list Z) : bool :=
  match cps with
  | a :: r =>
      match r with
      | b :: _ => negb (is_high_surrogate a && is_low_surrogate b) && apart r
      | [] => true
      end
  | [] => true
  end.

Definition wf_str (s : string) : bool :=
  match code_points (chars s) with
  | Some cps => apart cps
  | None => false
  end.

Definition wf_float (x : pyfloat) : bool :=
  match x with
  | Finite s =>
      match scan_number (chars s) with
      | Some (JFloat (Finite s'), []) => String.eqb s s'
      | _ => false
      end
  | _ => true
  end.

Fixpoint wf_json (v : json) : bool :=
  match v with
  | JFloat x => wf_float x
  | JStr s => wf_str s
  | JList l => forallb wf_json l
  | JDict d =>
      distinct (List.map fst d)
      && forallb (fun kv => wf_str (fst kv) && wf_json (snd kv)) d
  | _ => true
  end.

(** No NaN anywhere in the value. *)
Fixpoint no_nan (v : json) : bool :=
  match v with
  | JFloat NaN => false
  | JList l => forallb no_nan l
  | JDict d => forallb (fun kv => no_nan (snd kv)) d
  | _ => true
  end.

(** *** [a == b]

    Numbers compare by value across [bool], [int] and [float], lists
    item by item, dicts key by key whatever the order of the keys.  Two
    containers are compared through their items, as Python does when the
    items are not the very same objects. *)

Definition float_eqb_int (x : pyfloat) (n : Z) : bool :=
  match x with
  | Finite s => float_eq_int s n
  | _ => false
  end.

Fixpoint py_eq (a b : json) : bool :=
  match a, b with
  | JNull, JNull => true
  | JBool x, JBool y => Bool.eqb x y
  | JBool x, JInt n => Z.b2z x =? n
  | JBool x, JFloat y => float_eqb_int y (Z.b2z x)
  | JInt n, JBool y => n =? Z.b2z y
  | JInt n, JInt m => n =? m
  | JInt n, JFloat y => float_eqb_int y n
  | JFloat x, JBool y => float_eqb_int x (Z.b2z y)
  | JFloat x, JInt m => float_eqb_int x m
  | JFloat x, JFloat y => float_eqb x y
  | JStr s, JStr t => String.eqb s t
  | JList l, JList m =>
      (fix items (l m : list json) : bool :=
         match l, m with
         | [], [] => true
         | x :: l', y :: m' => py_eq x y && items l' m'
         | _, _ => false
         end) l m
  | JDict d, JDict e =>
      Nat.eqb (List.length d) (List.length e)
      && forallb (fun kv => match dict_get (fst kv) e with
                            | Some w => py_eq (snd kv) w
                            | None => false
                            end) d
  | _, _ => false
  end.

End Loads.

(** ** Naive [datetime.datetime] values

    A datetime is the record of its fields, as in Python; values read from
    the clock satisfy [valid_datetime]. *)

Record datetime := Datetime {
  year : Z; month : Z; day : Z;
  hour : Z; minute : Z; second : Z; microsecond : Z }.

Definition is_leap (y : Z) : bool :=
  (y mod 4 =? 0) && (negb (y mod 100 =? 0) || (y mod 400 =? 0)).

Definition month_length (leapyear : bool) (m : Z) : Z :=
  if m =? 2 then (if leapyear then 29 else 28)
  else if (m =? 4) || (m =? 6) || (m =? 9) || (m =? 11) then 30
  else 31.

Definition days_in_month (y m : Z) : Z := month_length (is_leap y) m.

Definition valid_datetime (d : datetime) : bool :=
  (1 <=? year d) && (year d <=? 9999)
  && (1 <=? month d) && (month d <=? 12)
  && (1 <=? day d) && (day d <=? days_in_month (year d) (month d))
  && (0 <=? hour d) && (hour d <=? 23)
  && (0 <=? minute d) && (minute d <=? 59)
  && (0 <=? second d) && (second d <=? 59)
  && (0 <=? microsecond d) && (microsecond d <=? 999999).

(** Comparison of two naive datetimes: the order of the field tuples. *)
Definition datetime_key (d : datetime) : list Z :=
  [year d; month d; day d; hour d; minute d; second d; microsecond d].

Fixpoint lex_ltb (a b : list Z) : bool :=
  match a, b with
  | x :: a', y :: b' => (x <? y) || ((x =? y) && lex_ltb a' b')
  | [], _ :: _ => true
  | _, _ => false
  end.

Definition datetime_ltb (a b : datetime) : bool :=
  lex_ltb (datetime_key a) (datetime_key b).

(** [a > b] *)
Definition datetime_gtb (a b : datetime) : bool := datetime_ltb b a.

(** *** Ordinals: [date.toordinal] and [date.fromordinal] *)

Definition days_before_year (y : Z) : Z :=
  let y := y - 1 in y * 365 + y / 4 - y / 100 + y / 400.

Definition days_before_month_table : list Z :=
  [0; 0; 31; 59; 90; 120; 151; 181; 212; 243; 273; 304; 334].

Definition days_in_month_table : list Z :=
  [0; 31; 28; 31; 30; 31; 30; 31; 31; 30; 31; 30; 31].

Definition days_before_month (y m : Z) : Z :=
  nth (Z.to_nat m) days_before_month_table 0
  + (if (2 <? m) && is_leap y then 1 else 0).

Definition ymd2ord (y m d : Z) : Z :=
  days_before_year y + days_before_month y m + d.

Definition toordinal (d : datetime) : Z := ymd2ord (year d) (month d) (day d).

(** Month and day of the day numbered [n] (from 0) of a year. *)
Definition month_day (n : Z) (leapyear : bool) : Z * Z :=
  let m := Z.shiftr (n + 50) 5 in
  let preceding :=
    nth (Z.to_nat m) days_before_month_table 0
    + (if (2 <? m) && leapyear then 1 else 0) in
  if n <? preceding then
    let m := m - 1 in
    let preceding :=
      preceding - (nth (Z.to_nat m) days_in_month_table 0
                   + (if (m =? 2) && leapyear then 1 else 0)) in
    (m, n - preceding + 1)
  else (m, n - preceding + 1).

Definition ord2ymd (n : Z) : Z * Z * Z :=
  let n := n - 1 in
  let n400 := n / 146097 in let n := n mod 146097 in
  let y := n400 * 400 + 1 in
  let n100 := n / 36524 in let n := n mod 36524 in
  let n4 := n / 1461 in let n := n mod 1461 in
  let n1 := n / 365 in let n := n mod 365 in
  let y := y + n100 * 100 + n4 * 4 + n1 in
  if (n1 =? 4) || (n100 =? 4) then (y - 1, 12, 31)
  else
    let leapyear := (n1 =? 3) && (negb (n4 =? 24) || (n100 =? 3)) in
    let '(m, d) := month_day n leapyear in
    (y, m, d).

(** [d + timedelta(hours=h)]; [None] is the [OverflowError] of a result
    outside years 1 to 9999 (or of an oversized [timedelta]). *)
Definition add_hours (d : datetime) (h : Z) : option datetime :=
  let total := hour d * 3600 + minute d * 60 + second d + h * 3600 in
  let days := toordinal d + total / 86400 in
  let secs := total mod 86400 in
  if (999999999 <? Z.abs ((h * 3600) / 86400)) then None
  else if (0 <? days) && (days <=? 3652059) then
    let '(y, m, dd) := ord2ymd days in
    Some (Datetime y m dd (secs / 3600) ((secs mod 3600) / 60) (secs mod 60)
                   (microsecond d))
  else None.

(** *** [datetime.isoformat] *)

(** The [w] low decimal digits of [n], most significant first: [%0wd] for
    [0 <= n < 10 ^ w]. *)
Fixpoint digits_fixed (w : nat) (n : Z) : list ascii :=
  match w with
  | O => []
  | S w' => digits_fixed w' (n / 10) ++ [digit_char (n mod 10)]
  end.

Definition isoformat_chars (d : datetime) : list ascii :=
  digits_fixed 4 (year d) ++ "-"%char :: digits_fixed 2 (month d)
  ++ "-"%char :: digits_fixed 2 (day d)
  ++ "T"%char :: digits_fixed 2 (hour d)
  ++ ":"%char :: digits_fixed 2 (minute d)
  ++ ":"%char :: digits_fixed 2 (second d)
  ++ (if microsecond d =? 0 then []
      else "."%char :: digits_fixed 6 (microsecond d)).

Definition isoformat (d : datetime) : string := str (isoformat_chars d).

(** *** [datetime.fromisoformat]

    The grammar of Python 3.7 to 3.10 for naive values: a date
    [YYYY-MM-DD], then optionally any one separator character and a time
    [HH[:MM[:SS[.fff[fff]]]]].  [None] is the [ValueError].  Strings with a
    UTC offset (aware values) are outside the model, as are the further
    ISO 8601 forms that later Python versions accept.  The separator is
    one character of the [str], so one to four bytes of the text, told
    from its first byte. *)

Fixpoint take_digits (n : nat) (acc : Z) (s : list ascii) : option (Z * list ascii) :=
  match n with
  | O => Some (acc, s)
  | S n' =>
      match s with
      | c :: r =>
          if is_digit c then take_digits n' (acc * 10 + (ord c - 48)) r else None
      | [] => None
      end
  end.

Definition expect (c : ascii) (s : list ascii) : option (list ascii) :=
  match s with
  | c' :: r => if Ascii.eqb c c' then Some r else None
  | [] => None
  end.

Definition parse_fraction (s : list ascii) : option Z :=
  match List.length s with
  | 3%nat => match take_digits 3 0 s with Some (n, _) => Some (n * 1000) | None => None end
  | 6%nat => match take_digits 6 0 s with Some (n, _) => Some n | None => None end
  | _ => None
  end.

(** Hour, minute, second and microsecond of a time string. *)
Definition parse_time (s : list ascii) : option (Z * Z * Z * Z) :=
  match take_digits 2 0 s with
  | None => None
  | Some (hh, []) => Some (hh, 0, 0, 0)
  | Some (hh, r) =>
      match expect ":" r with
      | None => None
      | Some r =>
          match take_digits 2 0 r with
          | None => None
          | Some (mm, []) => Some (hh, mm, 0, 0)
          | Some (mm, r) =>
              match expect ":" r with
              | None => None
              | Some r =>
                  match take_digits 2 0 r with
                  | None => None
                  | Some (ss, []) => Some (hh, mm, ss, 0)
                  | Some (ss, r) =>
                      match expect "." r with
                      | None => None
                      | Some r =>
                          match parse_fraction r with
                          | Some us => Some (hh, mm, ss, us)
                          | None => None
                          end
                      end
                  end
              end
          end
      end
  end.

Definition parse_date (s : list ascii) : option (Z * Z * Z * list ascii) :=
  match take_digits 4 0 s with
  | None => None
  | Some (y, r) =>
      match expect "-" r with
      | None => None
      | Some r =>
          match take_digits 2 0 r with
          | None => None
          | Some (m, r) =>
              match expect "-" r with
              | None => None
              | Some r =>
                  match take_digits 2 0 r with
                  | None => None
                  | Some (d, r) => Some (y, m, d, r)
                  end
              end
          end
      end
  end.

Definition checked (d : datetime) : option datetime :=
  if valid_datetime d then Some d else None.

Definition skip_separator (c : ascii) (r : list ascii) : list ascii :=
  let n := ord c in
  if n <? 128 then r
  else if (224 <=? n) && (n <? 240) then skipn 2 r
  else if 240 <=? n then skipn 3 r
  else skipn 1 r.

Definition fromisoformat (s : string) : option datetime :=
  match parse_date (chars s) with
  | None => None
  | Some (y, m, d, []) => checked (Datetime y m d 0 0 0 0)
  | Some (y, m, d, c :: r) =>
      let t := skip_separator c r in
      if existsb (fun c => Ascii.eqb c "-" || Ascii.eqb c "+") t then None
      else
        match parse_time t with
        | Some (hh, mm, ss, us) => checked (Datetime y m d hh mm ss us)
        | None => None
        end
  end.

(** ** Exceptions and programs *)

Inductive exn : Type :=
| HTTPException (status_code : Z) (detail : string)
| PyError (cls : string) (msg : string).

(** [str(e)] *)
Definition exn_str (e : exn) : string :=
  match e with
  | HTTPException _ detail => detail
  | PyError _ msg => msg
  end.

Inductive result (A : Type) : Type :=
| Return (a : A)
| Raise (e : exn).
Arguments Return {A} a.
Arguments Raise {A} e.

(** What a Redis call gives back: a reply, or a [redis.RedisError]. *)
Inductive redis_reply (A : Type) : Type :=
| Reply (a : A)
| RedisError (msg : string).
Arguments Reply {A} a.
Arguments RedisError {A} msg.

(** A program is a tree of calls to the outside: each constructor is one
    call, its last argument the rest of the program given the answer. *)
Inductive Prog (A : Type) : Type :=
| Ret (a : A)
| Utcnow (k : datetime -> Prog A)
| TimeTime (k : Z -> Prog A)
| Urandom (n : Z) (k : bytes -> Prog A)
| RedisSetex (key : string) (seconds : Z) (value : string)
    (k : redis_reply unit -> Prog A)
| RedisGet (key : string) (k : redis_reply (option bytes) -> Prog A)
| RedisDelete (key : string) (k : redis_reply Z -> Prog A)
| RedisExists (key : string) (k : redis_reply Z -> Prog A).
Arguments Ret {A} a.
Arguments Utcnow {A} k.
Arguments TimeTime {A} k.
Arguments Urandom {A} n k.
Arguments RedisSetex {A} key seconds value k.
Arguments RedisGet {A} key k.
Arguments RedisDelete {A} key k.
Arguments RedisExists {A} key k.

Fixpoint bind {A B} (p : Prog A) (f : A -> Prog B) : Prog B :=
  match p with
  | Ret a => f a
  | Utcnow k => Utcnow (fun x => bind (k x) f)
  | TimeTime k => TimeTime (fun x => bind (k x) f)
  | Urandom n k => Urandom n (fun x => bind (k x) f)
  | RedisSetex key s v k => RedisSetex key s v (fun x => bind (k x) f)
  | RedisGet key k => RedisGet key (fun x => bind (k x) f)
  | RedisDelete key k => RedisDelete key (fun x => bind (k x) f)
  | RedisExists key k => RedisExists key (fun x => bind (k x) f)
  end.

Notation "'let*' x ':=' p 'in' q" := (bind p (fun x => q))
  (at level 10, x pattern, p at level 100, q at level 200).

(** One call together with the answer it got. *)
Inductive Event : Type :=
| EUtcnow (now : datetime)
| ETimeTime (t : Z)
| EUrandom (n : Z) (b : bytes)
| ESetex (key : string) (seconds : Z) (value : string) (r : redis_reply unit)
| EGet (key : string) (r : redis_reply (option bytes))
| EDelete (key : string) (r : redis_reply Z)
| EExists (key : string) (r : redis_reply Z).

(** [replay p tr] runs [p] against the answers recorded in [tr]: [Some a]
    when [tr] is exactly a run of [p] that returns [a].  The clock gives
    valid datetimes and a time in the 64-bit range, and [os.urandom(n)]
    gives [n] bytes. *)
Fixpoint replay {A} (p : Prog A) (tr : list Event) : option A :=
  match tr with
  | [] => match p with Ret a => Some a | _ => None end
  | e :: tr' =>
      match p, e with
      | Utcnow k, EUtcnow now =>
          if valid_datetime now then replay (k now) tr' else None
      | TimeTime k, ETimeTime t =>
          if (0 <=? t) && (t <? 2 ^ 64) then replay (k t) tr' else None
      | Urandom n k, EUrandom n' b =>
          if (n =? n') && (Z.of_nat (List.length b) =? n) then replay (k b) tr' else None
      | RedisSetex key s v k, ESetex key' s' v' r =>
          if String.eqb key key' && (s =? s') && String.eqb v v'
          then replay (k r) tr' else None
      | RedisGet key k, EGet key' r =>
          if String.eqb key key' then replay (k r) tr' else None
      | RedisDelete key k, EDelete key' r =>
          if String.eqb key key' then replay (k r) tr' else None
      | RedisExists key k, EExists key' r =>
          if String.eqb key key' then replay (k r) tr' else None
      | _, _ => None
      end
  end.

(** An environment that answers every call from a state of its own. *)
Record Handler (S : Type) : Type := {
  on_utcnow : S -> datetime * S;
  on_time : S -> Z * S;
  on_urandom : Z -> S -> bytes * S;
  on_setex : string -> Z -> string -> S -> redis_reply unit * S;
  on_get : string -> S -> redis_reply (option bytes) * S;
  on_delete : string -> S -> redis_reply Z * S;
  on_exists : string -> S -> redis_reply Z * S }.
Arguments on_utcnow {S}.
Arguments on_time {S}.
Arguments on_urandom {S}.
Arguments on_setex {S}.
Arguments on_get {S}.
Arguments on_delete {S}.
Arguments on_exists {S}.

Fixpoint run {S A} (h : Handler S) (p : Prog A) (s : S) : A * S :=
  match p with
  | Ret a => (a, s)
  | Utcnow k => let '(x, s') := on_utcnow h s in run h (k x) s'
  | TimeTime k => let '(x, s') := on_time h s in run h (k x) s'
  | Urandom n k => let '(x, s') := on_urandom h n s in run h (k x) s'
  | RedisSetex key sec v k => let '(x, s') := on_setex h key sec v s in run h (k x) s'
  | RedisGet key k => let '(x, s') := on_get h key s in run h (k x) s'
  | RedisDelete key k => let '(x, s') := on_delete h key s in run h (k x) s'
  | RedisExists key k => let '(x, s') := on_exists h key s in run h (k x) s'
  end.

(** ** The platform: the cipher and the local-time stamp

    [cryptography.fernet.Fernet] bound to the process key:
    [encrypt_from_parts data current_time iv] is
    [Fernet._encrypt_from_parts], [fernet_decrypt token] is
    [Fernet.decrypt(token)] with [None] for [InvalidToken]. *)
Class Fernet : Type := {
  encrypt_from_parts : bytes -> Z -> bytes -> result bytes;
  fernet_decrypt : bytes -> option bytes }.

(** What the library promises: encryption succeeds on a 16-byte IV and a
    64-bit time, and a token decrypts to the data it was made from. *)
Class FernetLaws (F : Fernet) : Prop := {
  encrypt_succeeds : forall data t iv,
    List.length iv = 16%nat -> 0 <= t < 2 ^ 64 ->
    exists token, encrypt_from_parts data t iv = Return token;
  decrypt_encrypt : forall data t iv token,
    encrypt_from_parts data t iv = Return token ->
    fernet_decrypt token = Some data }.

(** [str(d.timestamp())] of a naive datetime: seconds since the epoch in
    local time, as a float literal. *)
Class LocalTime : Type := {
  timestamp_repr : datetime -> string }.

(** ** app/services/encryption_service.py *)

Module EncryptionService.
Section WithCipher.
Context {floats : PyFloat} {cipher : Fernet}.

(** [EncryptionService.encrypt].  [Fernet.encrypt] reads the time and
    draws the IV, then calls [_encrypt_from_parts]. *)
Definition encrypt (data : json) : Prog (result bytes) :=
  let json_data := json_dumps data in
  TimeTime (fun current_time =>
  Urandom 16 (fun iv =>
    match encrypt_from_parts (utf8_encode json_data) current_time iv with
    | Return encrypted => Ret (Return encrypted)
    | Raise e =>
        Ret (Raise (PyError "Exception" ("Failed to encrypt data: " ++ exn_str e)))
    end)).

(** [EncryptionService.decrypt]: [None] when [InvalidToken] or a
    [ValueError] ([UnicodeDecodeError], [JSONDecodeError]) is caught. *)
Definition decrypt (encrypted_data : bytes) : option json :=
  match fernet_decrypt encrypted_data with
  | None => None
  | Some decrypted =>
      match utf8_decode decrypted with
      | None => None
      | Some text => json_loads text
      end
  end.

End WithCipher.
End EncryptionService.

(** ** app/repositories/link_repository.py *)

Module LinkRepository.
Section WithFloats.
Context {floats : PyFloat}.

Record t : Type := {
  expiration_hours : Z;         (* LINK_EXPIRATION_HOURS, default 1 *)
  final_expiration_hours : Z }. (* LINK_FINAL_EXPIRATION_HOURS, default 2 *)

Definition key_of (short_code : string) : string := "link:" ++ short_code.

Definition save (self : t) (short_code : string) (encrypted_data : bytes)
    (metadata : json) : Prog (result bool) :=
  let data_to_store :=
    JDict [("encrypted_data", JStr (hex encrypted_data)); ("metadata", metadata)] in
  let json_data := json_dumps data_to_store in
  let expiration_seconds := expiration_hours self * 3600 in
  RedisSetex (key_of short_code) expiration_seconds json_data (fun r =>
    match r with
    | Reply _ => Ret (Return true)
    | RedisError e =>
        Ret (Raise (PyError "Exception" ("Failed to save link data: " ++ e)))
    end).

(** What [get] makes of the stored bytes; [None] when any step raises. *)
Definition parse_stored (data : bytes) : option (bytes * json) :=
  match utf8_decode data with
  | None => None
  | Some text =>
      match json_loads text with
      | Some (JDict parsed) =>
          match dict_get "encrypted_data" parsed with
          | Some (JStr h) =>
              match fromhex h with
              | Some encrypted_data =>
                  match dict_get "metadata" parsed with
                  | Some metadata => Some (encrypted_data, metadata)
                  | None => None
                  end
              | None => None
              end
          | _ => None
          end
      | _ => None
      end
  end.

(** The result stands for the dict with keys [encrypted_data] and
    [metadata]. *)
Definition get (short_code : string) : Prog (option (bytes * json)) :=
  RedisGet (key_of short_code) (fun r =>
    match r with
    | Reply (Some data) =>
        match data with
        | [] => Ret None
        | _ => Ret (parse_stored data)
        end
    | Reply None => Ret None
    | RedisError _ => Ret None
    end).

Definition delete (short_code : string) : Prog bool :=
  RedisDelete (key_of short_code) (fun r =>
    match r with
    | Reply n => Ret (0 <? n)
    | RedisError _ => Ret false
    end).

Definition exists_ (short_code : string) : Prog bool :=
  RedisExists (key_of short_code) (fun r =>
    match r with
    | Reply n => Ret (0 <? n)
    | RedisError _ => Ret false
    end).

End WithFloats.
End LinkRepository.

(** ** app/schemas/link.py *)

Record LinkGenerateRequest : Type := {
  request_data : dict }.

Record LinkGenerateResponse : Type := {
  short_code : string;
  expires_at : datetime;
  created_at : datetime }.

Record LinkValidationResponse : Type := {
  valid : bool;
  data : option dict;
  token : option string;
  encrypted_at : option datetime;
  error : option string }.

(** Validation of a field of type [Optional[Dict[str, Any]]] and of one of
    type [Optional[str]]; values of another type are refused (pydantic
    raises [ValidationError]; some versions coerce instead). *)
Definition optional_dict (v : option json) : result (option dict) :=
  match v with
  | None | Some JNull => Return None
  | Some (JDict d) => Return (Some d)
  | Some _ => Raise (PyError "ValidationError" "data")
  end.

Definition optional_str (v : option json) : result (option string) :=
  match v with
  | None | Some JNull => Return None
  | Some (JStr s) => Return (Some s)
  | Some _ => Raise (PyError "ValidationError" "token")
  end.

(** ** app/controllers/link_controller.py *)

Module LinkController.
Section WithPlatform.
Context {floats : PyFloat} {cipher : Fernet} {local_time : LocalTime}.

Record t : Type := {
  repository : LinkRepository.t;
  expiration_hours : Z }.

(** [LinkController.__init__] *)
Definition init (repository : LinkRepository.t) : t :=
  {| repository := repository;
     expiration_hours := LinkRepository.expiration_hours repository |}.

Definition max_attempts : Z := 5.

(** The token taken from the Authorization header. *)
Definition extract_token (authorization : option string) : option string :=
  match authorization with
  | Some a =>
      if String.eqb a EmptyString then None
      else if String.prefix "Bearer " a
           then Some (String.substring 7 (String.length a - 7) a)
           else Some a
  | None => None
  end.

Definition missing (token : option string) : bool :=
  match token with
  | Some s => String.eqb s EmptyString
  | None => true
  end.

(** The bytes hashed on a retry:
    [encrypted_data + str(now.timestamp()).encode()]. *)
Definition encrypted_data_with_timestamp (encrypted_data : bytes)
    (now : datetime) : bytes :=
  encrypted_data ++ utf8_encode (timestamp_repr now).

(** The [while] loop of [generate_link]; it makes at most [max_attempts]
    turns, which [fuel] counts down. *)
Fixpoint collision_loop (fuel : nat) (encrypted_data : bytes) (now : datetime)
    (short_code : string) (attempt : Z) : Prog (string * Z) :=
  let* x := LinkRepository.exists_ short_code in
  if x && (attempt <? max_attempts) then
    match fuel with
    | O => Ret (short_code, attempt)
    | S fuel =>
        let short_code :=
          HashingService.generate_short_code
            (encrypted_data_with_timestamp encrypted_data now)
            HashingService.default_max_length in
        collision_loop fuel encrypted_data now short_code (attempt + 1)
    end
  else Ret (short_code, attempt).

Definition generate_link (self : t) (request : LinkGenerateRequest)
    (authorization : option string) : Prog (result LinkGenerateResponse) :=
  let token := extract_token authorization in
  if missing token then
    Ret (Raise (HTTPException 401 "Authorization token is required"))
  else
    let token := match token with Some s => s | None => EmptyString end in
    Utcnow (fun now =>
    match add_hours now (expiration_hours self) with
    | None => Ret (Raise (PyError "OverflowError" "date value out of range"))
    | Some expires_at =>
        let data_to_encrypt :=
          JDict [("data", JDict (request_data request));
                 ("token", JStr token);
                 ("encrypted_at", JStr (isoformat now));
                 ("expires_at", JStr (isoformat expires_at))] in
        let* r := EncryptionService.encrypt data_to_encrypt in
        match r with
        | Raise e =>
            Ret (Raise (HTTPException 500 ("Failed to encrypt data: " ++ exn_str e)))
        | Return encrypted_data =>
            let short_code :=
              HashingService.generate_short_code encrypted_data
                HashingService.default_max_length in
            let* (short_code, attempt) :=
              collision_loop (Z.to_nat max_attempts) encrypted_data now short_code 0 in
            if max_attempts <=? attempt then
              Ret (Raise (HTTPException 500 "Failed to generate unique short code"))
            else
              let metadata :=
                JDict [("encrypted_at", JStr (isoformat now));
                       ("expires_at", JStr (isoformat expires_at))] in
              let* s := LinkRepository.save (repository self) short_code
                          encrypted_data metadata in
              match s with
              | Raise e =>
                  Ret (Raise (HTTPException 500 ("Failed to save link: " ++ exn_str e)))
              | Return _ =>
                  Ret (Return {| short_code := short_code;
                                 expires_at := expires_at;
                                 created_at := now |})
              end
        end
    end).

Definition invalid (reason : string) : LinkValidationResponse :=
  {| valid := false; data := None; token := None; encrypted_at := None;
     error := Some reason |}.

Definition truthy_opt (v : option json) : bool :=
  match v with
  | Some v => truthy v
  | None => false
  end.

(** [datetime.fromisoformat(v)] on a value taken from the record. *)
Definition fromisoformat_value (v : option json) : result datetime :=
  match v with
  | Some (JStr s) =>
      match fromisoformat s with
      | Some d => Return d
      | None => Raise (PyError "ValueError" "Invalid isoformat string")
      end
  | _ => Raise (PyError "TypeError" "fromisoformat: argument must be str")
  end.

(** The end of [validate_link], from the comment "Return valid response". *)
Definition valid_response (decrypted_data : dict) : result LinkValidationResponse :=
  let encrypted_at_str := dict_get "encrypted_at" decrypted_data in
  let encrypted_at :=
    if truthy_opt encrypted_at_str
    then match fromisoformat_value encrypted_at_str with
         | Return d => Return (Some d)
         | Raise e => Raise e
         end
    else Return None in
  match encrypted_at with
  | Raise e => Raise e
  | Return encrypted_at =>
      match optional_dict (dict_get "data" decrypted_data) with
      | Raise e => Raise e
      | Return data =>
          match optional_str (dict_get "token" decrypted_data) with
          | Raise e => Raise e
          | Return token =>
              Return {| valid := true; data := data; token := token;
                        encrypted_at := encrypted_at; error := None |}
          end
      end
  end.

Definition validate_link (self : t) (short_code : string)
    : Prog (result LinkValidationResponse) :=
  let* link_data := LinkRepository.get short_code in
  match link_data with
  | None => Ret (Return (invalid "Link not found or expired"))
  | Some (encrypted_data, _) =>
      let decrypted_data := EncryptionService.decrypt encrypted_data in
      if negb (truthy_opt decrypted_data) then
        Ret (Return (invalid "Link data is corrupted or invalid"))
      else
        match decrypted_data with
        | Some (JDict decrypted_data) =>
            let expires_at_str := dict_get "expires_at" decrypted_data in
            if truthy_opt expires_at_str then
              match fromisoformat_value expires_at_str with
              | Raise e => Ret (Raise e)
              | Return expires_at =>
                  Utcnow (fun now =>
                    if datetime_gtb now expires_at then
                      Ret (Return (invalid "Link has expired"))
                    else Ret (valid_response decrypted_data))
              end
            else Ret (valid_response decrypted_data)
        | _ => Ret (Raise (PyError "AttributeError" "object has no attribute get"))
        end
  end.

End WithPlatform.
End LinkController.

(** ** A test platform

    A stand-in for the cipher with the token layout of Fernet (version
    byte, 8-byte time, 16-byte IV, then the payload) but neither
    encryption nor MAC, a UTC reading of [timestamp] and a stand-in for
    the reading of floats; used to run the service on concrete inputs. *)

Module TestPlatform.

Definition seal (data : bytes) (current_time : Z) (iv : bytes)
    : result bytes :=
  if Nat.eqb (List.length iv) 16 && (0 <=? current_time) && (current_time <? 2 ^ 64)
  then Return (x80 :: SHA256.be_bytes 8 current_time ++ iv ++ data)
  else Raise (PyError "ValueError" "invalid IV or timestamp").

Definition unseal (token : bytes) : option bytes :=
  match token with
  | b :: r =>
      if (byte_to_Z b =? 128) && Nat.leb 24 (List.length r)
      then Some (skipn 24 r) else None
  | [] => None
  end.

Definition cipher : Fernet :=
  {| encrypt_from_parts := seal;
     fernet_decrypt := unseal |}.

(** A stand-in for the arithmetic of floats, by decimal arithmetic: it
    agrees with [float] and [repr] on the number texts of at most
    fifteen digits, which a float holds apart; a longer text is kept as
    it is written. *)
Fixpoint digits_value (acc : Z) (ds : list ascii) : Z :=
  match ds with
  | [] => acc
  | c :: r => digits_value (acc * 10 + (ord c - 48)) r
  end.

(** A number text as sign, digits and decimal exponent: the number is
    the digits, read as an integer, times ten to the exponent. *)
Definition decimal_of (text : list ascii) : bool * Z * Z :=
  let '(negative, t0) :=
    match text with
    | c :: r => if Ascii.eqb c "-" then (true, r) else (false, text)
    | [] => (false, text)
    end in
  let '(whole, t1) := span_digits t0 in
  let '(fraction, t2) :=
    match t1 with
    | c :: r => if Ascii.eqb c "." then span_digits r else ([], t1)
    | [] => ([], t1)
    end in
  let exponent :=
    match t2 with
    | _ :: c :: r =>
        if Ascii.eqb c "-" then - digits_value 0 r
        else if Ascii.eqb c "+" then digits_value 0 r
        else digits_value 0 (c :: r)
    | _ => 0
    end in
  (negative, digits_value 0 (whole ++ fraction),
   exponent - Z.of_nat (List.length fraction)).

(** Without the zeros at the end of the digits. *)
Fixpoint strip_zeros (fuel : nat) (m e : Z) : Z * Z :=
  match fuel with
  | O => (m, e)
  | S fuel =>
      if (m mod 10 =? 0) && negb (m =? 0) then strip_zeros fuel (m / 10) (e + 1)
      else (m, e)
  end.

(** [repr] of the float nearest to the digits [m] times ten to the
    [e]: the digits themselves, in positional notation when the point
    falls within them or near, else with an exponent of two digits at
    least. *)
Definition repr_of (negative : bool) (m e : Z) : list ascii :=
  let digits := int_chars m in
  let k := Z.of_nat (List.length digits) in
  let point := k + e in
  (if negative then ["-"%char] else [])
  ++ (if (-4 <? point) && (point <=? 16) then
        if point <=? 0 then
          chars "0." ++ repeat "0"%char (Z.to_nat (- point)) ++ digits
        else if k <=? point then
          digits ++ repeat "0"%char (Z.to_nat (point - k)) ++ chars ".0"
        else
          firstn (Z.to_nat point) digits
          ++ "."%char :: skipn (Z.to_nat point) digits
      else
        firstn 1 digits
        ++ (if 1 <? k then "."%char :: skipn 1 digits else [])
        ++ "e"%char
           :: (if point - 1 <? 0 then "-"%char else "+"%char)
           :: (if Z.abs (point - 1) <? 10 then ["0"%char] else [])
           ++ int_chars (Z.abs (point - 1))).

Definition float_of_text (text : list ascii) : pyfloat :=
  let '(negative, m0, e0) := decimal_of text in
  let '(m, e) := strip_zeros (List.length text) m0 e0 in
  if m =? 0 then Finite (if negative then "-0.0" else "0.0")
  else
    let k := Z.of_nat (List.length (int_chars m)) in
    if (k <=? 15) && (-300 <=? k + e) && (k + e <=? 300)
    then Finite (str (repr_of negative m e))
    else Finite (str text).

(** A float below [1e16] equals the [int] [n] when its [repr] is
    [n.0]. *)
Definition floats : PyFloat :=
  {| parse_float := float_of_text;
     float_eq_int repr n := String.eqb repr (str (int_chars n ++ chars ".0")) |}.

(** [str] of the float that holds [micros] millionths: the fraction is
    written without its trailing zeros, and with one digit at least. *)
Definition float_text (micros : Z) : list ascii :=
  (if micros <? 0 then ["-"%char] else [])
  ++ int_chars (Z.abs micros / 1000000)
  ++ "."%char
     :: match rstrip "0" (digits_fixed 6 (Z.abs micros mod 1000000)) with
        | [] => ["0"%char]
        | fraction => fraction
        end.

Definition local_time : LocalTime :=
  {| timestamp_repr d :=
       str (float_text (((toordinal d - 719163) * 86400
                         + hour d * 3600 + minute d * 60 + second d)
                        * 1000000 + microsecond d)) |}.

End TestPlatform.

(** ** A Redis server as a handler

    The store maps a key to its time-to-live and value; the clock, the
    Unix time and the random bytes are fixed in the state. *)

Record World : Type := {
  clock : datetime;
  unix_time : Z;
  entropy : bytes;
  store : gmap string (Z * bytes) }.

Definition world_handler : Handler World := {|
  on_utcnow w := (clock w, w);
  on_time w := (unix_time w, w);
  on_urandom n w := (firstn (Z.to_nat n) (entropy w), w);
  on_setex key seconds value w :=
    if 0 <? seconds then
      (Reply tt,
       {| clock := clock w; unix_time := unix_time w; entropy := entropy w;
          store := <[key := (seconds, utf8_encode value)]> (store w) |})
    else (RedisError "invalid expire time in setex", w);
  on_get key w := (Reply (snd <$> store w !! key), w);
  on_delete key w :=
    match store w !! key with
    | Some _ =>
        (Reply 1,
         {| clock := clock w; unix_time := unix_time w; entropy := entropy w;
            store := delete key (store w) |})
    | None => (Reply 0, w)
    end;
  on_exists key w :=
    (Reply (match store w !! key with Some _ => 1 | None => 0 end), w) |}.

(** Values used to run the service on the test platform. *)
Module Fixture.

Definition repository : LinkRepository.t :=
  {| LinkRepository.expiration_hours := 1;
     LinkRepository.final_expiration_hours := 2 |}.

Definition controller : LinkController.t := LinkController.init repository.

Definition request : LinkGenerateRequest :=
  {| request_data := [("a", JInt 1)] |}.

Definition authorization : option string := Some "Bearer tok".

Definition now : datetime := Datetime 2024 1 15 10 30 0 250000.
Definition expires : datetime := Datetime 2024 1 15 11 30 0 250000.
Definition later : datetime := Datetime 2024 1 15 12 0 0 0.

Definition unix_now : Z := 1705314600.
Definition iv : bytes := repeat x00 16.

Definition ascii_bytes (s : string) : bytes :=
  List.map (fun c => Z_to_byte (ord c)) (chars s).

(** The token the test cipher makes of a record. *)
Definition sealed (record : json) : bytes :=
  match TestPlatform.seal (utf8_encode (json_dumps record)) unix_now iv with
  | Return token => token
  | Raise _ => []
  end.

(** The bytes Redis holds for a ciphertext saved by [LinkRepository.save]. *)
Definition stored (blob : bytes) (metadata : json) : bytes :=
  utf8_encode (json_dumps (JDict [("encrypted_data", JStr (hex blob));
                                  ("metadata", metadata)])).

Definition blob : bytes :=
  sealed (JDict [("data", JDict (request_data request));
                 ("token", JStr "tok");
                 ("encrypted_at", JStr (isoformat now));
                 ("expires_at", JStr (isoformat expires))]).

Definition first_code : string :=
  HashingService.generate_short_code blob HashingService.default_max_length.

Definition retry_code : string :=
  HashingService.generate_short_code
    (@LinkController.encrypted_data_with_timestamp TestPlatform.local_time blob now)
    HashingService.default_max_length.

Definition world : World :=
  {| clock := now; unix_time := unix_now; entropy := iv; store := ∅ |}.

End Fixture.

(** Runs and stored entries on the test platform. *)
Module Scenario.

Definition generate : Prog (result LinkGenerateResponse) :=
  @LinkController.generate_link TestPlatform.cipher TestPlatform.local_time
    Fixture.controller Fixture.request Fixture.authorization.

Definition validate (code : string) : Prog (result LinkValidationResponse) :=
  @LinkController.validate_link TestPlatform.floats TestPlatform.cipher Fixture.controller code.

Definition prelude : list Event :=
  [EUtcnow Fixture.now; ETimeTime Fixture.unix_now; EUrandom 16 Fixture.iv].

Definition probe (code : string) (n : Z) : Event :=
  EExists (LinkRepository.key_of code) (Reply n).

Definition write (code : string) : Event :=
  ESetex (LinkRepository.key_of code) 3600
    (json_dumps
       (JDict [("encrypted_data", JStr (hex Fixture.blob));
               ("metadata",
                JDict [("encrypted_at", JStr (isoformat Fixture.now));
                       ("expires_at", JStr (isoformat Fixture.expires))])]))
    (Reply tt).

(** No collision: one probe, then the write. *)
Definition run_free : list Event :=
  prelude ++ [probe Fixture.first_code 0; write Fixture.first_code].

(** Two collisions, then a free code. *)
Definition run_two_collisions : list Event :=
  prelude ++ [probe Fixture.first_code 1; probe Fixture.retry_code 1;
              probe Fixture.retry_code 0; write Fixture.retry_code].

(** Five collisions, then a free code. *)
Definition run_five_collisions : list Event :=
  prelude ++ [probe Fixture.first_code 1; probe Fixture.retry_code 1;
              probe Fixture.retry_code 1; probe Fixture.retry_code 1;
              probe Fixture.retry_code 1; probe Fixture.retry_code 0].

(** A record without [expires_at] whose [encrypted_at] is no timestamp. *)
Definition undated : dict :=
  [("data", JDict [("a", JInt 1)]); ("token", JStr "tok");
   ("encrypted_at", JStr "not-a-date")].

(** A record without [expires_at], otherwise as [generate_link] writes
    it. *)
Definition unexpiring : dict :=
  [("data", JDict [("a", JInt 1)]); ("token", JStr "tok");
   ("encrypted_at", JStr "2024-01-15T10:30:00.250000")].

Definition entry (record : json) : bytes :=
  Fixture.stored (Fixture.sealed record) (JDict []).

Definition fetch (code : string) (raw : bytes) : Event :=
  EGet (LinkRepository.key_of code) (Reply (Some raw)).

End Scenario.

(** ** Auxiliary notions used in the statements *)

(** The text that may follow a value inside a JSON document written by
    [json.dumps]: nothing, a comma or a closing bracket. *)
Definition delimited (rest : list ascii) : Prop :=
  match rest with
  | [] => True
  | c :: _ => c = ","%char \/ c = "]"%char \/ c = "}"%char
  end.

(** Depth budget that the scanner needs for a value. *)
Fixpoint need (v : json) : nat :=
  match v with
  | JList l => S (list_sum (List.map (fun x => S (need x)) l))
  | JDict d => S (list_sum (List.map (fun kv => S (need (snd kv))) d))
  | _ => 1%nat
  end.

(** The Authorization header, when there is one, is a [str] that
    [json] writes and reads back. *)
Definition wf_header (authorization : option string) : bool :=
  match authorization with
  | Some header => wf_str header
  | None => true
  end.

(** The answers of [LinkRepository.exists] along a run, in order. *)
Definition reply_truth (r : redis_reply Z) : bool :=
  match r with
  | Reply n => 0 <? n
  | RedisError _ => false
  end.

Definition exists_answers (tr : list Event) : list bool :=
  flat_map (fun e => match e with
                     | EExists _ r => [reply_truth r]
                     | _ => []
                     end) tr.

(** The keys probed along a run, in order. *)
Definition probed_keys (tr : list Event) : list string :=
  flat_map (fun e => match e with
                     | EExists key _ => [key]
                     | _ => []
                     end) tr.

Section Runs.
Context {floats : PyFloat} {cipher : Fernet} {local_time : LocalTime}.

(** The probes of one collision loop: the first code, then the code
    derived again on every retry. *)
Definition probes (first retry : string) (r0 : redis_reply Z)
    (rs : list (redis_reply Z)) : list Event :=
  EExists (LinkRepository.key_of first) r0
  :: List.map (EExists (LinkRepository.key_of retry)) rs.

Definition rederived (encrypted_data : bytes) (now : datetime) : string :=
  HashingService.generate_short_code
    (LinkController.encrypted_data_with_timestamp encrypted_data now)
    HashingService.default_max_length.

Definition record_of (request : LinkGenerateRequest) (token : string)
    (now expires : datetime) : json :=
  JDict [("data", JDict (request_data request));
         ("token", JStr token);
         ("encrypted_at", JStr (isoformat now));
         ("expires_at", JStr (isoformat expires))].

Definition metadata_of (now expires : datetime) : json :=
  JDict [("encrypted_at", JStr (isoformat now));
         ("expires_at", JStr (isoformat expires))].

Definition stored_value (encrypted_data : bytes) (now expires : datetime)
    : string :=
  json_dumps (JDict [("encrypted_data", JStr (hex encrypted_data));
                     ("metadata", metadata_of now expires)]).

Definition unauthorized : exn :=
  HTTPException 401 "Authorization token is required".

Definition exhausted : exn :=
  HTTPException 500 "Failed to generate unique short code".

(** What follows the collision loop, given the number of retries made. *)
Inductive saved_or_not (self : LinkController.t) (now expires : datetime)
    (blob : bytes) (code : string)
    : nat -> list Event -> result LinkGenerateResponse -> Prop :=
| run_exhausted :
    saved_or_not self now expires blob code 5 [] (Raise exhausted)
| run_save_failed n msg :
    (n < 5)%nat ->
    saved_or_not self now expires blob code n
      [ESetex (LinkRepository.key_of code)
         (LinkRepository.expiration_hours (LinkController.repository self) * 3600)
         (stored_value blob now expires) (RedisError msg)]
      (Raise (HTTPException 500
                ("Failed to save link: "
                 ++ exn_str (PyError "Exception"
                               ("Failed to save link data: " ++ msg)))))
| run_saved n u :
    (n < 5)%nat ->
    saved_or_not self now expires blob code n
      [ESetex (LinkRepository.key_of code)
         (LinkRepository.expiration_hours (LinkController.repository self) * 3600)
         (stored_value blob now expires) (Reply u)]
      (Return {| short_code := code; expires_at := expires; created_at := now |}).

(** The runs of [generate_link], one constructor per way out. *)
Inductive generate_run (self : LinkController.t) (request : LinkGenerateRequest)
    (authorization : option string)
    : list Event -> result LinkGenerateResponse -> Prop :=
| run_unauthorized :
    LinkController.missing (LinkController.extract_token authorization) = true ->
    generate_run self request authorization [] (Raise unauthorized)
| run_overflow token now :
    LinkController.extract_token authorization = Some token ->
    token <> EmptyString ->
    valid_datetime now = true ->
    add_hours now (LinkController.expiration_hours self) = None ->
    generate_run self request authorization [EUtcnow now]
      (Raise (PyError "OverflowError" "date value out of range"))
| run_encrypt_failed token now expires t iv e :
    LinkController.extract_token authorization = Some token ->
    token <> EmptyString ->
    valid_datetime now = true ->
    add_hours now (LinkController.expiration_hours self) = Some expires ->
    List.length iv = 16%nat -> 0 <= t < 2 ^ 64 ->
    encrypt_from_parts
      (utf8_encode (json_dumps (record_of request token now expires))) t iv
    = Raise e ->
    generate_run self request authorization
      [EUtcnow now; ETimeTime t; EUrandom 16 iv]
      (Raise (HTTPException 500
                ("Failed to encrypt data: "
                 ++ exn_str (PyError "Exception"
                               ("Failed to encrypt data: " ++ exn_str e)))))
| run_probed token now expires t iv blob r0 rs last code tail r :
    LinkController.extract_token authorization = Some token ->
    token <> EmptyString ->
    valid_datetime now = true ->
    add_hours now (LinkController.expiration_hours self) = Some expires ->
    List.length iv = 16%nat -> 0 <= t < 2 ^ 64 ->
    encrypt_from_parts
      (utf8_encode (json_dumps (record_of request token now expires))) t iv
    = Return blob ->
    List.map reply_truth (r0 :: rs) = repeat true (List.length rs) ++ [last] ->
    (last = true -> List.length rs = 5%nat) ->
    code = match rs with
           | [] => HashingService.generate_short_code blob
                     HashingService.default_max_length
           | _ => rederived blob now
           end ->
    saved_or_not self now expires blob code (List.length rs) tail r ->
    generate_run self request authorization
      (EUtcnow now :: ETimeTime t :: EUrandom 16 iv
       :: probes (HashingService.generate_short_code blob
                    HashingService.default_max_length)
                 (rederived blob now) r0 rs
       ++ tail) r.

End Runs.

(** The last element of a list. *)
Definition last_error {A} (l : list A) : option A :=
  match rev l with
  | x :: _ => Some x
  | [] => None
  end.

(** ** Further notions used in the statements *)

(** The place of a character in an alphabet. *)
Fixpoint index_of (c : ascii) (l : list ascii) : Z :=
  match l with
  | [] => 0
  | x :: r => if Ascii.eqb x c then 0 else 1 + index_of c r
  end.

(** Kinds of calls in a run. *)
Definition is_probe (e : Event) : bool :=
  match e with EExists _ _ => true | _ => false end.

Definition is_write (e : Event) : bool :=
  match e with ESetex _ _ _ _ => true | _ => false end.

(** A reading of [datetime.utcnow()]. *)
Definition is_utcnow (e : Event) : bool :=
  match e with EUtcnow _ => true | _ => false end.

(** A reading of [time.time()], made inside [Fernet.encrypt]. *)
Definition is_time_time (e : Event) : bool :=
  match e with ETimeTime _ => true | _ => false end.

(** A reading of the clock, by either call. *)
Definition is_clock_read (e : Event) : bool :=
  is_utcnow e || is_time_time e.

(** A draw of random bytes, made inside [Fernet.encrypt]. *)
Definition is_urandom (e : Event) : bool :=
  match e with EUrandom _ _ => true | _ => false end.

Definition is_read_or_delete (e : Event) : bool :=
  match e with EGet _ _ | EDelete _ _ => true | _ => false end.

(** A write that the store acknowledged. *)
Definition is_stored (e : Event) : bool :=
  match e with ESetex _ _ _ (Reply _) => true | _ => false end.

Definition count (f : Event -> bool) (tr : list Event) : nat :=
  List.length (List.filter f tr).

(** A probe that was answered "no such entry": by a count of zero or by
    an error of the store. *)
Definition is_free_probe (e : Event) : bool :=
  match e with EExists _ r => negb (reply_truth r) | _ => false end.

Section ValidateRuns.
Context {floats : PyFloat} {cipher : Fernet}.

(** What [LinkRepository.get] makes of the reply to its GET. *)
Definition fetched (reply : redis_reply (option bytes)) : option (bytes * json) :=
  match reply with
  | Reply (Some (b :: data)) => LinkRepository.parse_stored (b :: data)
  | _ => None
  end.

(** The runs of [validate_link], one constructor per way out. *)
Inductive validate_run (code : string)
    : list Event -> result LinkValidationResponse -> Prop :=
| run_not_found reply :
    fetched reply = None ->
    validate_run code [EGet (LinkRepository.key_of code) reply]
      (Return (LinkController.invalid "Link not found or expired"))
| run_corrupted reply blob meta :
    fetched reply = Some (blob, meta) ->
    LinkController.truthy_opt (EncryptionService.decrypt blob) = false ->
    validate_run code [EGet (LinkRepository.key_of code) reply]
      (Return (LinkController.invalid "Link data is corrupted or invalid"))
| run_not_a_record reply blob meta v :
    fetched reply = Some (blob, meta) ->
    EncryptionService.decrypt blob = Some v ->
    truthy v = true ->
    (forall d, v <> JDict d) ->
    validate_run code [EGet (LinkRepository.key_of code) reply]
      (Raise (PyError "AttributeError" "object has no attribute get"))
| run_undated reply blob meta record :
    fetched reply = Some (blob, meta) ->
    EncryptionService.decrypt blob = Some (JDict record) ->
    record <> [] ->
    LinkController.truthy_opt (dict_get "expires_at" record) = false ->
    validate_run code [EGet (LinkRepository.key_of code) reply]
      (LinkController.valid_response record)
| run_bad_expiry reply blob meta record e :
    fetched reply = Some (blob, meta) ->
    EncryptionService.decrypt blob = Some (JDict record) ->
    record <> [] ->
    LinkController.truthy_opt (dict_get "expires_at" record) = true ->
    LinkController.fromisoformat_value (dict_get "expires_at" record) = Raise e ->
    validate_run code [EGet (LinkRepository.key_of code) reply] (Raise e)
| run_dated reply blob meta record expires now :
    fetched reply = Some (blob, meta) ->
    EncryptionService.decrypt blob = Some (JDict record) ->
    record <> [] ->
    LinkController.truthy_opt (dict_get "expires_at" record) = true ->
    LinkController.fromisoformat_value (dict_get "expires_at" record)
    = Return expires ->
    valid_datetime now = true ->
    validate_run code [EGet (LinkRepository.key_of code) reply; EUtcnow now]
      (if datetime_gtb now expires
       then Return (LinkController.invalid "Link has expired")
       else LinkController.valid_response record).

End ValidateRuns.

(** [a - b] for two naive datetimes, in microseconds ([datetime.__sub__]
    takes the difference of the ordinals, of the seconds of the day and of
    the microseconds). *)
Definition datetime_sub (a b : datetime) : Z :=
  ((toordinal a - toordinal b) * 86400
   + ((hour a * 3600 + minute a * 60 + second a)
      - (hour b * 3600 + minute b * 60 + second b))) * 1000000
  + (microsecond a - microsecond b).

(** Whether the store holds an entry for a code, and the store after a
    write. *)
Definition occupied (w : World) (code : string) : bool :=
  match store w !! LinkRepository.key_of code with
  | Some _ => true
  | None => false
  end.

Definition with_entry (w : World) (key : string) (seconds : Z) (value : string)
    : World :=
  {| clock := clock w; unix_time := unix_time w; entropy := entropy w;
     store := <[key := (seconds, utf8_encode value)]> (store w) |}.

(** The calls that only read, with the answers a store in state [w]
    gives to them. *)
Definition answered_by (w : World) (e : Event) : Prop :=
  match e with
  | EUtcnow now => now = clock w
  | EGet key r => r = Reply (snd <$> store w !! key)
  | EExists key r =>
      r = Reply (match store w !! key with Some _ => 1 | None => 0 end)
  | _ => False
  end.

(** Further runs and entries on the test platform. *)
Module Outage.

(** The store fails on the existence probe, then accepts the write. *)
Definition run_probe_error : list Event :=
  Scenario.prelude
  ++ [EExists (LinkRepository.key_of Fixture.first_code)
        (RedisError "Connection refused");
      Scenario.write Fixture.first_code].

(** The entry of the link made by [Scenario.run_free], as Redis holds it. *)
Definition live_entry : bytes :=
  Fixture.stored Fixture.blob
    (JDict [("encrypted_at", JStr (isoformat Fixture.now));
            ("expires_at", JStr (isoformat Fixture.expires))]).


Definition next_day : datetime := Datetime 2024 1 16 0 0 0 0.

(** A store in which the first code of the fixture is already taken. *)
Definition crowded : World :=
  with_entry Fixture.world (LinkRepository.key_of Fixture.first_code) 3600
    "taken".

End Outage.
(** * Properties *)

(** ** SHA-256 on the test vectors of FIPS 180-4 *)

Example sha256_empty :
  hex (SHA256.digest [])
  = "e3b0c44298fc1c149afbf4c8996fb92427ae41e4649b934ca495991b7852b855".
Proof. vm_compute. reflexivity. Qed.

Example sha256_abc :
  hex (SHA256.digest ["a"; "b"; "c"]%byte)
  = "ba7816bf8f01cfea414140de5dae2223b00361a396177a9cb410ff61f20015ad".
Proof. vm_compute. reflexivity. Qed.

Example sha256_two_blocks :
  hex (SHA256.digest
         (List.map (fun c => Z_to_byte (ord c))
            (chars "abcdbcdecdefdefgefghfghighijhijkijkljklmklmnlmnomnopnopq")))
  = "248d6a61d20638b8e5c026930c3e6039a33ce45964ff2167f6ecedd419db06c1".
Proof. vm_compute. reflexivity. Qed.

(** ** Strings and slices *)

Lemma chars_str (l : list ascii) : chars (str l) = l.
Proof. apply list_ascii_of_string_of_list_ascii. Qed.

Lemma str_chars (s : string) : str (chars s) = s.
Proof. apply string_of_list_ascii_of_string. Qed.

Lemma length_str (l : list ascii) : String.length (str l) = List.length l.
Proof. induction l as [|c l IH]; simpl; [reflexivity | now rewrite IH]. Qed.

Lemma slice_to_nonneg {A} (n : nat) (l : list A) :
  slice_to (Z.of_nat n) l = firstn n l.
Proof.
  unfold slice_to.
  destruct (Z.leb_spec 0 (Z.of_nat n)); [now rewrite Nat2Z.id | lia].
Qed.

Lemma In_firstn {A} (n : nat) (l : list A) (x : A) :
  List.In x (firstn n l) -> List.In x l.
Proof.
  intros H. rewrite <- (List.firstn_skipn n l). apply List.in_or_app. now left.
Qed.

Lemma last_error_app_singleton {A} (l : list A) (x : A) :
  last_error (l ++ [x]) = Some x.
Proof. unfold last_error. now rewrite List.rev_app_distr. Qed.

Lemma last_error_repeat {A} (a b : A) (n : nat) :
  last_error (a :: repeat b (S n)) = Some b.
Proof.
  cbn [repeat]. rewrite List.repeat_cons.
  apply (last_error_app_singleton (a :: repeat b n) b).
Qed.

Lemma rstrip_pad (c : ascii) (l : list ascii) (k : nat) :
  Forall (fun x => x <> c) l -> rstrip c (l ++ repeat c k) = l.
Proof.
  intros Hl. induction Hl as [|x l Hx Hl IH]; simpl.
  - induction k as [|k IHk]; simpl; [reflexivity|].
    rewrite IHk. now rewrite Ascii.eqb_refl.
  - rewrite IH. destruct l as [|y l']; [|reflexivity].
    destruct (Ascii.eqb x c) eqn:E; [|reflexivity].
    apply Ascii.eqb_eq in E. contradiction.
Qed.

(** ** Base64 *)

(** Induction over a byte string three bytes at a time, as the encoder
    consumes it. *)
Lemma triples_ind {A} (P : list A -> Prop) :
  P [] -> (forall a, P [a]) -> (forall a b, P [a; b]) ->
  (forall a b c r, P r -> P (a :: b :: c :: r)) ->
  forall l, P l.
Proof.
  intros H0 H1 H2 H3. fix IH 1.
  intros [|a [|b [|c r]]]; [apply H0 | apply H1 | apply H2 | apply H3, IH].
Qed.

Lemma sextet_cases (P : Z -> Prop) :
  Forall P (List.map Z.of_nat (seq 0 64)) -> forall i, 0 <= i < 64 -> P i.
Proof.
  intros HP i Hi. rewrite List.Forall_forall in HP. apply HP.
  apply in_map_iff. exists (Z.to_nat i). split; [lia|].
  apply in_seq. lia.
Qed.

Lemma urlsafe_translate_b64_char (i : Z) :
  0 <= i < 64 -> urlsafe_translate (b64_char i) = urlsafe_char i.
Proof. revert i. apply sextet_cases. repeat constructor. Qed.

Lemma urlsafe_char_not_pad (i : Z) : 0 <= i < 64 -> urlsafe_char i <> "="%char.
Proof. revert i. apply sextet_cases. repeat (constructor; [discriminate|]). constructor. Qed.

Lemma urlsafe_char_is_urlsafe (i : Z) : 0 <= i < 64 -> is_urlsafe (urlsafe_char i) = true.
Proof. revert i. apply sextet_cases. repeat constructor. Qed.

Lemma mod64_range (n : Z) : 0 <= n mod 64 < 64.
Proof. apply Z.mod_pos_bound. lia. Qed.

(** The padded encoding is the unpadded one followed by the padding. *)
Lemma urlsafe_b64encode_nopad (bs : bytes) :
  exists k, urlsafe_b64encode bs = b64url_nopad bs ++ repeat "="%char k.
Proof.
  unfold urlsafe_b64encode.
  induction bs as [|b0|b0 b1|b0 b1 b2 r IH] using triples_ind.
  - exists 0%nat. reflexivity.
  - exists 2%nat. cbn [b64encode b64url_nopad List.map app repeat].
    now rewrite !urlsafe_translate_b64_char by apply mod64_range.
  - exists 1%nat. cbn [b64encode b64url_nopad List.map app repeat].
    now rewrite !urlsafe_translate_b64_char by apply mod64_range.
  - destruct IH as [k Hk].
    exists k. cbn [b64encode b64url_nopad List.map app].
    rewrite !urlsafe_translate_b64_char by apply mod64_range.
    now rewrite Hk.
Qed.

Lemma b64url_nopad_chars (bs : bytes) :
  Forall (fun c => c <> "="%char /\ is_urlsafe c = true) (b64url_nopad bs).
Proof.
  assert (Hc : forall n, urlsafe_char (n mod 64) <> "="%char
                         /\ is_urlsafe (urlsafe_char (n mod 64)) = true).
  { intros n. split; [apply urlsafe_char_not_pad | apply urlsafe_char_is_urlsafe];
      apply mod64_range. }
  induction bs as [|b0|b0 b1|b0 b1 b2 r IH] using triples_ind; cbn [b64url_nopad].
  - constructor.
  - repeat (constructor; [apply Hc|]). constructor.
  - repeat (constructor; [apply Hc|]). constructor.
  - repeat (constructor; [apply Hc|]). apply IH.
Qed.

Lemma rstrip_urlsafe_b64encode (bs : bytes) :
  rstrip "=" (urlsafe_b64encode bs) = b64url_nopad bs.
Proof.
  destruct (urlsafe_b64encode_nopad bs) as [k ->].
  apply rstrip_pad.
  eapply List.Forall_impl; [|apply b64url_nopad_chars]. now intros c [Hc _].
Qed.

Lemma sha256_digest_length (msg : bytes) : List.length (SHA256.digest msg) = 32%nat.
Proof. reflexivity. Qed.

(** Padding and stripping cancel: the code is the unpadded encoding. *)
Lemma generate_short_code_derive_spec (b : bytes) :
  HashingService.generate_short_code b 8 = derive_spec b.
Proof.
  unfold HashingService.generate_short_code, derive_spec.
  change 8 with (Z.of_nat 8).
  now rewrite !slice_to_nonneg, rstrip_urlsafe_b64encode.
Qed.
(** ** Characters *)

Lemma chr_ord (c : ascii) : chr (ord c) = c.
Proof. unfold chr, ord. rewrite N2Z.id. apply ascii_N_embedding. Qed.

Lemma ord_range (c : ascii) : 0 <= ord c < 256.
Proof.
  unfold ord. pose proof (N_ascii_bounded c) as H. lia.
Qed.

Lemma ord_chr (n : Z) : 0 <= n < 256 -> ord (chr n) = n.
Proof.
  intros H. unfold ord, chr. rewrite N_ascii_embedding by lia. lia.
Qed.

Lemma byte_of_char (c : ascii) : chr (byte_to_Z (Z_to_byte (ord c))) = c.
Proof. destruct c as [[] [] [] [] [] [] [] []]; reflexivity. Qed.

(** ** UTF-8 *)

Lemma code_points_ascii (l : list ascii) :
  is_ascii_text l -> code_points l = Some (List.map ord l).
Proof.
  induction 1 as [|c l Hc _ IH]; [reflexivity|].
  cbn [code_points List.map].
  destruct (Z.ltb_spec (ord c) 128); [|lia]. now rewrite IH.
Qed.

Lemma no_surrogate_ascii (l : list ascii) :
  is_ascii_text l -> existsb is_surrogate (List.map ord l) = false.
Proof.
  induction 1 as [|c l Hc _ IH]; [reflexivity|].
  cbn [List.map existsb]. rewrite IH.
  unfold is_surrogate, is_high_surrogate, is_low_surrogate.
  destruct (Z.leb_spec 55296 (ord c)); [lia|].
  destruct (Z.leb_spec 56320 (ord c)); [lia|]. reflexivity.
Qed.

(** Encoding an ASCII text and decoding it gives the text back. *)
Lemma utf8_decode_encode (s : string) :
  is_ascii_text (chars s) -> utf8_decode (utf8_encode s) = Some s.
Proof.
  intros Hs. unfold utf8_decode, utf8_encode.
  rewrite List.map_map.
  rewrite (List.map_ext _ (fun c => c) byte_of_char), List.map_id.
  rewrite (code_points_ascii _ Hs), (no_surrogate_ascii _ Hs).
  now rewrite str_chars.
Qed.

Lemma is_continuation_range (c : ascii) :
  is_continuation c = true -> 128 <= ord c < 192.
Proof. unfold is_continuation. lia. Qed.

(** A text that [code_points] reads is the encoding of what it reads. *)
Lemma code_points_sound (k : nat) :
  forall (s : list ascii) (cps : list Z),
    (List.length s <= k)%nat -> code_points s = Some cps ->
    s = flat_map code_point_chars cps /\ List.Forall is_code_point cps.
Proof.
  induction k as [|k IH]; intros s cps Hk Hs.
  - destruct s; [|cbn in Hk; lia]. injection Hs as <-. now split.
  - destruct s as [|c1 r1]; [injection Hs as <-; now split|].
    cbn [code_points] in Hs. cbn [List.length] in Hk.
    pose proof (ord_range c1) as R1.
    assert (Hstep : forall n r tail,
               (List.length r <= k)%nat ->
               option_map (cons n) (code_points r) = Some cps ->
               is_code_point n ->
               c1 :: r1 = code_point_chars n ++ tail -> tail = r ->
               c1 :: r1 = flat_map code_point_chars cps
               /\ List.Forall is_code_point cps).
    { intros n r tail Hr Hopt Hn Heq ->.
      destruct (code_points r) as [cps'|] eqn:E; [|discriminate Hopt].
      injection Hopt as <-. destruct (IH r cps' Hr E) as [-> Hall].
      split; [exact Heq | now constructor]. }
    destruct (Z.ltb_spec (ord c1) 128) as [H1|H1].
    { apply (Hstep (ord c1) r1 r1); try assumption; try lia.
      - unfold is_code_point. lia.
      - unfold code_point_chars.
        destruct (Z.ltb_spec (ord c1) 128); [|lia]. now rewrite chr_ord.
      - reflexivity. }
    destruct (Z.ltb_spec (ord c1) 224) as [H2|H2].
    { destruct r1 as [|c2 r2]; [discriminate Hs|].
      destruct (is_continuation c2) eqn:C2; [|discriminate Hs].
      apply is_continuation_range in C2.
      set (n := (ord c1 - 192) * 64 + (ord c2 - 128)) in *.
      destruct (Z.leb_spec 128 n) as [Hn|Hn]; [|discriminate Hs].
      cbn [andb] in Hs. cbn [List.length] in Hk.
      apply (Hstep n r2 r2); try assumption; try lia.
      - unfold is_code_point. subst n. lia.
      - unfold code_point_chars.
        destruct (Z.ltb_spec n 128); [lia|].
        destruct (Z.ltb_spec n 2048); [|subst n; lia].
        assert (E1 : 192 + n / 64 = ord c1)
          by (subst n; clear - C2; Z.div_mod_to_equations; lia).
        assert (E2 : 128 + n mod 64 = ord c2)
          by (subst n; clear - C2; Z.div_mod_to_equations; lia).
        now rewrite E1, E2, !chr_ord.
      - reflexivity. }
    destruct (Z.ltb_spec (ord c1) 240) as [H3|H3].
    { destruct r1 as [|c2 [|c3 r3]]; try discriminate Hs.
      destruct (is_continuation c2) eqn:C2; [|discriminate Hs].
      destruct (is_continuation c3) eqn:C3; [|discriminate Hs].
      apply is_continuation_range in C2, C3.
      set (n := ((ord c1 - 224) * 64 + (ord c2 - 128)) * 64 + (ord c3 - 128)) in *.
      destruct (Z.leb_spec 2048 n) as [Hn|Hn]; [|discriminate Hs].
      cbn [andb] in Hs. cbn [List.length] in Hk.
      apply (Hstep n r3 r3); try assumption; try lia.
      - unfold is_code_point. subst n. lia.
      - unfold code_point_chars.
        destruct (Z.ltb_spec n 128); [lia|].
        destruct (Z.ltb_spec n 2048); [lia|].
        destruct (Z.ltb_spec n 65536); [|subst n; lia].
        assert (E1 : 224 + n / 4096 = ord c1)
          by (subst n; clear - C2 C3; Z.div_mod_to_equations; lia).
        assert (E2 : 128 + n / 64 mod 64 = ord c2)
          by (subst n; clear - C2 C3; Z.div_mod_to_equations; lia).
        assert (E3 : 128 + n mod 64 = ord c3)
          by (subst n; clear - C2 C3; Z.div_mod_to_equations; lia).
        now rewrite E1, E2, E3, !chr_ord.
      - reflexivity. }
    destruct r1 as [|c2 [|c3 [|c4 r4]]]; try discriminate Hs.
    destruct (is_continuation c2) eqn:C2; [|discriminate Hs].
    destruct (is_continuation c3) eqn:C3; [|discriminate Hs].
    destruct (is_continuation c4) eqn:C4; [|discriminate Hs].
    apply is_continuation_range in C2, C3, C4.
    set (n := (((ord c1 - 240) * 64 + (ord c2 - 128)) * 64
               + (ord c3 - 128)) * 64 + (ord c4 - 128)) in *.
    destruct (Z.leb_spec 65536 n) as [Hn|Hn]; [|discriminate Hs].
    destruct (Z.leb_spec n 1114111) as [Hm|Hm]; [|discriminate Hs].
    cbn [andb] in Hs. cbn [List.length] in Hk.
    apply (Hstep n r4 r4); try assumption; try lia.
    + unfold is_code_point. lia.
    + unfold code_point_chars.
      destruct (Z.ltb_spec n 128); [lia|].
      destruct (Z.ltb_spec n 2048); [lia|].
      destruct (Z.ltb_spec n 65536); [lia|].
      assert (E1 : 240 + n / 262144 = ord c1)
        by (subst n; clear - C2 C3 C4; Z.div_mod_to_equations; lia).
      assert (E2 : 128 + n / 4096 mod 64 = ord c2)
        by (subst n; clear - C2 C3 C4; Z.div_mod_to_equations; lia).
      assert (E3 : 128 + n / 64 mod 64 = ord c3)
        by (subst n; clear - C2 C3 C4; Z.div_mod_to_equations; lia).
      assert (E4 : 128 + n mod 64 = ord c4)
        by (subst n; clear - C2 C3 C4; Z.div_mod_to_equations; lia).
      now rewrite E1, E2, E3, E4, !chr_ord.
    + reflexivity.
Qed.
(** ** JSON: [json.loads] inverts [json.dumps] *)

Lemma json_ind (P : json -> Prop) :
  P JNull -> (forall b, P (JBool b)) -> (forall n, P (JInt n)) ->
  (forall x, P (JFloat x)) -> (forall s, P (JStr s)) ->
  (forall l, List.Forall P l -> P (JList l)) ->
  (forall d, List.Forall (fun kv => P (snd kv)) d -> P (JDict d)) ->
  forall v, P v.
Proof.
  intros Hnull Hbool Hint Hfloat Hstr Hlist Hdict. fix IH 1.
  intros [| b | n | x | s | l | d].
  - apply Hnull.
  - apply Hbool.
  - apply Hint.
  - apply Hfloat.
  - apply Hstr.
  - apply Hlist. induction l as [|x l IHl]; constructor; [apply IH | apply IHl].
  - apply Hdict. induction d as [|[k x] d IHd]; constructor; [apply IH | apply IHd].
Qed.

(** *** Strings *)

Lemma hex_value_hex_digit (d : Z) :
  0 <= d < 16 -> hex_value (hex_digit d) = Some d.
Proof.
  intros H.
  assert (C : d = 0 \/ d = 1 \/ d = 2 \/ d = 3 \/ d = 4 \/ d = 5 \/ d = 6
              \/ d = 7 \/ d = 8 \/ d = 9 \/ d = 10 \/ d = 11 \/ d = 12
              \/ d = 13 \/ d = 14 \/ d = 15) by lia.
  repeat (destruct C as [-> | C]; [reflexivity|]). subst d. reflexivity.
Qed.

Lemma hex4_hex4_chars (n : Z) (rest : list ascii) :
  0 <= n < 65536 ->
  exists h1 h2 h3 h4,
    hex4_chars n = [h1; h2; h3; h4] /\ hex4 h1 h2 h3 h4 = Some n.
Proof.
  intros H. unfold hex4_chars. eexists _, _, _, _. split; [reflexivity|].
  unfold hex4.
  rewrite !hex_value_hex_digit by (clear - H; Z.div_mod_to_equations; lia).
  f_equal. clear - H. Z.div_mod_to_equations. lia.
Qed.

Lemma scan_string_u (h1 h2 h3 h4 : ascii) (r : list ascii) :
  scan_string (backslash :: "u"%char :: h1 :: h2 :: h3 :: h4 :: r)
  = match hex4 h1 h2 h3 h4 with
    | Some n =>
        if is_high_surrogate n then
          match low_escape r with
          | Joined m =>
              match r with
              | _ :: _ :: _ :: _ :: _ :: _ :: t =>
                  prepend (code_point_chars (join_surrogates n m)) (scan_string t)
              | _ => None
              end
          | Malformed => None
          | Apart => prepend (code_point_chars n) (scan_string r)
          end
        else prepend (code_point_chars n) (scan_string r)
    | None => None
    end.
Proof. reflexivity. Qed.

Lemma low_escape_head (b : ascii) (s : list ascii) :
  Ascii.eqb b backslash = false -> low_escape (b :: s) = Apart.
Proof.
  intros H. destruct s as [|? [|? [|? [|? [|? s]]]]]; cbn; try reflexivity.
  now rewrite H.
Qed.

Lemma low_escape_second (u : ascii) (s : list ascii) :
  Ascii.eqb u "u" = false -> low_escape (backslash :: u :: s) = Apart.
Proof.
  intros H. destruct s as [|? [|? [|? [|? s]]]]; cbn; try reflexivity.
  now rewrite H.
Qed.

Lemma low_escape_u (g1 g2 g3 g4 : ascii) (t : list ascii) :
  low_escape (backslash :: "u"%char :: g1 :: g2 :: g3 :: g4 :: t)
  = match hex4 g1 g2 g3 g4 with
    | Some m => if is_low_surrogate m then Joined m else Apart
    | None => Malformed
    end.
Proof. reflexivity. Qed.

(** The escape of a character below 256. *)
Lemma scan_string_escape_small (c : ascii) (rest : list ascii) :
  scan_string (escape_code_point (ord c) ++ rest)
  = prepend (code_point_chars (ord c)) (scan_string rest).
Proof. destruct c as [[] [] [] [] [] [] [] []]; reflexivity. Qed.

Lemma low_escape_small (c : ascii) (rest : list ascii) :
  low_escape (escape_code_point (ord c) ++ rest) = Apart.
Proof.
  destruct c as [[] [] [] [] [] [] [] []];
    first [ apply low_escape_head; reflexivity
          | apply low_escape_second; reflexivity
          | reflexivity ].
Qed.

Lemma escape_code_point_large (n : Z) :
  256 <= n ->
  escape_code_point n
  = if n <? 65536 then chars "\u" ++ hex4_chars n
    else chars "\u" ++ hex4_chars (55296 + (n - 65536) / 1024)
         ++ chars "\u" ++ hex4_chars (56320 + (n - 65536) mod 1024).
Proof.
  intros H. unfold escape_code_point.
  repeat match goal with
         | |- context [?a =? ?b] => destruct (Z.eqb_spec a b); [lia|]
         end.
  destruct (Z.leb_spec n 126); [lia|]. now rewrite andb_false_r.
Qed.

Lemma surrogate_halves (n : Z) :
  65536 <= n <= 1114111 ->
  let high := 55296 + (n - 65536) / 1024 in
  let low := 56320 + (n - 65536) mod 1024 in
  0 <= high < 65536 /\ 0 <= low < 65536
  /\ is_high_surrogate high = true /\ is_low_surrogate high = false
  /\ is_low_surrogate low = true /\ join_surrogates high low = n.
Proof.
  intros H high low.
  assert (Hh : 55296 <= high <= 56319)
    by (subst high; clear - H; Z.div_mod_to_equations; lia).
  assert (Hl : 56320 <= low <= 57343)
    by (subst low; clear - H; Z.div_mod_to_equations; lia).
  unfold is_high_surrogate, is_low_surrogate, join_surrogates.
  repeat split; try lia.
  subst high low. clear - H. Z.div_mod_to_equations. lia.
Qed.

(** The scanner reads the escape of a code point back, unless the code
    point is a high surrogate and the escape of a low one follows. *)
Lemma scan_string_escape (n : Z) (rest : list ascii) :
  is_code_point n ->
  (is_high_surrogate n = true -> low_escape rest = Apart) ->
  scan_string (escape_code_point n ++ rest)
  = prepend (code_point_chars n) (scan_string rest).
Proof.
  intros Hn Hrest. unfold is_code_point in Hn.
  destruct (Z.ltb_spec n 256) as [Hs|Hs].
  { rewrite <- (ord_chr n) by lia. apply scan_string_escape_small. }
  rewrite escape_code_point_large by assumption.
  destruct (Z.ltb_spec n 65536) as [Hb|Hb].
  - destruct (hex4_hex4_chars n rest) as (h1 & h2 & h3 & h4 & -> & Hx); [lia|].
    change (scan_string (backslash :: "u"%char :: h1 :: h2 :: h3 :: h4 :: rest)
            = prepend (code_point_chars n) (scan_string rest)).
    rewrite scan_string_u, Hx.
    destruct (is_high_surrogate n); [now rewrite Hrest | reflexivity].
  - destruct (surrogate_halves n ltac:(lia)) as (Hh & Hl & Hhi & _ & Hlo & Hj).
    destruct (hex4_hex4_chars _ rest Hh) as (h1 & h2 & h3 & h4 & -> & Hx).
    destruct (hex4_hex4_chars _ rest Hl) as (g1 & g2 & g3 & g4 & -> & Hy).
    change (scan_string (backslash :: "u"%char :: h1 :: h2 :: h3 :: h4
                         :: backslash :: "u"%char :: g1 :: g2 :: g3 :: g4 :: rest)
            = prepend (code_point_chars n) (scan_string rest)).
    rewrite scan_string_u, Hx, Hhi, low_escape_u, Hy, Hlo. now rewrite Hj.
Qed.

(** The escape of a code point that is no low surrogate does not join the
    escape of a high surrogate before it. *)
Lemma low_escape_escape (n : Z) (rest : list ascii) :
  is_code_point n -> is_low_surrogate n = false ->
  low_escape (escape_code_point n ++ rest) = Apart.
Proof.
  intros Hn Hlow. unfold is_code_point in Hn.
  destruct (Z.ltb_spec n 256) as [Hs|Hs].
  { rewrite <- (ord_chr n) by lia. apply low_escape_small. }
  rewrite escape_code_point_large by assumption.
  destruct (Z.ltb_spec n 65536) as [Hb|Hb].
  - destruct (hex4_hex4_chars n rest) as (h1 & h2 & h3 & h4 & -> & Hx); [lia|].
    change (low_escape (backslash :: "u"%char :: h1 :: h2 :: h3 :: h4 :: rest)
            = Apart).
    now rewrite low_escape_u, Hx, Hlow.
  - destruct (surrogate_halves n ltac:(lia)) as (Hh & _ & _ & Hnl & _).
    destruct (hex4_hex4_chars _ rest Hh) as (h1 & h2 & h3 & h4 & -> & Hx).
    change (chars "\u") with [backslash; "u"%char]. cbn [app].
    now rewrite low_escape_u, Hx, Hnl.
Qed.

Lemma scan_string_escaped (cps : list Z) (rest : list ascii) :
  List.Forall is_code_point cps -> apart cps = true ->
  scan_string (flat_map escape_code_point cps ++ dquote :: rest)
  = Some (flat_map code_point_chars cps, rest).
Proof.
  induction 1 as [|n cps Hn Hall IH]; intros Hap; [reflexivity|].
  cbn [flat_map]. rewrite <- app_assoc.
  rewrite scan_string_escape; [| assumption |].
  - rewrite IH; [now rewrite app_nil_r || reflexivity|].
    destruct cps as [|m cps]; [reflexivity|].
    cbn [apart] in Hap. now apply andb_true_iff in Hap as [_ Hap].
  - intros Hhigh. destruct cps as [|m cps].
    + apply low_escape_head. reflexivity.
    + cbn [flat_map]. rewrite <- app_assoc. apply low_escape_escape.
      * now inversion Hall.
      * cbn [apart] in Hap. apply andb_true_iff in Hap as [Hap _].
        rewrite Hhigh in Hap. cbn in Hap. now destruct (is_low_surrogate m).
Qed.

Lemma wf_str_code_points (s : string) :
  wf_str s = true ->
  exists cps, code_points_of s = cps /\ chars s = flat_map code_point_chars cps
              /\ List.Forall is_code_point cps /\ apart cps = true.
Proof.
  unfold wf_str, code_points_of.
  destruct (code_points (chars s)) as [cps|] eqn:E; [|discriminate].
  intros Hap. exists cps.
  destruct (code_points_sound _ _ _ (le_n _) E) as [Hs Hall]. now repeat split.
Qed.

Lemma scan_string_quote (s : string) (rest : list ascii) :
  wf_str s = true ->
  exists body, quote s ++ rest = dquote :: body
               /\ scan_string body = Some (chars s, rest).
Proof.
  intros Hs. destruct (wf_str_code_points s Hs) as (cps & Hc & Hchars & Hall & Hap).
  exists (flat_map escape_code_point cps ++ dquote :: rest). split.
  - unfold quote. rewrite Hc. cbn [app]. now rewrite <- app_assoc.
  - rewrite Hchars. now apply scan_string_escaped.
Qed.
Section LoadsProps.
Context {floats : PyFloat}.

(** *** Integers *)

Lemma delimited_not_digit (rest : list ascii) :
  delimited rest ->
  match rest with [] => True | c :: _ => is_digit c = false end.
Proof. destruct rest as [|c r]; [trivial|]. now intros [-> | [-> | ->]]. Qed.

Lemma read_digits_uint (u : Decimal.uint) (rest : list ascii) :
  match rest with [] => True | c :: _ => is_digit c = false end ->
  read_digits (uint_chars u ++ rest) = (u, rest).
Proof.
  intros Hrest.
  induction u as [|u IH|u IH|u IH|u IH|u IH|u IH|u IH|u IH|u IH|u IH];
    cbn [uint_chars app];
    try (change (read_digits (?c :: ?l)) with
           (if is_digit c then let '(u, r') := read_digits l in (cons_digit c u, r')
            else (Decimal.Nil, c :: l));
         rewrite IH; reflexivity).
  destruct rest as [|c r]; [reflexivity|]. cbn. now rewrite Hrest.
Qed.

Lemma to_uint_head (p : positive) :
  exists c l, uint_chars (Pos.to_uint p) = c :: l
              /\ is_digit c = true /\ Ascii.eqb c "0" = false
              /\ Ascii.eqb c "-" = false.
Proof.
  pose proof (DecimalPos.Unsigned.to_uint_nonzero p) as Hz.
  pose proof (DecimalPos.Unsigned.to_of (Pos.to_uint p)) as Hn.
  rewrite DecimalPos.Unsigned.of_to in Hn. cbn [N.to_uint] in Hn.
  destruct (Pos.to_uint p) as [|u|u|u|u|u|u|u|u|u|u] eqn:E;
    try (eexists _, _; repeat split; reflexivity).
  - now destruct (DecimalPos.Unsigned.to_uint_nonnil p).
  - exfalso. rewrite DecimalFacts.unorm_D0 in Hn.
    destruct u as [|u|u|u|u|u|u|u|u|u|u]; [now apply Hz | ..];
      match type of Hn with
      | _ = Decimal.unorm ?d =>
          assert (Hd : d <> Decimal.Nil) by discriminate;
          pose proof (DecimalFacts.nb_digits_unorm d Hd) as Hl;
          rewrite <- Hn in Hl; cbn in Hl; lia
      end.
Qed.

Lemma scan_int_int_chars (n : Z) (rest : list ascii) :
  delimited rest -> scan_int (int_chars n ++ rest) = Some (n, rest).
Proof.
  intros Hrest. apply delimited_not_digit in Hrest.
  pose proof (DecimalZ.of_to n) as Hn.
  unfold int_chars. destruct n as [|p|p]; cbn [Z.to_int] in *.
  - reflexivity.
  - destruct (to_uint_head p) as (c & l & E & Hd & H0 & Hm).
    unfold scan_int. rewrite E. cbn [app]. rewrite Hm, H0, Hd.
    change (c :: l ++ rest) with ((c :: l) ++ rest). rewrite <- E.
    rewrite read_digits_uint by assumption. now rewrite Hn.
  - destruct (to_uint_head p) as (c & l & E & Hd & H0 & Hm).
    unfold scan_int. cbn [app]. rewrite E. cbn [app Ascii.eqb Bool.eqb].
    rewrite H0, Hd.
    change (c :: l ++ rest) with ((c :: l) ++ rest). rewrite <- E.
    rewrite read_digits_uint by assumption. now rewrite Hn.
Qed.

Lemma delimited_cases (rest : list ascii) :
  delimited rest ->
  match rest with
  | [] => True
  | c :: _ =>
      is_digit c = false /\ Ascii.eqb c "." = false
      /\ Ascii.eqb c "e" = false /\ Ascii.eqb c "E" = false
      /\ Ascii.eqb c "+" = false /\ Ascii.eqb c "-" = false
  end.
Proof.
  destruct rest as [|c r]; [trivial|].
  now intros [-> | [-> | ->]].
Qed.

Lemma span_digits_app (l rest : list ascii) :
  delimited rest ->
  span_digits (l ++ rest) = (fst (span_digits l), snd (span_digits l) ++ rest).
Proof.
  intros Hrest. induction l as [|c l IH]; cbn [app span_digits].
  - apply delimited_cases in Hrest. destruct rest as [|c r]; [reflexivity|].
    cbn [span_digits]. now destruct Hrest as (-> & _).
  - destruct (is_digit c); [|reflexivity].
    rewrite IH. now destruct (span_digits l).
Qed.

Lemma read_digits_app (l rest : list ascii) :
  delimited rest ->
  read_digits (l ++ rest) = (fst (read_digits l), snd (read_digits l) ++ rest).
Proof.
  intros Hrest. induction l as [|c l IH]; cbn [app read_digits].
  - apply delimited_cases in Hrest. destruct rest as [|c r]; [reflexivity|].
    cbn [read_digits]. now destruct Hrest as (-> & _).
  - destruct (is_digit c); [|reflexivity].
    rewrite IH. now destruct (read_digits l).
Qed.

Lemma scan_int_app (l rest : list ascii) (n : Z) (r : list ascii) :
  delimited rest -> scan_int l = Some (n, r) ->
  scan_int (l ++ rest) = Some (n, r ++ rest).
Proof.
  intros Hrest. unfold scan_int.
  assert (Hbody : forall negative l1,
    match l1 with
    | c :: r0 =>
        if Ascii.eqb c "0" then Some (0, r0)
        else if is_digit c then
          let '(u, r') := read_digits l1 in
          Some (Z.of_int (if negative : bool then Decimal.Neg u else Decimal.Pos u), r')
        else None
    | [] => None
    end = Some (n, r) ->
    match l1 ++ rest with
    | c :: r0 =>
        if Ascii.eqb c "0" then Some (0, r0)
        else if is_digit c then
          let '(u, r') := read_digits (l1 ++ rest) in
          Some (Z.of_int (if negative then Decimal.Neg u else Decimal.Pos u), r')
        else None
    | [] => None
    end = Some (n, r ++ rest)).
  { intros negative [|c l1]; [discriminate|]. cbn [app].
    destruct (Ascii.eqb c "0"); [now intros [= <- <-]|].
    destruct (is_digit c); [|discriminate].
    change (c :: l1 ++ rest) with ((c :: l1) ++ rest).
    rewrite read_digits_app by assumption.
    destruct (read_digits (c :: l1)) as [u r']. cbn [fst snd].
    now intros [= <- <-]. }
  destruct l as [|c l]; [discriminate|]. cbn [app].
  destruct (Ascii.eqb c "-").
  - exact (Hbody true l).
  - exact (Hbody false (c :: l)).
Qed.

Lemma scan_fraction_app (l rest : list ascii) :
  delimited rest ->
  scan_fraction (l ++ rest)
  = (fst (scan_fraction l), snd (scan_fraction l) ++ rest).
Proof.
  intros Hrest. destruct l as [|c l]; cbn [app scan_fraction].
  - apply delimited_cases in Hrest. destruct rest as [|c r]; [reflexivity|].
    cbn [scan_fraction]. now destruct Hrest as (_ & -> & _).
  - destruct (Ascii.eqb c "."); [|reflexivity].
    rewrite span_digits_app by assumption.
    now destruct (span_digits l) as [[|d ds] t].
Qed.

Lemma scan_exponent_app (l rest : list ascii) :
  delimited rest ->
  scan_exponent (l ++ rest)
  = (fst (scan_exponent l), snd (scan_exponent l) ++ rest).
Proof.
  intros Hrest. pose proof (delimited_cases rest Hrest) as Hc.
  destruct l as [|c l]; cbn [app scan_exponent].
  - destruct rest as [|c r]; [reflexivity|].
    cbn [scan_exponent]. destruct Hc as (_ & _ & -> & -> & _). reflexivity.
  - destruct (Ascii.eqb c "e" || Ascii.eqb c "E"); [|reflexivity].
    destruct l as [|c' l']; cbn [app].
    + destruct rest as [|c' r']; [reflexivity|].
      destruct Hc as (Hd & _ & _ & _ & -> & ->). cbn [orb span_digits].
      now rewrite Hd.
    + destruct (Ascii.eqb c' "+" || Ascii.eqb c' "-").
      * rewrite span_digits_app by assumption.
        now destruct (span_digits l') as [[|d ds] t].
      * change (c' :: l' ++ rest) with ((c' :: l') ++ rest).
        rewrite span_digits_app by assumption.
        now destruct (span_digits (c' :: l')) as [[|d ds] t].
Qed.

(** A number is read alike when a delimiter follows it. *)
Lemma scan_number_app (l rest : list ascii) (v : json) (r : list ascii) :
  delimited rest -> scan_number l = Some (v, r) ->
  scan_number (l ++ rest) = Some (v, r ++ rest).
Proof.
  intros Hrest. unfold scan_number.
  destruct (scan_int l) as [[n r0]|] eqn:Hint; [|discriminate].
  rewrite (scan_int_app _ _ _ _ Hrest Hint).
  rewrite scan_fraction_app by assumption.
  destruct (scan_fraction r0) as [fraction r1]. cbn [fst snd].
  rewrite scan_exponent_app by assumption.
  destruct (scan_exponent r1) as [exponent r2]. cbn [fst snd].
  assert (Hlit : firstn (List.length (l ++ rest) - List.length (r2 ++ rest))
                   (l ++ rest)
                 = firstn (List.length l - List.length r2) l).
  { rewrite !List.length_app.
    replace (List.length l + List.length rest
             - (List.length r2 + List.length rest))%nat
      with (List.length l - List.length r2)%nat by lia.
    rewrite List.firstn_app.
    replace (List.length l - List.length r2 - List.length l)%nat
      with 0%nat by lia.
    cbn [firstn]. apply app_nil_r. }
  rewrite Hlit.
  destruct fraction, exponent; now intros [= <- <-].
Qed.

Lemma scan_number_int_chars (n : Z) (rest : list ascii) :
  delimited rest -> scan_number (int_chars n ++ rest) = Some (JInt n, rest).
Proof.
  intros Hrest.
  apply (scan_number_app (int_chars n) rest (JInt n) [] Hrest).
  unfold scan_number.
  rewrite <- (app_nil_r (int_chars n)) at 1.
  now rewrite scan_int_int_chars.
Qed.

Lemma wf_float_scan (s : string) :
  wf_float (Finite s) = true ->
  scan_number (chars s) = Some (JFloat (Finite s), []).
Proof.
  unfold wf_float.
  destruct (scan_number (chars s)) as [[[| | |[s'| | |]| | |] [|]]|];
    try discriminate.
  now intros ->%String.eqb_eq.
Qed.

(** The text of a float is read back as that float. *)
Lemma scan_number_float (s : string) (rest : list ascii) :
  wf_float (Finite s) = true -> delimited rest ->
  scan_number (chars s ++ rest) = Some (JFloat (Finite s), rest).
Proof.
  intros Hs Hrest.
  exact (scan_number_app _ _ _ _ Hrest (wf_float_scan s Hs)).
Qed.

Lemma int_chars_head (n : Z) :
  exists c l, int_chars n = c :: l
              /\ (is_digit c = true \/ c = "-"%char).
Proof.
  unfold int_chars. destruct n as [|p|p]; cbn [Z.to_int].
  - eexists _, _. split; [reflexivity|]. now left.
  - destruct (to_uint_head p) as (c & l & E & Hd & _). rewrite E.
    eexists _, _. split; [reflexivity|]. now left.
  - eexists _, _. split; [reflexivity|]. now right.
Qed.

(** *** What a number text is made of *)

Lemma is_digit_ascii (c : ascii) : is_digit c = true -> ord c < 128.
Proof. unfold is_digit. lia. Qed.

Lemma span_digits_split (s : list ascii) :
  s = fst (span_digits s) ++ snd (span_digits s)
  /\ is_ascii_text (fst (span_digits s)).
Proof.
  induction s as [|c s [IH1 IH2]]; cbn [span_digits]; [split; [reflexivity | constructor]|].
  destruct (is_digit c) eqn:Hc; [|split; [reflexivity | constructor]].
  destruct (span_digits s) as [ds t]. cbn [fst snd] in *.
  split; [now rewrite IH1 at 1|].
  constructor; [now apply is_digit_ascii | assumption].
Qed.

Lemma read_digits_split (s : list ascii) :
  exists ds, s = ds ++ snd (read_digits s) /\ is_ascii_text ds.
Proof.
  induction s as [|c s (ds & IH1 & IH2)]; cbn [read_digits].
  - exists []. split; [reflexivity | constructor].
  - destruct (is_digit c) eqn:Hc; [|exists []; split; [reflexivity | constructor]].
    destruct (read_digits s) as [u t]. cbn [snd] in *.
    exists (c :: ds). split; [now rewrite IH1 at 1|].
    constructor; [now apply is_digit_ascii | assumption].
Qed.

Lemma not_letter_I (c : ascii) :
  Ascii.eqb c "0" = true \/ is_digit c = true -> Ascii.eqb "I" c = false.
Proof.
  intros H. destruct (Ascii.eqb_spec "I"%char c) as [<-|]; [|reflexivity].
  now destruct H.
Qed.

(** A text that starts with a number starts with a digit or a minus
    sign, and is not [-Infinity]. *)
Lemma scan_int_split (s : list ascii) (n : Z) (r : list ascii) :
  scan_int s = Some (n, r) ->
  (exists l, s = l ++ r /\ is_ascii_text l)
  /\ (exists c l, s = c :: l /\ (is_digit c = true \/ c = "-"%char))
  /\ (forall rest, strip_prefix "-Infinity" (s ++ rest) = None).
Proof.
  unfold scan_int.
  assert (Hbody : forall negative s1,
    match s1 with
    | c :: r0 =>
        if Ascii.eqb c "0" then Some (0, r0)
        else if is_digit c then
          let '(u, r') := read_digits s1 in
          Some (Z.of_int (if negative : bool then Decimal.Neg u else Decimal.Pos u), r')
        else None
    | [] => None
    end = Some (n, r) ->
    (exists l, s1 = l ++ r /\ is_ascii_text l)
    /\ exists c l, s1 = c :: l
                   /\ (Ascii.eqb c "0" = true \/ is_digit c = true)).
  { intros negative [|c s1]; [discriminate|].
    destruct (Ascii.eqb_spec c "0") as [->|Hc0].
    - intros [= <- <-]. split.
      + exists ["0"%char]. split; [reflexivity|].
        constructor; [reflexivity | constructor].
      + eexists _, _. split; [reflexivity|]. now left.
    - destruct (is_digit c) eqn:Hd; [|discriminate].
      destruct (read_digits_split (c :: s1)) as (ds & Hds & Hascii).
      destruct (read_digits (c :: s1)) as [u r']. cbn [snd] in Hds.
      intros [= <- <-]. split; [now exists ds|].
      eexists _, _. split; [reflexivity|]. now right. }
  destruct s as [|c s]; [discriminate|].
  destruct (Ascii.eqb_spec c "-") as [->|Hc].
  - intros H. destruct (Hbody true s H) as [(l & -> & Hl) (c2 & l2 & Hs & Hc2)].
    repeat split.
    + exists ("-"%char :: l). split; [reflexivity|].
      constructor; [reflexivity | assumption].
    + eexists _, _. split; [reflexivity|]. now right.
    + intros rest. rewrite Hs. unfold strip_prefix.
      change (chars "-Infinity") with ("-"%char :: "I"%char :: chars "nfinity").
      cbn [app strip_prefix_chars].
      now rewrite Ascii.eqb_refl, (not_letter_I c2 Hc2).
  - intros H. destruct (Hbody false (c :: s) H) as [Hl (c2 & l2 & [= <- <-] & Hc2)].
    repeat split; [exact Hl | |].
    + eexists _, _. split; [reflexivity|]. left.
      destruct Hc2 as [->%Ascii.eqb_eq | Hd]; [reflexivity | exact Hd].
    + intros rest. unfold strip_prefix.
      change (chars "-Infinity") with ("-"%char :: chars "Infinity").
      cbn [app strip_prefix_chars].
      destruct (Ascii.eqb_spec "-"%char c) as [<-|]; [congruence | reflexivity].
Qed.

Lemma scan_fraction_split (s : list ascii) :
  s = fst (scan_fraction s) ++ snd (scan_fraction s)
  /\ is_ascii_text (fst (scan_fraction s)).
Proof.
  destruct s as [|c s]; cbn [scan_fraction]; [split; [reflexivity | constructor]|].
  destruct (Ascii.eqb_spec c ".") as [->|]; [|split; [reflexivity | constructor]].
  destruct (span_digits_split s) as [H1 H2].
  destruct (span_digits s) as [[|d ds] t]; cbn [fst snd] in *; [split; [reflexivity | constructor]|].
  split; [now rewrite H1 at 1|].
  constructor; [reflexivity | assumption].
Qed.

Lemma scan_exponent_split (s : list ascii) :
  s = fst (scan_exponent s) ++ snd (scan_exponent s)
  /\ is_ascii_text (fst (scan_exponent s)).
Proof.
  destruct s as [|c s]; cbn [scan_exponent]; [split; [reflexivity | constructor]|].
  destruct (Ascii.eqb c "e" || Ascii.eqb c "E") eqn:Hc; [|split; [reflexivity | constructor]].
  assert (Hord : ord c < 128).
  { apply orb_true_iff in Hc as [->%Ascii.eqb_eq | ->%Ascii.eqb_eq]; reflexivity. }
  destruct s as [|c' s'].
  - split; [reflexivity | constructor].
  - destruct (Ascii.eqb c' "+" || Ascii.eqb c' "-") eqn:Hsign.
    + assert (Hord' : ord c' < 128).
      { apply orb_true_iff in Hsign as [->%Ascii.eqb_eq | ->%Ascii.eqb_eq];
          reflexivity. }
      destruct (span_digits_split s') as [H1 H2].
      destruct (span_digits s') as [[|d ds] t]; cbn [fst snd] in *; [split; [reflexivity | constructor]|].
      split; [cbn [app]; now rewrite H1 at 1|].
      constructor; [assumption|]. constructor; assumption.
    + destruct (span_digits_split (c' :: s')) as [H1 H2].
      destruct (span_digits (c' :: s')) as [[|d ds] t]; cbn [fst snd] in *;
        [split; [reflexivity | constructor]|].
      split; [cbn [app]; now rewrite H1 at 1|].
      constructor; assumption.
Qed.

Lemma scan_number_split (s : list ascii) (v : json) (r : list ascii) :
  scan_number s = Some (v, r) ->
  (exists l, s = l ++ r /\ is_ascii_text l)
  /\ (exists c l, s = c :: l /\ (is_digit c = true \/ c = "-"%char))
  /\ (forall rest, strip_prefix "-Infinity" (s ++ rest) = None).
Proof.
  unfold scan_number.
  destruct (scan_int s) as [[n r0]|] eqn:Hint; [|discriminate].
  destruct (scan_int_split _ _ _ Hint) as ((l & -> & Hl) & Hhead & Hinf).
  destruct (scan_fraction_split r0) as [H1 H2].
  destruct (scan_fraction r0) as [fraction r1]. cbn [fst snd] in *.
  destruct (scan_exponent_split r1) as [H3 H4].
  destruct (scan_exponent r1) as [exponent r2]. cbn [fst snd] in *.
  intros H. split; [|now split].
  assert (Hr : r = r0 /\ fraction = [] /\ exponent = [] \/ r = r2).
  { destruct fraction, exponent; injection H as _ <-; tauto. }
  destruct Hr as [(-> & _ & _) | ->]; [now exists l|].
  exists (l ++ fraction ++ exponent). split.
  - rewrite H1 at 1. rewrite H3 at 1. now rewrite <- !app_assoc.
  - unfold is_ascii_text in *. rewrite !List.Forall_app. tauto.
Qed.

Lemma wf_float_text (s : string) :
  wf_float (Finite s) = true ->
  is_ascii_text (chars s)
  /\ (exists c l, chars s = c :: l /\ (is_digit c = true \/ c = "-"%char))
  /\ (forall rest, strip_prefix "-Infinity" (chars s ++ rest) = None).
Proof.
  intros Hs. apply wf_float_scan in Hs.
  destruct (scan_number_split _ _ _ Hs) as ((l & Hl & Hascii) & Hhead & Hinf).
  rewrite app_nil_r in Hl. rewrite Hl. rewrite Hl in Hhead, Hinf. now split.
Qed.

Lemma int_chars_text (n : Z) :
  is_ascii_text (int_chars n)
  /\ (forall rest, strip_prefix "-Infinity" (int_chars n ++ rest) = None).
Proof.
  pose proof (scan_int_int_chars n [] I) as H. rewrite app_nil_r in H.
  destruct (scan_int_split _ _ _ H) as ((l & Hl & Hascii) & _ & Hinf).
  rewrite app_nil_r in Hl. rewrite Hl. rewrite Hl in Hinf. now split.
Qed.

(** *** Dictionaries *)

Lemma existsb_eqb_false (k : string) (ks : list string) :
  existsb (String.eqb k) ks = false <-> ~ List.In k ks.
Proof.
  induction ks as [|k' ks IH]; cbn; [tauto|].
  rewrite orb_false_iff, IH, String.eqb_neq. intuition congruence.
Qed.

Lemma distinct_NoDup (ks : list string) :
  distinct ks = true <-> List.NoDup ks.
Proof.
  induction ks as [|k ks IH]; cbn.
  - split; [constructor | trivial].
  - rewrite andb_true_iff, negb_true_iff, existsb_eqb_false, IH.
    split; [intros [? ?]; now constructor | now inversion 1].
Qed.

Lemma dict_set_fresh (k : string) (v : json) (d : dict) :
  ~ List.In k (List.map fst d) -> dict_set k v d = d ++ [(k, v)].
Proof.
  induction d as [|[k' v'] d IH]; cbn; [reflexivity|]. intros Hk.
  destruct (String.eqb_spec k k') as [->|_]; [tauto|].
  rewrite IH; [reflexivity | tauto].
Qed.

Lemma dict_of_pairs_fresh (l acc : dict) :
  List.NoDup (List.map fst acc ++ List.map fst l) ->
  fold_left (fun d kv => dict_set (fst kv) (snd kv) d) l acc = acc ++ l.
Proof.
  revert acc. induction l as [|[k v] l IH]; intros acc Hnd; cbn.
  - now rewrite app_nil_r.
  - rewrite dict_set_fresh.
    + rewrite IH; [now rewrite <- app_assoc|].
      rewrite List.map_app. cbn. now rewrite <- app_assoc.
    + cbn in Hnd. apply List.NoDup_remove_2 in Hnd.
      intros Hin. apply Hnd, List.in_or_app. now left.
Qed.

Lemma dict_of_pairs_distinct (d : dict) :
  distinct (List.map fst d) = true -> dict_of_pairs d = d.
Proof.
  intros Hd. unfold dict_of_pairs.
  rewrite dict_of_pairs_fresh; [reflexivity|]. now apply distinct_NoDup.
Qed.

(** *** Values *)

Lemma skip_ws_head (c : ascii) (r : list ascii) :
  is_json_space c = false -> skip_ws (c :: r) = c :: r.
Proof. intros H. cbn. now rewrite H. Qed.

Lemma is_digit_head (c : ascii) :
  is_digit c = true \/ c = "-"%char ->
  is_json_space c = false /\ Ascii.eqb c dquote = false
  /\ Ascii.eqb c "{" = false /\ Ascii.eqb c "[" = false
  /\ Ascii.eqb c "n" = false /\ Ascii.eqb c "t" = false
  /\ Ascii.eqb c "f" = false /\ Ascii.eqb c "N" = false
  /\ Ascii.eqb c "I" = false /\ Ascii.eqb c "]" = false.
Proof.
  intros [H | ->]; [|repeat split].
  destruct c as [[] [] [] [] [] [] [] []]; try discriminate H; repeat split.
Qed.

(** A printed value starts with a character that is neither white space
    nor a closing bracket. *)
Lemma dumps_chars_head (v : json) :
  wf_json v = true ->
  exists c l, dumps_chars v = c :: l
              /\ is_json_space c = false /\ Ascii.eqb c "]" = false.
Proof.
  destruct v as [| [] | n | [s| | |] | s | l | d]; cbn [dumps_chars wf_json];
    intros Hwf; try (eexists _, _; repeat split; reflexivity).
  - destruct (int_chars_head n) as (c & l & -> & Hc).
    apply is_digit_head in Hc. exists c, l. tauto.
  - destruct (wf_float_text s Hwf) as (_ & (c & l & -> & Hc) & _).
    apply is_digit_head in Hc. exists c, l. tauto.
Qed.

Lemma skip_ws_dumps (v : json) (rest : list ascii) :
  wf_json v = true ->
  skip_ws (dumps_chars v ++ rest) = dumps_chars v ++ rest.
Proof.
  intros Hwf. destruct (dumps_chars_head v Hwf) as (c & l & -> & Hc & _).
  now apply skip_ws_head.
Qed.

(** A number at the head of a text is read by [scan_number]. *)
Lemma scan_value_number (fuel : nat) (s rest : list ascii) :
  (exists c l, s = c :: l /\ (is_digit c = true \/ c = "-"%char)) ->
  strip_prefix "-Infinity" (s ++ rest) = None ->
  scan_value (S fuel) (s ++ rest) = scan_number (s ++ rest).
Proof.
  intros (c & l & -> & Hc) Hinf.
  apply is_digit_head in Hc as (_ & H1 & H2 & H3 & H4 & H5 & H6 & H7 & H8 & _).
  cbn [app] in *. cbn [scan_value].
  now rewrite H1, H2, H3, H4, H5, H6, H7, H8, Hinf.
Qed.

Lemma scan_elements_step (fuel : nat) (s : list ascii) :
  scan_elements (S fuel) s
  = match scan_value fuel s with
    | Some (v, r) =>
        match skip_ws r with
        | c :: r' =>
            if Ascii.eqb c "]" then Some ([v], r')
            else if Ascii.eqb c "," then
              match scan_elements fuel (skip_ws r') with
              | Some (l, t) => Some (v :: l, t)
              | None => None
              end
            else None
        | [] => None
        end
    | None => None
    end.
Proof. reflexivity. Qed.

Lemma scan_members_step (fuel : nat) (body : list ascii) :
  scan_members (S fuel) (dquote :: body)
  = match scan_string body with
    | Some (k, r1) =>
        match skip_ws r1 with
        | c1 :: r2 =>
            if Ascii.eqb c1 ":" then
              match scan_value fuel (skip_ws r2) with
              | Some (v, r3) =>
                  match skip_ws r3 with
                  | c3 :: r4 =>
                      if Ascii.eqb c3 "}" then Some ([(str k, v)], r4)
                      else if Ascii.eqb c3 "," then
                        match scan_members fuel (skip_ws r4) with
                        | Some (d, t) => Some ((str k, v) :: d, t)
                        | None => None
                        end
                      else None
                  | [] => None
                  end
              | None => None
              end
            else None
        | [] => None
        end
    | None => None
    end.
Proof. reflexivity. Qed.

Definition scans (v : json) : Prop :=
  wf_json v = true ->
  forall fuel rest, (need v <= fuel)%nat -> delimited rest ->
  scan_value fuel (dumps_chars v ++ rest) = Some (v, rest).

Lemma list_sum_cons (a : nat) (l : list nat) :
  list_sum (a :: l) = (a + list_sum l)%nat.
Proof. reflexivity. Qed.

Lemma join_cons (sep x : list ascii) (items : list (list ascii)) :
  exists tail, join sep (x :: items) = x ++ tail
               /\ (items = [] -> tail = [])
               /\ (items <> [] -> tail = sep ++ join sep items).
Proof.
  destruct items as [|y r].
  - exists []. cbn. rewrite app_nil_r. repeat split; congruence.
  - exists (sep ++ join sep (y :: r)). repeat split; congruence.
Qed.

Lemma skip_ws_join (v : json) (l : list json) (rest : list ascii) :
  wf_json v = true ->
  skip_ws (join (chars ", ") (List.map dumps_chars (v :: l)) ++ rest)
  = join (chars ", ") (List.map dumps_chars (v :: l)) ++ rest.
Proof.
  intros Hwf. cbn [List.map].
  destruct (join_cons (chars ", ") (dumps_chars v) (List.map dumps_chars l))
    as (tail & -> & _).
  rewrite <- app_assoc. now apply skip_ws_dumps.
Qed.

Lemma scan_elements_dumps (l : list json) :
  l <> [] -> List.Forall scans l -> forallb wf_json l = true ->
  forall fuel rest,
    (list_sum (List.map (fun x => S (need x)) l) <= fuel)%nat ->
    scan_elements fuel
      (join (chars ", ") (List.map dumps_chars l) ++ "]"%char :: rest)
    = Some (l, rest).
Proof.
  intros Hne Hall. induction Hall as [|v l Hv Hall IH]; [congruence|].
  intros Hwf fuel rest Hfuel.
  cbn [forallb] in Hwf. apply andb_true_iff in Hwf as [Hwv Hwl].
  cbn [List.map] in Hfuel. rewrite list_sum_cons in Hfuel.
  destruct fuel as [|fuel]; [lia|]. rewrite scan_elements_step.
  destruct l as [|v2 l'].
  - cbn [List.map join].
    rewrite (Hv Hwv fuel ("]"%char :: rest)); [|lia | cbn; tauto].
    reflexivity.
  - change (join (chars ", ") (List.map dumps_chars (v :: v2 :: l')))
      with (dumps_chars v
            ++ [","%char; " "%char]
            ++ join (chars ", ") (List.map dumps_chars (v2 :: l'))).
    rewrite <- !app_assoc.
    rewrite (Hv Hwv fuel); [|lia | cbn; tauto].
    cbn [app]. rewrite skip_ws_head by reflexivity.
    cbn [Ascii.eqb Bool.eqb].
    change (skip_ws (" "%char :: ?x)) with (skip_ws x).
    cbn [forallb] in Hwl. pose proof Hwl as Hw2.
    apply andb_true_iff in Hw2 as [Hw2 _].
    rewrite skip_ws_join by assumption.
    rewrite IH; [reflexivity | discriminate | assumption | lia].
Qed.

Lemma skip_ws_quote (s : string) (rest : list ascii) :
  skip_ws (quote s ++ rest) = quote s ++ rest.
Proof. reflexivity. Qed.

Lemma scan_members_dumps (d : dict) :
  d <> [] -> List.Forall (fun kv => scans (snd kv)) d ->
  forallb (fun kv => wf_str (fst kv) && wf_json (snd kv)) d = true ->
  forall fuel rest,
    (list_sum (List.map (fun kv => S (need (snd kv))) d) <= fuel)%nat ->
    scan_members fuel
      (join (chars ", ")
         (List.map (fun kv => quote (fst kv) ++ chars ": " ++ dumps_chars (snd kv)) d)
       ++ "}"%char :: rest)
    = Some (d, rest).
Proof.
  intros Hne Hall. induction Hall as [|[k v] d Hv Hall IH]; [congruence|].
  intros Hwf fuel rest Hfuel. cbn [snd fst] in *.
  cbn [forallb snd fst] in Hwf.
  apply andb_true_iff in Hwf as [Hwv Hwl].
  apply andb_true_iff in Hwv as [Hwk Hwv].
  cbn [List.map snd] in Hfuel. rewrite list_sum_cons in Hfuel.
  destruct fuel as [|fuel]; [lia|].
  destruct d as [|[k2 v2] d'].
  - cbn [List.map join fst snd]. rewrite <- !app_assoc.
    destruct (scan_string_quote k
                (chars ": " ++ dumps_chars v ++ "}"%char :: rest) Hwk)
      as (body & -> & Hbody).
    rewrite scan_members_step, Hbody.
    change (chars ": ") with [":"%char; " "%char]. cbn [app].
    rewrite skip_ws_head by reflexivity. cbn [Ascii.eqb Bool.eqb].
    change (skip_ws (" "%char :: ?x)) with (skip_ws x).
    rewrite skip_ws_dumps by assumption.
    rewrite (Hv Hwv fuel ("}"%char :: rest)); [|lia | cbn; tauto].
    rewrite skip_ws_head by reflexivity. cbn [Ascii.eqb Bool.eqb].
    now rewrite str_chars.
  - set (member := fun kv : string * json =>
                     quote (fst kv) ++ chars ": " ++ dumps_chars (snd kv)) in *.
    change (join (chars ", ") (List.map member ((k, v) :: (k2, v2) :: d')))
      with ((quote k ++ chars ": " ++ dumps_chars v)
            ++ [","%char; " "%char]
            ++ join (chars ", ") (List.map member ((k2, v2) :: d'))).
    rewrite <- !app_assoc.
    destruct (scan_string_quote k
                (chars ": " ++ dumps_chars v
                 ++ [","%char; " "%char]
                 ++ join (chars ", ") (List.map member ((k2, v2) :: d'))
                 ++ "}"%char :: rest) Hwk)
      as (body & -> & Hbody).
    rewrite scan_members_step, Hbody.
    change (chars ": ") with [":"%char; " "%char]. cbn [app].
    rewrite skip_ws_head by reflexivity. cbn [Ascii.eqb Bool.eqb].
    change (skip_ws (" "%char :: ?x)) with (skip_ws x).
    rewrite skip_ws_dumps by assumption.
    rewrite (Hv Hwv fuel); [|lia | cbn; tauto].
    rewrite skip_ws_head by reflexivity. cbn [Ascii.eqb Bool.eqb].
    change (skip_ws (" "%char :: ?x)) with (skip_ws x).
    assert (Hq : forall t,
      skip_ws (join (chars ", ") (List.map member ((k2, v2) :: d')) ++ t)
      = join (chars ", ") (List.map member ((k2, v2) :: d')) ++ t).
    { intros t. cbn [List.map].
      destruct (join_cons (chars ", ") (member (k2, v2)) (List.map member d'))
        as (tail & -> & _).
      reflexivity. }
    rewrite Hq.
    rewrite IH; [now rewrite str_chars | discriminate | assumption | lia].
Qed.

Lemma forallb_snd (f : string -> bool) (g : json -> bool) (d : dict) :
  forallb (fun kv => f (fst kv) && g (snd kv)) d = true ->
  forallb (fun kv => g (snd kv)) d = true.
Proof.
  induction d as [|kv d IH]; [reflexivity|]. cbn [forallb].
  rewrite !andb_true_iff. tauto.
Qed.

(** [scan_value] reads back what [dumps_chars] wrote. *)
Lemma scan_value_dumps (v : json) : scans v.
Proof.
  induction v as [| b | n | x | s | l IH | d IH] using json_ind;
    intros Hwf fuel rest Hfuel Hrest;
    (destruct fuel as [|fuel]; [cbn in Hfuel; lia|]).
  - reflexivity.
  - destruct b; reflexivity.
  - cbn [dumps_chars].
    rewrite scan_value_number.
    + now apply scan_number_int_chars.
    + destruct (int_chars_head n) as (c & t & E & Hc). now exists c, t.
    + apply int_chars_text.
  - destruct x as [s | | |]; try reflexivity.
    cbn [dumps_chars]. cbn [wf_json] in Hwf.
    destruct (wf_float_text s Hwf) as (_ & Hhead & Hinf).
    rewrite scan_value_number by auto.
    now apply scan_number_float.
  - cbn [dumps_chars]. cbn [wf_json] in Hwf.
    destruct (scan_string_quote s rest Hwf) as (body & -> & Hbody).
    cbn [scan_value]. rewrite Ascii.eqb_refl, Hbody. now rewrite str_chars.
  - cbn [dumps_chars wf_json need] in *.
    destruct l as [|v l].
    + reflexivity.
    + rewrite <- app_comm_cons, <- app_assoc. cbn [app].
      change (scan_value (S fuel) ("["%char :: ?r))
        with (match skip_ws r with
              | c' :: r' =>
                  if Ascii.eqb c' "]" then Some (JList [], r')
                  else match scan_elements fuel (c' :: r') with
                       | Some (l, t) => Some (JList l, t)
                       | None => None
                       end
              | [] => None
              end).
      pose proof Hwf as Hwv. cbn [forallb] in Hwv.
      apply andb_true_iff in Hwv as [Hwv _].
      rewrite skip_ws_join by assumption.
      pose proof (scan_elements_dumps (v :: l)) as Hs.
      cbn [List.map] in Hs, Hfuel |- *.
      destruct (join_cons (chars ", ") (dumps_chars v) (List.map dumps_chars l))
        as (tail & Hj & _).
      destruct (dumps_chars_head v Hwv) as (c & t & Hc & _ & Hclose).
      rewrite Hj, Hc in Hs |- *. cbn [app] in Hs |- *. rewrite Hclose.
      rewrite Hs; [reflexivity | discriminate | assumption | assumption | lia].
  - cbn [dumps_chars wf_json need] in *.
    apply andb_true_iff in Hwf as [Hkeys Hwf].
    destruct d as [|[k v] d].
    + reflexivity.
    + rewrite <- app_comm_cons, <- app_assoc. cbn [app].
      change (scan_value (S fuel) ("{"%char :: ?r))
        with (match skip_ws r with
              | c' :: r' =>
                  if Ascii.eqb c' "}" then Some (JDict [], r')
                  else match scan_members fuel (c' :: r') with
                       | Some (d, t) => Some (JDict (dict_of_pairs d), t)
                       | None => None
                       end
              | [] => None
              end).
      pose proof (scan_members_dumps ((k, v) :: d)) as Hs.
      cbn [List.map fst snd] in Hs, Hfuel |- *.
      destruct (join_cons (chars ", ")
                  (quote k ++ chars ": " ++ dumps_chars v)
                  (List.map (fun kv => quote (fst kv) ++ chars ": "
                                       ++ dumps_chars (snd kv)) d))
        as (tail & Hj & _).
      rewrite Hj in Hs |- *. unfold quote at 1 in Hs. unfold quote at 1.
      cbn [app] in Hs |- *.
      rewrite skip_ws_head by reflexivity.
      change (Ascii.eqb dquote "}") with false. cbv iota.
      rewrite Hs; [|discriminate | assumption | assumption | lia].
      now rewrite dict_of_pairs_distinct.
Qed.

Lemma need_elements_le (sep : list ascii) (sizes : list nat) (items : list (list ascii)) :
  (1 <= List.length sep)%nat ->
  List.Forall2 (fun n x => (n <= List.length x)%nat) sizes items ->
  (list_sum (List.map S sizes) <= List.length (join sep items) + 1)%nat.
Proof.
  intros Hsep. induction 1 as [|n x sizes items Hn Hrest IH]; [cbn; lia|].
  cbn [List.map]. rewrite list_sum_cons.
  destruct (join_cons sep x items) as (tail & -> & Hnil & Hcons).
  rewrite List.length_app.
  destruct items as [|y items].
  - inversion Hrest; subst. cbn. lia.
  - rewrite (Hcons ltac:(discriminate)), List.length_app. lia.
Qed.

Lemma need_le_length (v : json) :
  wf_json v = true -> (need v <= List.length (dumps_chars v))%nat.
Proof.
  induction v as [| b | n | x | s | l IH | d IH] using json_ind; intros Hwf.
  - cbn. lia.
  - destruct b; cbn; lia.
  - cbn [need dumps_chars]. destruct (int_chars_head n) as (c & t & -> & _).
    cbn. lia.
  - destruct x as [s | | |]; try (cbn; lia).
    cbn [need dumps_chars]. cbn [wf_json] in Hwf.
    destruct (wf_float_text s Hwf) as (_ & (c & t & -> & _) & _). cbn. lia.
  - cbn [need dumps_chars]. unfold quote. cbn [List.length]. lia.
  - cbn [need dumps_chars List.length]. rewrite List.length_app.
    cbn [wf_json] in Hwf.
    assert (H : List.Forall2 (fun n x => (n <= List.length x)%nat)
                  (List.map need l) (List.map dumps_chars l)).
    { induction IH as [|v l Hv _ IHl]; [constructor|].
      cbn [forallb] in Hwf. apply andb_true_iff in Hwf as [Hwv Hwl].
      constructor; [now apply Hv | now apply IHl]. }
    apply (need_elements_le (chars ", ")) in H; [|cbn; lia].
    rewrite List.map_map in H. cbn [List.length]. lia.
  - cbn [need dumps_chars List.length]. rewrite List.length_app.
    cbn [wf_json] in Hwf. apply andb_true_iff in Hwf as [_ Hwf].
    apply forallb_snd in Hwf.
    assert (H : List.Forall2 (fun n x => (n <= List.length x)%nat)
                  (List.map (fun kv => need (snd kv)) d)
                  (List.map (fun kv => quote (fst kv) ++ chars ": "
                                       ++ dumps_chars (snd kv)) d)).
    { induction IH as [|kv d Hkv _ IHd]; [constructor|].
      cbn [forallb] in Hwf. apply andb_true_iff in Hwf as [Hwv Hwl].
      constructor; [|now apply IHd].
      rewrite !List.length_app. specialize (Hkv Hwv). lia. }
    apply (need_elements_le (chars ", ")) in H; [|cbn; lia].
    rewrite List.map_map in H. cbn [List.length]. lia.
Qed.

(** [json.loads(json.dumps(v))] is [v] again. *)
Lemma json_loads_dumps (v : json) :
  wf_json v = true -> json_loads (json_dumps v) = Some v.
Proof.
  intros Hwf. unfold json_loads, json_dumps. rewrite chars_str.
  rewrite <- (app_nil_r (dumps_chars v)) at 2.
  rewrite skip_ws_dumps by assumption.
  rewrite (scan_value_dumps v Hwf); [reflexivity | | exact I].
  pose proof (need_le_length v Hwf). lia.
Qed.

(** *** [json.dumps] writes ASCII *)

Lemma is_ascii_text_app (a b : list ascii) :
  is_ascii_text a -> is_ascii_text b -> is_ascii_text (a ++ b).
Proof. unfold is_ascii_text. rewrite List.Forall_app. tauto. Qed.

Lemma hex_digit_ascii (d : Z) : ord (hex_digit d) < 128.
Proof.
  unfold hex_digit. generalize (Z.to_nat d). intros k.
  do 17 (destruct k as [|k]; [reflexivity|]). reflexivity.
Qed.

Lemma hex4_chars_ascii (n : Z) : is_ascii_text (hex4_chars n).
Proof. repeat constructor; apply hex_digit_ascii. Qed.

Lemma escape_code_point_ascii (n : Z) : is_ascii_text (escape_code_point n).
Proof.
  unfold escape_code_point.
  repeat match goal with
         | |- context [?a =? ?b] =>
             destruct (Z.eqb_spec a b);
             [repeat constructor; reflexivity|]
         end.
  destruct (Z.leb_spec 32 n); cbn [andb].
  - destruct (Z.leb_spec n 126).
    + constructor; [|constructor]. rewrite ord_chr; lia.
    + destruct (n <? 65536); repeat apply is_ascii_text_app;
        try apply hex4_chars_ascii; repeat constructor; reflexivity.
  - destruct (n <? 65536); repeat apply is_ascii_text_app;
      try apply hex4_chars_ascii; repeat constructor; reflexivity.
Qed.

Lemma quote_ascii (s : string) : is_ascii_text (quote s).
Proof.
  unfold quote. constructor; [reflexivity|].
  apply is_ascii_text_app; [|repeat constructor; reflexivity].
  induction (code_points_of s) as [|n cps IH]; [constructor|].
  cbn [flat_map]. apply is_ascii_text_app; [apply escape_code_point_ascii | exact IH].
Qed.

Lemma join_ascii (sep : list ascii) (items : list (list ascii)) :
  is_ascii_text sep -> List.Forall is_ascii_text items ->
  is_ascii_text (join sep items).
Proof.
  intros Hsep. induction 1 as [|x items Hx Hall IH]; [constructor|].
  destruct (join_cons sep x items) as (tail & -> & Hnil & Hcons).
  apply is_ascii_text_app; [assumption|].
  destruct items as [|y items].
  - rewrite Hnil by reflexivity. constructor.
  - rewrite Hcons by discriminate. now apply is_ascii_text_app.
Qed.

Lemma dumps_chars_ascii (v : json) :
  wf_json v = true -> is_ascii_text (dumps_chars v).
Proof.
  assert (Hsep : is_ascii_text (chars ", ")) by (repeat constructor; reflexivity).
  induction v as [| b | n | x | s | l IH | d IH] using json_ind; intros Hwf.
  - repeat constructor; reflexivity.
  - destruct b; repeat constructor; reflexivity.
  - apply int_chars_text.
  - destruct x as [s | | |]; try (repeat constructor; reflexivity).
    now apply wf_float_text.
  - apply quote_ascii.
  - cbn [dumps_chars]. cbn [wf_json] in Hwf. constructor; [reflexivity|].
    apply is_ascii_text_app; [|repeat constructor; reflexivity].
    apply join_ascii; [assumption|].
    induction IH as [|v l Hv _ IHl]; [constructor|].
    cbn [forallb] in Hwf. apply andb_true_iff in Hwf as [Hwv Hwl].
    constructor; [now apply Hv | now apply IHl].
  - cbn [dumps_chars]. cbn [wf_json] in Hwf.
    apply andb_true_iff in Hwf as [_ Hwf]. apply forallb_snd in Hwf.
    constructor; [reflexivity|].
    apply is_ascii_text_app; [|repeat constructor; reflexivity].
    apply join_ascii; [assumption|].
    induction IH as [|kv d Hkv _ IHd]; [constructor|].
    cbn [forallb] in Hwf. apply andb_true_iff in Hwf as [Hwv Hwl].
    constructor; [|now apply IHd].
    apply is_ascii_text_app; [apply quote_ascii|].
    apply is_ascii_text_app; [repeat constructor; reflexivity | now apply Hkv].
Qed.

(** What [json.dumps] writes is read back from its bytes. *)
Lemma utf8_decode_json_dumps (v : json) :
  wf_json v = true -> utf8_decode (utf8_encode (json_dumps v)) = Some (json_dumps v).
Proof.
  intros Hwf. apply utf8_decode_encode.
  unfold json_dumps. rewrite chars_str. now apply dumps_chars_ascii.
Qed.

(** An ASCII text is a well-formed [str]. *)
Lemma wf_str_ascii (s : string) : is_ascii_text (chars s) -> wf_str s = true.
Proof.
  intros Hs. unfold wf_str. rewrite (code_points_ascii _ Hs).
  induction Hs as [|c l Hc Hl IH]; [reflexivity|].
  cbn [List.map apart]. destruct l as [|c' l]; [reflexivity|].
  cbn [List.map] in *. rewrite IH.
  unfold is_high_surrogate.
  destruct (Z.leb_spec 55296 (ord c)); [lia | reflexivity].
Qed.

(** *** [==] on a value and itself *)

Lemma float_eqb_refl (x : pyfloat) : x <> NaN -> float_eqb x x = true.
Proof.
  destruct x as [s| | |]; try reflexivity; [|congruence].
  intros _. cbn. now rewrite String.eqb_refl.
Qed.

Lemma dict_get_In (k : string) (v : json) (d : dict) :
  List.NoDup (List.map fst d) -> List.In (k, v) d -> dict_get k d = Some v.
Proof.
  induction d as [|[k' v'] d IH]; [contradiction|].
  cbn [List.map fst dict_get]. intros Hnd [[= -> ->] | Hin].
  - now rewrite String.eqb_refl.
  - inversion Hnd as [|? ? Hnotin Hnd']; subst.
    destruct (String.eqb_spec k k') as [->|_].
    + exfalso. apply Hnotin. apply (List.in_map fst) in Hin. exact Hin.
    + now apply IH.
Qed.

(** A value without NaN equals itself. *)
Lemma py_eq_refl (v : json) :
  wf_json v = true -> no_nan v = true -> py_eq v v = true.
Proof.
  induction v as [| b | n | x | s | l IH | d IH] using json_ind;
    intros Hwf Hnan.
  - reflexivity.
  - cbn. now destruct b.
  - cbn. apply Z.eqb_refl.
  - cbn. apply float_eqb_refl. now destruct x.
  - cbn. apply String.eqb_refl.
  - cbn [py_eq]. cbn [wf_json no_nan] in Hwf, Hnan.
    induction IH as [|v l Hv _ IHl]; [reflexivity|].
    cbn [forallb] in Hwf, Hnan.
    apply andb_true_iff in Hwf as [Hwv Hwl].
    apply andb_true_iff in Hnan as [Hnv Hnl].
    rewrite (Hv Hwv Hnv). now apply IHl.
  - cbn [py_eq]. rewrite Nat.eqb_refl. cbn [andb].
    cbn [wf_json no_nan] in Hwf, Hnan.
    apply andb_true_iff in Hwf as [Hkeys Hwf]. apply forallb_snd in Hwf.
    apply distinct_NoDup in Hkeys.
    apply forallb_forall. intros [k v] Hin. cbn [fst snd].
    rewrite (dict_get_In k v d Hkeys Hin).
    rewrite List.Forall_forall in IH.
    rewrite forallb_forall in Hwf, Hnan.
    exact (IH _ Hin (Hwf _ Hin) (Hnan _ Hin)).
Qed.

End LoadsProps.

(** ** Datetimes: [fromisoformat] inverts [isoformat] *)

Lemma digit_char_facts (k : Z) :
  0 <= k <= 9 ->
  is_digit (digit_char k) = true /\ ord (digit_char k) - 48 = k
  /\ Ascii.eqb (digit_char k) "-" = false /\ Ascii.eqb (digit_char k) "+" = false.
Proof.
  intros Hk.
  assert (H : k = 0 \/ k = 1 \/ k = 2 \/ k = 3 \/ k = 4 \/ k = 5 \/ k = 6
              \/ k = 7 \/ k = 8 \/ k = 9) by lia.
  repeat (destruct H as [-> | H]; [repeat split|]). subst. repeat split.
Qed.

Lemma take_digits_add (a b : nat) (acc : Z) (s : list ascii) :
  take_digits (a + b) acc s
  = match take_digits a acc s with
    | Some (acc', r) => take_digits b acc' r
    | None => None
    end.
Proof.
  revert acc s. induction a as [|a IH]; intros acc s; [reflexivity|].
  cbn [Nat.add take_digits]. destruct s as [|c r]; [reflexivity|].
  destruct (is_digit c); [apply IH | reflexivity].
Qed.

Lemma take_digits_fixed (w : nat) :
  forall (n acc : Z) (rest : list ascii),
    0 <= n < 10 ^ Z.of_nat w ->
    take_digits w acc (digits_fixed w n ++ rest)
    = Some (acc * 10 ^ Z.of_nat w + n, rest).
Proof.
  induction w as [|w IH]; intros n acc rest Hn.
  - cbn in *. f_equal. f_equal. lia.
  - rewrite Nat2Z.inj_succ, Z.pow_succ_r in * by lia.
    cbn [digits_fixed]. rewrite <- app_assoc.
    replace (S w) with (w + 1)%nat by lia.
    rewrite take_digits_add, IH.
    2:{ split; [apply Z.div_pos; lia | apply Z.div_lt_upper_bound; lia]. }
    destruct (digit_char_facts (n mod 10)) as (Hd & Hv & _).
    { pose proof (Z.mod_pos_bound n 10). lia. }
    cbn [app take_digits]. rewrite Hd, Hv. f_equal. f_equal.
    pose proof (Z.div_mod n 10). lia.
Qed.

Lemma digits_fixed_plain (w : nat) (n : Z) :
  existsb (fun c => Ascii.eqb c "-" || Ascii.eqb c "+") (digits_fixed w n) = false.
Proof.
  revert n. induction w as [|w IH]; intros n; [reflexivity|].
  cbn [digits_fixed]. rewrite existsb_app, IH. cbn [existsb orb].
  destruct (digit_char_facts (n mod 10)) as (_ & _ & -> & ->); [|reflexivity].
  pose proof (Z.mod_pos_bound n 10). lia.
Qed.

Lemma length_digits_fixed (w : nat) (n : Z) : List.length (digits_fixed w n) = w.
Proof.
  revert n. induction w as [|w IH]; intros n; [reflexivity|].
  cbn [digits_fixed]. rewrite List.length_app, IH. cbn. lia.
Qed.

Lemma valid_datetime_bounds (d : datetime) :
  valid_datetime d = true ->
  1 <= year d <= 9999 /\ 1 <= month d <= 12 /\ 1 <= day d <= 31
  /\ 0 <= hour d <= 23 /\ 0 <= minute d <= 59 /\ 0 <= second d <= 59
  /\ 0 <= microsecond d <= 999999.
Proof.
  unfold valid_datetime. rewrite !andb_true_iff, !Z.leb_le.
  assert (days_in_month (year d) (month d) <= 31).
  { unfold days_in_month, month_length.
    repeat match goal with |- context [if ?b then _ else _] => destruct b end; lia. }
  lia.
Qed.

Lemma fromisoformat_isoformat (d : datetime) :
  valid_datetime d = true -> fromisoformat (isoformat d) = Some d.
Proof.
  intros Hv. pose proof (valid_datetime_bounds d Hv) as Hb.
  unfold fromisoformat, isoformat, isoformat_chars. rewrite chars_str.
  unfold parse_date.
  rewrite take_digits_fixed by (cbn; lia). cbn [expect Ascii.eqb Bool.eqb].
  rewrite take_digits_fixed by (cbn; lia). cbn [expect Ascii.eqb Bool.eqb].
  rewrite take_digits_fixed by (cbn; lia).
  rewrite !Z.mul_0_l, !Z.add_0_l.
  assert (Hplain :
    existsb (fun c => Ascii.eqb c "-" || Ascii.eqb c "+")
      (digits_fixed 2 (hour d) ++ ":"%char :: digits_fixed 2 (minute d)
       ++ ":"%char :: digits_fixed 2 (second d)
       ++ (if microsecond d =? 0 then []
           else "."%char :: digits_fixed 6 (microsecond d))) = false).
  { rewrite !existsb_app. cbn [existsb]. rewrite !existsb_app. cbn [existsb].
    rewrite !existsb_app, !digits_fixed_plain. cbn [orb Ascii.eqb Bool.eqb].
    destruct (microsecond d =? 0); [reflexivity|].
    cbn [existsb]. now rewrite digits_fixed_plain. }
  cbv zeta. change (skip_separator "T"%char ?r) with r.
  rewrite Hplain. unfold parse_time.
  rewrite take_digits_fixed by (cbn; lia). cbn [expect Ascii.eqb Bool.eqb].
  rewrite take_digits_fixed by (cbn; lia). cbn [expect Ascii.eqb Bool.eqb].
  rewrite !Z.mul_0_l, !Z.add_0_l.
  destruct (Z.eqb_spec (microsecond d) 0) as [Hus|Hus].
  - rewrite take_digits_fixed by (cbn; lia).
    rewrite !Z.mul_0_l, !Z.add_0_l. unfold checked.
    replace (Datetime (year d) (month d) (day d) (hour d) (minute d) (second d) 0)
      with d by (destruct d; cbn in *; congruence).
    now rewrite Hv.
  - rewrite take_digits_fixed by (cbn; lia). cbn [expect Ascii.eqb Bool.eqb].
    unfold parse_fraction. rewrite length_digits_fixed.
    rewrite <- (app_nil_r (digits_fixed 6 (microsecond d))).
    rewrite take_digits_fixed by (cbn; lia).
    rewrite !Z.mul_0_l, !Z.add_0_l. unfold checked.
    replace (Datetime (year d) (month d) (day d) (hour d) (minute d) (second d)
               (microsecond d))
      with d by now destruct d.
    now rewrite Hv.
Qed.

(** ** Datetimes: [d + timedelta] is a valid datetime *)

Lemma month_day_valid (n : Z) (leapyear : bool) :
  0 <= n <= 364 ->
  1 <= fst (month_day n leapyear) <= 12
  /\ 1 <= snd (month_day n leapyear)
       <= month_length leapyear (fst (month_day n leapyear)).
Proof.
  intros Hn.
  assert (Hall : forallb (fun k =>
            let md := month_day (Z.of_nat k) leapyear in
            (1 <=? fst md) && (fst md <=? 12) && (1 <=? snd md)
            && (snd md <=? month_length leapyear (fst md))) (seq 0 365) = true)
    by (destruct leapyear; vm_compute; reflexivity).
  rewrite forallb_forall in Hall.
  specialize (Hall (Z.to_nat n)). rewrite Z2Nat.id in Hall by lia.
  cbv zeta in Hall. rewrite !andb_true_iff, !Z.leb_le in Hall.
  assert (Hin : List.In (Z.to_nat n) (seq 0 365)) by (apply in_seq; lia).
  specialize (Hall Hin). lia.
Qed.

Lemma is_leap_cycle (q n100 n4 n1 : Z) :
  0 <= n100 <= 3 -> 0 <= n4 <= 24 -> 0 <= n1 <= 3 ->
  is_leap (q * 400 + 1 + n100 * 100 + n4 * 4 + n1)
  = (n1 =? 3) && (negb (n4 =? 24) || (n100 =? 3)).
Proof.
  intros H100 H4 H1. unfold is_leap.
  set (y := q * 400 + 1 + n100 * 100 + n4 * 4 + n1).
  pose proof (Z.div_mod y 4 ltac:(lia)) as E4.
  pose proof (Z.mod_pos_bound y 4 ltac:(lia)) as B4.
  pose proof (Z.div_mod y 100 ltac:(lia)) as E100.
  pose proof (Z.mod_pos_bound y 100 ltac:(lia)) as B100.
  pose proof (Z.div_mod y 400 ltac:(lia)) as E400.
  pose proof (Z.mod_pos_bound y 400 ltac:(lia)) as B400.
  subst y.
  destruct (Z.eqb_spec (((q * 400 + 1 + n100 * 100 + n4 * 4 + n1)) mod 4) 0);
  destruct (Z.eqb_spec (((q * 400 + 1 + n100 * 100 + n4 * 4 + n1)) mod 100) 0);
  destruct (Z.eqb_spec (((q * 400 + 1 + n100 * 100 + n4 * 4 + n1)) mod 400) 0);
  destruct (Z.eqb_spec n1 3); destruct (Z.eqb_spec n4 24);
  destruct (Z.eqb_spec n100 3); cbn; try reflexivity; exfalso; lia.
Qed.

Lemma ord2ymd_valid (n : Z) :
  0 < n <= 3652059 ->
  1 <= fst (fst (ord2ymd n)) <= 9999
  /\ 1 <= snd (fst (ord2ymd n)) <= 12
  /\ 1 <= snd (ord2ymd n)
       <= days_in_month (fst (fst (ord2ymd n))) (snd (fst (ord2ymd n))).
Proof.
  intros Hn. unfold ord2ymd. cbv zeta.
  pose proof (Z.div_mod (n - 1) 146097 ltac:(lia)) as E1.
  pose proof (Z.mod_pos_bound (n - 1) 146097 ltac:(lia)) as B1.
  set (q := (n - 1) / 146097) in *. set (r1 := (n - 1) mod 146097) in *.
  pose proof (Z.div_mod r1 36524 ltac:(lia)) as E2.
  pose proof (Z.mod_pos_bound r1 36524 ltac:(lia)) as B2.
  set (n100 := r1 / 36524) in *. set (r2 := r1 mod 36524) in *.
  pose proof (Z.div_mod r2 1461 ltac:(lia)) as E3.
  pose proof (Z.mod_pos_bound r2 1461 ltac:(lia)) as B3.
  set (n4 := r2 / 1461) in *. set (r3 := r2 mod 1461) in *.
  pose proof (Z.div_mod r3 365 ltac:(lia)) as E4.
  pose proof (Z.mod_pos_bound r3 365 ltac:(lia)) as B4.
  set (n1 := r3 / 365) in *. set (r4 := r3 mod 365) in *.
  clearbody q r1 n100 r2 n4 r3 n1 r4.
  assert (Hdec : forall y, days_in_month y 12 = 31)
    by (intros y; unfold days_in_month; now destruct (is_leap y)).
  destruct (Z.eqb_spec n1 4) as [H1|H1]; destruct (Z.eqb_spec n100 4) as [H100|H100];
    cbn [orb fst snd];
    try (rewrite Hdec; repeat split; lia).
  assert (Hq : 0 <= q) by lia.
  assert (Hn100 : 0 <= n100 <= 3) by lia.
  assert (Hn4 : 0 <= n4 <= 24) by lia.
  assert (Hn1 : 0 <= n1 <= 3) by lia.
  pose proof (month_day_valid r4
                ((n1 =? 3) && (negb (n4 =? 24) || (n100 =? 3))) ltac:(lia)) as Hmd.
  destruct (month_day r4 ((n1 =? 3) && (negb (n4 =? 24) || (n100 =? 3))))
    as [m d] eqn:Emd.
  cbn [fst snd] in *. unfold days_in_month.
  rewrite is_leap_cycle by assumption.
  repeat split; try lia.
Qed.

Lemma add_hours_valid (d d' : datetime) (h : Z) :
  valid_datetime d = true -> add_hours d h = Some d' -> valid_datetime d' = true.
Proof.
  intros Hv. pose proof (valid_datetime_bounds d Hv) as Hb.
  unfold add_hours. cbv zeta.
  destruct (_ <? _); [discriminate|].
  set (total := hour d * 3600 + minute d * 60 + second d + h * 3600).
  destruct (Z.ltb_spec 0 (toordinal d + total / 86400)) as [H0|]; [|discriminate].
  destruct (Z.leb_spec (toordinal d + total / 86400) 3652059) as [H1|];
    [|discriminate].
  cbn [andb].
  pose proof (ord2ymd_valid (toordinal d + total / 86400) ltac:(lia)) as Hymd.
  destruct (ord2ymd (toordinal d + total / 86400)) as [[y m] dd].
  cbn [fst snd] in Hymd. intros [= <-].
  pose proof (Z.mod_pos_bound total 86400 ltac:(lia)) as Hs.
  set (secs := total mod 86400) in *. clearbody secs.
  pose proof (Z.div_mod secs 3600 ltac:(lia)) as E1.
  pose proof (Z.mod_pos_bound secs 3600 ltac:(lia)) as B1.
  pose proof (Z.div_mod (secs mod 3600) 60 ltac:(lia)) as E2.
  pose proof (Z.mod_pos_bound (secs mod 3600) 60 ltac:(lia)) as B2.
  pose proof (Z.mod_pos_bound secs 60 ltac:(lia)) as B3.
  unfold valid_datetime. cbn [year month day hour minute second microsecond].
  rewrite !andb_true_iff, !Z.leb_le. repeat split; lia.
Qed.

(** ** Programs and their runs *)

#[local] Arguments json_dumps : simpl never.
#[local] Arguments HashingService.generate_short_code : simpl never.
#[local] Arguments utf8_encode : simpl never.
#[local] Arguments utf8_decode : simpl never.
#[local] Arguments isoformat : simpl never.
#[local] Arguments fromisoformat : simpl never.
#[local] Arguments hex : simpl never.
#[local] Arguments add_hours : simpl never.
#[local] Arguments valid_datetime : simpl never.
#[local] Arguments datetime_gtb : simpl never.
#[local] Arguments LinkRepository.key_of : simpl never.
#[local] Arguments LinkRepository.parse_stored : simpl never.
#[local] Arguments Z.pow : simpl never.

Lemma replay_ret {A} (a b : A) (tr : list Event) :
  replay (Ret a) tr = Some b <-> tr = [] /\ b = a.
Proof.
  destruct tr as [|e tr]; cbn.
  - split; [intros [= ->] | intros [_ ->]]; auto.
  - split; [discriminate | intros [[=] _]].
Qed.

Lemma replay_utcnow {A} (k : datetime -> Prog A) (tr : list Event) (a : A) :
  replay (Utcnow k) tr = Some a <->
  exists now tr', tr = EUtcnow now :: tr' /\ valid_datetime now = true
                  /\ replay (k now) tr' = Some a.
Proof.
  split.
  - destruct tr as [|[] tr]; try discriminate. cbn.
    destruct (valid_datetime now) eqn:E; [|discriminate]. eauto.
  - intros (now & tr' & -> & Hv & H). cbn. now rewrite Hv.
Qed.

Lemma replay_time {A} (k : Z -> Prog A) (tr : list Event) (a : A) :
  replay (TimeTime k) tr = Some a <->
  exists t tr', tr = ETimeTime t :: tr' /\ 0 <= t < 2 ^ 64
                /\ replay (k t) tr' = Some a.
Proof.
  split.
  - destruct tr as [|[] tr]; try discriminate. cbn.
    destruct (Z.leb_spec 0 t); [|discriminate].
    destruct (Z.ltb_spec t (2 ^ 64)); [|discriminate]. cbn. eauto 6.
  - intros (t & tr' & -> & [H0 H1] & H). cbn.
    apply Z.leb_le in H0. apply Z.ltb_lt in H1. now rewrite H0, H1.
Qed.

Lemma replay_urandom {A} (n : Z) (k : bytes -> Prog A) (tr : list Event) (a : A) :
  replay (Urandom n k) tr = Some a <->
  exists b tr', tr = EUrandom n b :: tr' /\ Z.of_nat (List.length b) = n
                /\ replay (k b) tr' = Some a.
Proof.
  split.
  - destruct tr as [|[] tr]; try discriminate. cbn.
    destruct (Z.eqb_spec n n0); [subst|discriminate].
    destruct (Z.eqb_spec (Z.of_nat (List.length b)) n0); [|discriminate]. cbn. eauto 6.
  - intros (b & tr' & -> & Hb & H). cbn.
    rewrite Z.eqb_refl. apply Z.eqb_eq in Hb. now rewrite Hb.
Qed.

Lemma replay_setex {A} (key : string) (sec : Z) (v : string)
    (k : redis_reply unit -> Prog A) (tr : list Event) (a : A) :
  replay (RedisSetex key sec v k) tr = Some a <->
  exists r tr', tr = ESetex key sec v r :: tr' /\ replay (k r) tr' = Some a.
Proof.
  split.
  - destruct tr as [|[] tr]; try discriminate. cbn.
    destruct (String.eqb_spec key key0); [subst|discriminate].
    destruct (Z.eqb_spec sec seconds); [subst|discriminate].
    destruct (String.eqb_spec v value); [subst|discriminate]. cbn. eauto.
  - intros (r & tr' & -> & H). cbn.
    now rewrite !String.eqb_refl, Z.eqb_refl.
Qed.

Lemma replay_get {A} (key : string) (k : redis_reply (option bytes) -> Prog A)
    (tr : list Event) (a : A) :
  replay (RedisGet key k) tr = Some a <->
  exists r tr', tr = EGet key r :: tr' /\ replay (k r) tr' = Some a.
Proof.
  split.
  - destruct tr as [|[] tr]; try discriminate. cbn.
    destruct (String.eqb_spec key key0); [subst|discriminate]. eauto.
  - intros (r & tr' & -> & H). cbn. now rewrite String.eqb_refl.
Qed.

Lemma replay_delete {A} (key : string) (k : redis_reply Z -> Prog A)
    (tr : list Event) (a : A) :
  replay (RedisDelete key k) tr = Some a <->
  exists r tr', tr = EDelete key r :: tr' /\ replay (k r) tr' = Some a.
Proof.
  split.
  - destruct tr as [|[] tr]; try discriminate. cbn.
    destruct (String.eqb_spec key key0); [subst|discriminate]. eauto.
  - intros (r & tr' & -> & H). cbn. now rewrite String.eqb_refl.
Qed.

Lemma replay_exists {A} (key : string) (k : redis_reply Z -> Prog A)
    (tr : list Event) (a : A) :
  replay (RedisExists key k) tr = Some a <->
  exists r tr', tr = EExists key r :: tr' /\ replay (k r) tr' = Some a.
Proof.
  split.
  - destruct tr as [|[] tr]; try discriminate. cbn.
    destruct (String.eqb_spec key key0); [subst|discriminate]. eauto.
  - intros (r & tr' & -> & H). cbn. now rewrite String.eqb_refl.
Qed.

(** A run of [bind p f] is a run of [p] followed by a run of [f]. *)
Lemma replay_bind {A B} (p : Prog A) (f : A -> Prog B) (tr : list Event) (b : B) :
  replay (bind p f) tr = Some b <->
  exists a tr1 tr2, tr = tr1 ++ tr2 /\ replay p tr1 = Some a
                    /\ replay (f a) tr2 = Some b.
Proof.
  revert tr.
  induction p as [a | k IH | k IH | n k IH | key sec v k IH | key k IH
                  | key k IH | key k IH]; intros tr; cbn [bind].
  - split.
    + intros H. exists a, [], tr. repeat split; assumption.
    + intros (a' & tr1 & tr2 & -> & H1 & H2).
      apply replay_ret in H1 as [-> ->]. assumption.
  - rewrite replay_utcnow. split.
    + intros (x & tr' & -> & Hv & H). apply IH in H as (a & tr1 & tr2 & -> & H1 & H2).
      exists a, (EUtcnow x :: tr1), tr2. repeat split; [|assumption].
      apply replay_utcnow. eauto 6.
    + intros (a & tr1 & tr2 & -> & H1 & H2).
      apply replay_utcnow in H1 as (x & tr' & -> & Hv & H1).
      exists x, (tr' ++ tr2). repeat split; [assumption|]. apply IH. eauto 6.
  - rewrite replay_time. split.
    + intros (x & tr' & -> & Hv & H). apply IH in H as (a & tr1 & tr2 & -> & H1 & H2).
      exists a, (ETimeTime x :: tr1), tr2. repeat split; [|assumption].
      apply replay_time. eauto 6.
    + intros (a & tr1 & tr2 & -> & H1 & H2).
      apply replay_time in H1 as (x & tr' & -> & Hv & H1).
      exists x, (tr' ++ tr2). repeat split; try apply Hv. apply IH. eauto 6.
  - rewrite replay_urandom. split.
    + intros (x & tr' & -> & Hv & H). apply IH in H as (a & tr1 & tr2 & -> & H1 & H2).
      exists a, (EUrandom n x :: tr1), tr2. repeat split; [|assumption].
      apply replay_urandom. eauto 6.
    + intros (a & tr1 & tr2 & -> & H1 & H2).
      apply replay_urandom in H1 as (x & tr' & -> & Hv & H1).
      exists x, (tr' ++ tr2). repeat split; [assumption|]. apply IH. eauto 6.
  - rewrite replay_setex. split.
    + intros (x & tr' & -> & H). apply IH in H as (a & tr1 & tr2 & -> & H1 & H2).
      exists a, (ESetex key sec v x :: tr1), tr2. repeat split; [|assumption].
      apply replay_setex. eauto.
    + intros (a & tr1 & tr2 & -> & H1 & H2).
      apply replay_setex in H1 as (x & tr' & -> & H1).
      exists x, (tr' ++ tr2). split; [reflexivity|]. apply IH. eauto 6.
  - rewrite replay_get. split.
    + intros (x & tr' & -> & H). apply IH in H as (a & tr1 & tr2 & -> & H1 & H2).
      exists a, (EGet key x :: tr1), tr2. repeat split; [|assumption].
      apply replay_get. eauto.
    + intros (a & tr1 & tr2 & -> & H1 & H2).
      apply replay_get in H1 as (x & tr' & -> & H1).
      exists x, (tr' ++ tr2). split; [reflexivity|]. apply IH. eauto 6.
  - rewrite replay_delete. split.
    + intros (x & tr' & -> & H). apply IH in H as (a & tr1 & tr2 & -> & H1 & H2).
      exists a, (EDelete key x :: tr1), tr2. repeat split; [|assumption].
      apply replay_delete. eauto.
    + intros (a & tr1 & tr2 & -> & H1 & H2).
      apply replay_delete in H1 as (x & tr' & -> & H1).
      exists x, (tr' ++ tr2). split; [reflexivity|]. apply IH. eauto 6.
  - rewrite replay_exists. split.
    + intros (x & tr' & -> & H). apply IH in H as (a & tr1 & tr2 & -> & H1 & H2).
      exists a, (EExists key x :: tr1), tr2. repeat split; [|assumption].
      apply replay_exists. eauto.
    + intros (a & tr1 & tr2 & -> & H1 & H2).
      apply replay_exists in H1 as (x & tr' & -> & H1).
      exists x, (tr' ++ tr2). split; [reflexivity|]. apply IH. eauto 6.
Qed.

(** A program that returns at once leaves every environment as it was. *)
Lemma run_ret {S A} (h : Handler S) (a : A) (s : S) : run h (Ret a) s = (a, s).
Proof. reflexivity. Qed.

(** ** [generate_link] *)

Section Generate.
Context {floats : PyFloat} {cipher : Fernet} {local_time : LocalTime}.

(** One turn of the collision loop. *)
Lemma collision_loop_step (fuel : nat) (blob : bytes) (now : datetime)
    (code : string) (attempt : Z) (tr : list Event) (x : string * Z) :
  replay (LinkController.collision_loop fuel blob now code attempt) tr = Some x
  <->
  exists r tr',
    tr = EExists (LinkRepository.key_of code) r :: tr'
    /\ replay
         (if reply_truth r && (attempt <? LinkController.max_attempts) then
            match fuel with
            | O => Ret (code, attempt)
            | S fuel =>
                LinkController.collision_loop fuel blob now (rederived blob now)
                  (attempt + 1)
            end
          else Ret (code, attempt)) tr' = Some x.
Proof.
  destruct fuel;
    cbn [LinkController.collision_loop LinkRepository.exists_ bind];
    rewrite replay_exists;
    split; intros (r & tr' & -> & H); exists r, tr'; (split; [reflexivity|]);
    destruct r; exact H.
Qed.

(** The loop never runs out of fuel: with [max_attempts - attempt] turns
    left, more fuel changes nothing. *)
Lemma collision_loop_fuel (fuel : nat) (blob : bytes) (now : datetime)
    (code : string) (attempt : Z) (tr : list Event) (x : string * Z) :
  LinkController.max_attempts - attempt <= Z.of_nat fuel ->
  replay (LinkController.collision_loop (S fuel) blob now code attempt) tr = Some x
  <-> replay (LinkController.collision_loop fuel blob now code attempt) tr = Some x.
Proof.
  revert code attempt tr. unfold LinkController.max_attempts.
  induction fuel as [|fuel IH]; intros code attempt tr Hfuel;
    rewrite !collision_loop_step; unfold LinkController.max_attempts;
    split; intros (r & tr' & -> & H); exists r, tr'; (split; [reflexivity|]);
    destruct (reply_truth r); cbn [andb] in *; try exact H;
    destruct (Z.ltb_spec attempt 5); try exact H; try lia;
    apply IH; try exact H; lia.
Qed.

(** The shape of a run of the loop: one probe of the first code, then
    probes of the code derived again, all but the last answered true. *)
Lemma collision_loop_replay (fuel : nat) (blob : bytes) (now : datetime)
    (code : string) (attempt : Z) (tr : list Event) (c : string) (a : Z) :
  0 <= attempt <= 5 -> 5 - attempt <= Z.of_nat fuel ->
  replay (LinkController.collision_loop fuel blob now code attempt) tr
  = Some (c, a) ->
  exists r0 rs last,
    tr = probes code (rederived blob now) r0 rs
    /\ List.map reply_truth (r0 :: rs) = repeat true (List.length rs) ++ [last]
    /\ a = attempt + Z.of_nat (List.length rs) /\ a <= 5
    /\ (last = true -> a = 5)
    /\ c = match rs with [] => code | _ => rederived blob now end.
Proof.
  revert code attempt tr.
  induction fuel as [|fuel IH]; intros code attempt tr Ha Hfuel Hrun;
    apply collision_loop_step in Hrun as (r0 & tr' & -> & Hrun);
    unfold LinkController.max_attempts in Hrun;
    destruct (reply_truth r0) eqn:Hr0; cbn [andb] in Hrun;
    destruct (Z.ltb_spec attempt 5) as [Hlt|Hge]; try lia;
    try (apply replay_ret in Hrun as [-> [= -> ->]];
         exists r0, [], (reply_truth r0); cbn [List.map List.length repeat app probes];
         rewrite Hr0; repeat split; try lia; (intros; lia || discriminate)).
  apply IH in Hrun as (r1 & rs & last & -> & Hans & -> & Hle & Hlast & ->);
    [|lia|lia].
  exists r0, (r1 :: rs), last. cbn [List.map List.length repeat app probes] in *.
  rewrite Hr0, Hans. repeat split; try lia.
  - intros H. specialize (Hlast H). lia.
  - now destruct rs.
Qed.

(** Every run of [generate_link] has one of the shapes of
    [generate_run]. *)
Lemma generate_link_runs (self : LinkController.t) (request : LinkGenerateRequest)
    (authorization : option string) (tr : list Event)
    (r : result LinkGenerateResponse) :
  replay (LinkController.generate_link self request authorization) tr = Some r ->
  generate_run self request authorization tr r.
Proof.
  unfold LinkController.generate_link.
  destruct (LinkController.missing (LinkController.extract_token authorization))
    eqn:Hm.
  { intros H. apply replay_ret in H as [-> ->]. now constructor. }
  destruct (LinkController.extract_token authorization) as [token|] eqn:Htok;
    [|discriminate].
  cbn [LinkController.missing] in Hm. apply String.eqb_neq in Hm.
  intros H. apply replay_utcnow in H as (now & tr' & -> & Hv & H).
  destruct (add_hours now (LinkController.expiration_hours self))
    as [expires|] eqn:Hadd.
  2:{ apply replay_ret in H as [-> ->]. econstructor; eassumption. }
  apply replay_bind in H as (res & tr1 & tr2 & -> & H1 & H2).
  unfold EncryptionService.encrypt in H1.
  apply replay_time in H1 as (t & tr1' & -> & Ht & H1).
  apply replay_urandom in H1 as (iv & tr1'' & -> & Hiv & H1).
  fold (record_of request token now expires) in H1.
  destruct (encrypt_from_parts
              (utf8_encode (json_dumps (record_of request token now expires)))
              t iv) as [blob|e] eqn:Henc;
    apply replay_ret in H1 as [-> ->].
  2:{ apply replay_ret in H2 as [-> ->]. cbn [app].
      eapply run_encrypt_failed; try eassumption. lia. }
  apply replay_bind in H2 as ([code attempt] & trp & trs & -> & Hloop & Hrest).
  apply collision_loop_replay in Hloop
    as (r0 & rs & last & -> & Hans & -> & Hle & Hlast & ->);
    [|lia | unfold LinkController.max_attempts; lia].
  cbn [app]. eapply run_probed with (last := last); try eassumption;
    try reflexivity; try lia.
  - intros Hl. specialize (Hlast Hl). lia.
  - unfold LinkController.max_attempts in Hrest.
    destruct (Z.leb_spec 5 (0 + Z.of_nat (List.length rs))) as [Hfive|Hless].
    + apply replay_ret in Hrest as [-> ->].
      replace (List.length rs) with 5%nat by lia. constructor.
    + apply replay_bind in Hrest as (s & trs1 & trs2 & -> & Hsave & Hrest).
      unfold LinkRepository.save in Hsave.
      apply replay_setex in Hsave as (reply & trs1' & -> & Hsave).
      destruct reply as [u|msg]; apply replay_ret in Hsave as [-> ->];
        apply replay_ret in Hrest as [-> ->]; cbn [app].
      * apply run_saved. lia.
      * apply run_save_failed. lia.
Qed.

Lemma collision_loop_complete (rs : list (redis_reply Z)) :
  forall (fuel : nat) (blob : bytes) (now : datetime) (code : string)
         (attempt : Z) (r0 : redis_reply Z) (last : bool),
  0 <= attempt -> attempt + Z.of_nat (List.length rs) <= 5 ->
  5 - attempt <= Z.of_nat fuel ->
  List.map reply_truth (r0 :: rs) = repeat true (List.length rs) ++ [last] ->
  (last = true -> attempt + Z.of_nat (List.length rs) = 5) ->
  replay (LinkController.collision_loop fuel blob now code attempt)
         (probes code (rederived blob now) r0 rs)
  = Some (match rs with [] => code | _ => rederived blob now end,
          attempt + Z.of_nat (List.length rs)).
Proof.
  induction rs as [|r1 rs IH]; intros fuel blob now code attempt r0 last
    Ha Hn Hfuel Hans Hlast; apply collision_loop_step;
    exists r0; eexists; (split; [reflexivity|]);
    unfold LinkController.max_attempts;
    cbn [List.map List.length repeat app] in *.
  - injection Hans as Hr0. rewrite Hr0.
    destruct last; cbn [andb].
    + specialize (Hlast eq_refl). destruct (Z.ltb_spec attempt 5); [lia|].
      apply replay_ret. split; [reflexivity|]. f_equal. lia.
    + apply replay_ret. split; [reflexivity|]. f_equal. lia.
  - injection Hans as Hr0 Hans. rewrite Hr0. cbn [andb].
    destruct (Z.ltb_spec attempt 5); [|lia].
    destruct fuel as [|fuel]; [lia|].
    pose proof (IH fuel blob now (rederived blob now) (attempt + 1) r1 last)
      as HIH.
    unfold probes in HIH. cbn [List.map]. rewrite HIH; try lia; try assumption.
    + f_equal. f_equal; [now destruct rs | lia].
    + intros H'. specialize (Hlast H'). lia.
Qed.

(** Conversely, every shape of [generate_run] is a run. *)
Lemma generate_run_replays (self : LinkController.t) (request : LinkGenerateRequest)
    (authorization : option string) (tr : list Event)
    (r : result LinkGenerateResponse) :
  generate_run self request authorization tr r ->
  replay (LinkController.generate_link self request authorization) tr = Some r.
Proof.
  unfold LinkController.generate_link.
  intros [Hm | token now Htok Hne Hv Hadd
          | token now expires t iv e Htok Hne Hv Hadd Hiv Ht Henc
          | token now expires t iv blob r0 rs last code tail r' Htok Hne Hv Hadd
              Hiv Ht Henc Hans Hlast Hcode Htail].
  - now rewrite Hm.
  - rewrite Htok. apply String.eqb_neq in Hne. cbn [LinkController.missing].
    rewrite Hne. apply replay_utcnow. exists now, []. rewrite Hadd. auto.
  - rewrite Htok. apply String.eqb_neq in Hne. cbn [LinkController.missing].
    rewrite Hne. apply replay_utcnow. eexists now, _. rewrite Hadd.
    repeat split; [assumption|].
    apply replay_bind. eexists _, [ETimeTime t; EUrandom 16 iv], [].
    repeat split.
    + unfold EncryptionService.encrypt. apply replay_time. eexists t, _.
      repeat split; try apply Ht. apply replay_urandom. eexists iv, _.
      repeat split; [lia|]. fold (record_of request token now expires).
      rewrite Henc. reflexivity.
    + reflexivity.
  - rewrite Htok. apply String.eqb_neq in Hne. cbn [LinkController.missing].
    rewrite Hne. apply replay_utcnow. eexists now, _. rewrite Hadd.
    repeat split; [assumption|].
    apply replay_bind. eexists _, [ETimeTime t; EUrandom 16 iv], _.
    repeat split.
    + unfold EncryptionService.encrypt. apply replay_time. eexists t, _.
      repeat split; try apply Ht. apply replay_urandom. eexists iv, _.
      repeat split; [lia|]. fold (record_of request token now expires).
      rewrite Henc. reflexivity.
    + assert (Hn : (List.length rs <= 5)%nat) by (inversion Htail; lia).
      apply replay_bind. eexists _, _, tail. repeat split.
      * apply (collision_loop_complete rs) with (last := last);
          try assumption; try lia.
        -- unfold LinkController.max_attempts. lia.
        -- intros Hl. specialize (Hlast Hl). lia.
      * rewrite <- Hcode. unfold LinkController.max_attempts.
        inversion Htail as [Hfive | n msg Hlt | n u Hlt]; subst tail r'.
        -- reflexivity.
        -- destruct (Z.leb_spec 5 (0 + Z.of_nat (List.length rs))); [lia|].
           unfold LinkRepository.save, stored_value, metadata_of.
           cbn [bind replay]. now rewrite !String.eqb_refl, Z.eqb_refl.
        -- destruct (Z.leb_spec 5 (0 + Z.of_nat (List.length rs))); [lia|].
           unfold LinkRepository.save, stored_value, metadata_of.
           cbn [bind replay]. now rewrite !String.eqb_refl, Z.eqb_refl.
Qed.

End Generate.

(** ** The test platform keeps the promises of the cipher *)

Lemma test_cipher_laws : FernetLaws TestPlatform.cipher.
Proof.
  split; cbn [encrypt_from_parts fernet_decrypt TestPlatform.cipher];
    unfold TestPlatform.seal, TestPlatform.unseal.
  - intros data t iv Hiv [H0 H1]. rewrite Hiv.
    apply Z.leb_le in H0. apply Z.ltb_lt in H1. rewrite H0, H1. cbn. eauto.
  - intros data t iv token.
    destruct (Nat.eqb_spec (List.length iv) 16) as [Hiv|]; [|discriminate].
    destruct (_ && _); [|discriminate]. intros [= <-].
    change (byte_to_Z x80 =? 128) with true. cbn [andb List.length skipn].
    rewrite List.length_app, Hiv. cbn [Nat.leb Nat.add].
    rewrite List.skipn_app, Hiv, List.skipn_all2 by lia. reflexivity.
Qed.

(** ** Claims *)

(** C7. For every byte sequence [b], the short code derived with
    [max_length = 8] is the unpadded URL-safe base64 of the first bytes of
    the SHA-256 digest of [b], cut to 8 characters; it has at most 8
    characters, all of them letters, digits, [-] or [_]; and equal inputs
    give equal codes. *)
Theorem generate_short_code_spec (b b' : bytes) :
  b = b' ->
  let code := HashingService.generate_short_code b 8 in
  code = derive_spec b
  /\ (String.length code <= 8)%nat
  /\ forallb is_urlsafe (chars code) = true
  /\ HashingService.generate_short_code b' 8 = code.
Proof.
  intros <-. cbv zeta. rewrite generate_short_code_derive_spec.
  unfold derive_spec. repeat split.
  - rewrite length_str, List.length_firstn. lia.
  - rewrite chars_str. apply forallb_forall. intros c Hc.
    pose proof (b64url_nopad_chars (firstn 8 (SHA256.digest b))) as Hall.
    rewrite List.Forall_forall in Hall.
    apply In_firstn, Hall in Hc. tauto.
Qed.

Lemma generate_short_code_spec_witness :
  Fixture.ascii_bytes "abc" = Fixture.ascii_bytes "abc"
  /\ HashingService.generate_short_code (Fixture.ascii_bytes "abc") 8 = "ungWv48B".
Proof.
  split; [reflexivity|].
  destruct (generate_short_code_spec (Fixture.ascii_bytes "abc")
              (Fixture.ascii_bytes "abc") eq_refl) as (-> & _).
  vm_compute. reflexivity.
Defined.

(** The digest has 32 bytes, so the code has exactly 8 characters. *)
Lemma generate_short_code_length (b : bytes) :
  String.length (HashingService.generate_short_code b 8) = 8%nat.
Proof.
  rewrite generate_short_code_derive_spec.
  unfold derive_spec. rewrite length_str.
  pose proof (sha256_digest_length b) as Hd.
  destruct (SHA256.digest b) as [|b0 [|b1 [|b2 [|b3 [|b4 [|b5 [|b6 [|b7 r]]]]]]]];
    try discriminate Hd.
  reflexivity.
Qed.

Section Claims.
Context {floats : PyFloat} {cipher : Fernet} {local_time : LocalTime}.

(** C4. For every payload, [generate_link] with an absent or empty
    credential (no Authorization header, an empty one, or a bare
    [Bearer ] prefix) raises the 401 error, and does so without a single
    call to the store, the cipher or the clock: its only run is the
    empty one and it leaves every environment unchanged. *)
Theorem generate_link_missing_credential (self : LinkController.t)
    (request : LinkGenerateRequest) (authorization : option string) :
  authorization = None \/ authorization = Some EmptyString
  \/ authorization = Some "Bearer " ->
  LinkController.generate_link self request authorization
  = Ret (Raise (HTTPException 401 "Authorization token is required"))
  /\ (forall tr r,
        replay (LinkController.generate_link self request authorization) tr
        = Some r -> tr = [])
  /\ (forall S (h : Handler S) (s : S),
        run h (LinkController.generate_link self request authorization) s
        = (Raise (HTTPException 401 "Authorization token is required"), s)).
Proof.
  intros Hauth.
  assert (E : LinkController.generate_link self request authorization
              = Ret (Raise (HTTPException 401 "Authorization token is required")))
    by (destruct Hauth as [-> | [-> | ->]]; reflexivity).
  rewrite E. repeat split.
  - intros tr r H. now apply replay_ret in H.
Qed.

(** What the cipher made of the dump of a value decrypts to the value. *)
Lemma decrypt_token (laws : FernetLaws cipher) (r : json) (t : Z)
    (iv token : bytes) :
  wf_json r = true ->
  encrypt_from_parts (utf8_encode (json_dumps r)) t iv = Return token ->
  EncryptionService.decrypt token = Some r.
Proof.
  intros Hwf Henc. unfold EncryptionService.decrypt.
  rewrite (decrypt_encrypt _ _ _ _ Henc), utf8_decode_json_dumps by assumption.
  now apply json_loads_dumps.
Qed.

(** C5, amended.  For every record [r] that holds no NaN and no
    string in which a surrogate pair stands as two code points (so for
    every payload of [None], booleans, integers, floats, strings of any
    characters, lists and dicts, with the credential and the timestamp
    strings), [encrypt] returns a ciphertext on every reading of the
    time and the random source, and [decrypt] of that ciphertext is [r]
    again: the same keys in the same order, the same nesting, every
    scalar of the same type and value, and equal to [r] by [==]. *)
Theorem decrypt_encrypt_roundtrip (laws : FernetLaws cipher) (r : json) :
  wf_json r = true -> no_nan r = true ->
  (forall t iv, 0 <= t < 2 ^ 64 -> List.length iv = 16%nat ->
     exists blob,
       replay (EncryptionService.encrypt r) [ETimeTime t; EUrandom 16 iv]
       = Some (Return blob))
  /\ (forall tr blob,
        replay (EncryptionService.encrypt r) tr = Some (Return blob) ->
        exists r',
          EncryptionService.decrypt blob = Some r'
          /\ r' = r /\ py_eq r' r = true).
Proof.
  intros Hwf Hnan. unfold EncryptionService.encrypt. split.
  - intros t iv Ht Hiv.
    destruct (encrypt_succeeds (utf8_encode (json_dumps r)) t iv Hiv Ht)
      as [blob Hblob].
    exists blob. apply replay_time. eexists t, _. repeat split; try apply Ht.
    apply replay_urandom. eexists iv, _. repeat split; [lia|].
    now rewrite Hblob.
  - intros tr blob H.
    apply replay_time in H as (t & tr' & -> & Ht & H).
    apply replay_urandom in H as (iv & tr'' & -> & Hiv & H).
    destruct (encrypt_from_parts (utf8_encode (json_dumps r)) t iv)
      as [token|e] eqn:Henc; apply replay_ret in H as [-> [= <-]].
    exists r. repeat split.
    + now apply (decrypt_token laws r t iv).
    + now apply py_eq_refl.
Qed.

End Claims.

Lemma decrypt_encrypt_roundtrip_witness :
  let r := JDict [("data", JDict [("a", JInt 1);
                                  ("price", JFloat (Finite "1.5"));
                                  ("big", JFloat Infinity);
                                  ("name", JStr (str (code_point_chars 8364
                                                      ++ code_point_chars 128512)))]);
                  ("token", JStr "tok");
                  ("encrypted_at", JStr "2024-01-15T10:30:00.250000");
                  ("expires_at", JStr "2024-01-15T11:30:00.250000")] in
  @wf_json TestPlatform.floats r = true /\ no_nan r = true
  /\ exists r',
       @EncryptionService.decrypt TestPlatform.floats TestPlatform.cipher
         (Fixture.sealed r) = Some r'
       /\ r' = r /\ @py_eq TestPlatform.floats r' r = true.
Proof.
  intros r. split; [reflexivity|]. split; [reflexivity|].
  destruct (@decrypt_encrypt_roundtrip TestPlatform.floats TestPlatform.cipher
              test_cipher_laws r eq_refl eq_refl)
    as [_ Hdec].
  apply (Hdec [ETimeTime Fixture.unix_now; EUrandom 16 Fixture.iv]).
  vm_compute. reflexivity.
Defined.

(** C5 as it stands fails on two kinds of records: one that holds a NaN,
    which [decrypt] gives back in its place and [==] tells from itself;
    and one with a string in which a high and a low surrogate stand side
    by side, whose escapes [json.loads] reads as the one code point of
    the pair. *)
Lemma decrypt_encrypt_roundtrip_counterexample :
  let with_nan :=
    JDict [("data", JDict [("x", JFloat NaN)]); ("token", JStr "tok");
           ("encrypted_at", JStr "2024-01-15T10:30:00.250000");
           ("expires_at", JStr "2024-01-15T11:30:00.250000")] in
  let with_pair :=
    JDict [("data", JDict [("x", JStr (str (code_point_chars 55357
                                            ++ code_point_chars 56832)))]);
           ("token", JStr "tok");
           ("encrypted_at", JStr "2024-01-15T10:30:00.250000");
           ("expires_at", JStr "2024-01-15T11:30:00.250000")] in
  let joined :=
    JDict [("data", JDict [("x", JStr (str (code_point_chars 128512)))]);
           ("token", JStr "tok");
           ("encrypted_at", JStr "2024-01-15T10:30:00.250000");
           ("expires_at", JStr "2024-01-15T11:30:00.250000")] in
  (replay (@EncryptionService.encrypt TestPlatform.cipher with_nan)
     [ETimeTime Fixture.unix_now; EUrandom 16 Fixture.iv]
   = Some (Return (Fixture.sealed with_nan))
   /\ @EncryptionService.decrypt TestPlatform.floats TestPlatform.cipher
        (Fixture.sealed with_nan) = Some with_nan
   /\ @py_eq TestPlatform.floats with_nan with_nan = false)
  /\ (replay (@EncryptionService.encrypt TestPlatform.cipher with_pair)
        [ETimeTime Fixture.unix_now; EUrandom 16 Fixture.iv]
      = Some (Return (Fixture.sealed with_pair))
      /\ @EncryptionService.decrypt TestPlatform.floats TestPlatform.cipher
           (Fixture.sealed with_pair) = Some joined
      /\ joined <> with_pair
      /\ @py_eq TestPlatform.floats joined with_pair = false).
Proof.
  cbv zeta. repeat split; try (vm_compute; reflexivity).
  vm_compute. discriminate.
Qed.

Lemma generate_link_missing_credential_witness :
  (@None string = None \/ @None string = Some EmptyString
   \/ @None string = Some "Bearer ")
  /\ run world_handler
       (@LinkController.generate_link TestPlatform.cipher TestPlatform.local_time
          Fixture.controller Fixture.request None) Fixture.world
     = (Raise (HTTPException 401 "Authorization token is required"), Fixture.world).
Proof.
  split; [now left|].
  apply (@generate_link_missing_credential TestPlatform.cipher
           TestPlatform.local_time Fixture.controller Fixture.request None).
  now left.
Defined.

(** ** [validate_link] *)

Section Validate.
Context {floats : PyFloat} {cipher : Fernet}.

(** A stored entry that [get] can read: after the lookup, [validate_link]
    goes on with the ciphertext. *)
Lemma validate_link_found (self : LinkController.t) (code : string)
    (raw blob : bytes) (meta : json) (tr : list Event)
    (r : result LinkValidationResponse) :
  LinkRepository.parse_stored raw = Some (blob, meta) ->
  replay (LinkController.validate_link self code)
         (EGet (LinkRepository.key_of code) (Reply (Some raw)) :: tr) = Some r
  <->
  replay
    (let decrypted_data := EncryptionService.decrypt blob in
     if negb (LinkController.truthy_opt decrypted_data) then
       Ret (Return (LinkController.invalid "Link data is corrupted or invalid"))
     else
       match decrypted_data with
       | Some (JDict decrypted_data) =>
           let expires_at_str := dict_get "expires_at" decrypted_data in
           if LinkController.truthy_opt expires_at_str then
             match LinkController.fromisoformat_value expires_at_str with
             | Raise e => Ret (Raise e)
             | Return expires_at =>
                 Utcnow (fun now =>
                   if datetime_gtb now expires_at then
                     Ret (Return (LinkController.invalid "Link has expired"))
                   else Ret (LinkController.valid_response decrypted_data))
             end
           else Ret (LinkController.valid_response decrypted_data)
       | _ => Ret (Raise (PyError "AttributeError" "object has no attribute get"))
       end) tr = Some r.
Proof.
  intros Hparse.
  unfold LinkController.validate_link, LinkRepository.get.
  cbn [bind replay]. rewrite String.eqb_refl.
  destruct raw as [|b raw]; [vm_compute in Hparse; discriminate|].
  rewrite Hparse. reflexivity.
Qed.


(** C6. For every byte sequence that the cipher refuses under the
    process key, [decrypt] returns [None], so no data at all; and when
    such a sequence is what the store holds, [validate_link] returns the
    invalid response with the reason "Link data is corrupted or
    invalid". *)
Theorem decrypt_refuses_invalid_token (blob : bytes) :
  fernet_decrypt blob = None ->
  EncryptionService.decrypt blob = None
  /\ (forall (self : LinkController.t) (code : string) (raw : bytes) (meta : json),
        LinkRepository.parse_stored raw = Some (blob, meta) ->
        replay (LinkController.validate_link self code)
               [EGet (LinkRepository.key_of code) (Reply (Some raw))]
        = Some (Return {| valid := false; data := None; token := None;
                          encrypted_at := None;
                          error := Some "Link data is corrupted or invalid" |})).
Proof.
  intros Hbad.
  assert (Hdec : EncryptionService.decrypt blob = None)
    by (unfold EncryptionService.decrypt; now rewrite Hbad).
  split; [exact Hdec|].
  intros self code raw meta Hparse.
  apply (validate_link_found _ _ _ _ _ _ _ Hparse).
  now rewrite Hdec.
Qed.

(** A plaintext that is not UTF-8 or not JSON is refused in the same
    way. *)
Lemma decrypt_refuses_malformed_plaintext (blob plain : bytes) :
  fernet_decrypt blob = Some plain ->
  utf8_decode plain = None
  \/ (exists text, utf8_decode plain = Some text /\ json_loads text = None) ->
  EncryptionService.decrypt blob = None.
Proof.
  intros Hdec Hbad. unfold EncryptionService.decrypt. rewrite Hdec.
  destruct Hbad as [-> | (text & -> & ->)]; reflexivity.
Qed.

(** C10. If the ciphertext decrypts to the empty object (or to any
    other value that Python counts as false), [validate_link] returns
    the invalid response with the reason "Link data is corrupted or
    invalid": the very response, after the very same calls, that it
    gives for a ciphertext that fails to decrypt. *)
Theorem validate_link_empty_record (self : LinkController.t) (code : string)
    (raw blob : bytes) (meta record : json) :
  LinkRepository.parse_stored raw = Some (blob, meta) ->
  EncryptionService.decrypt blob = Some record ->
  record = JDict [] \/ truthy record = false ->
  replay (LinkController.validate_link self code)
         [EGet (LinkRepository.key_of code) (Reply (Some raw))]
  = Some (Return {| valid := false; data := None; token := None;
                    encrypted_at := None;
                    error := Some "Link data is corrupted or invalid" |})
  /\ (forall raw' blob' meta',
        LinkRepository.parse_stored raw' = Some (blob', meta') ->
        EncryptionService.decrypt blob' = None ->
        replay (LinkController.validate_link self code)
               [EGet (LinkRepository.key_of code) (Reply (Some raw'))]
        = replay (LinkController.validate_link self code)
                 [EGet (LinkRepository.key_of code) (Reply (Some raw))]).
Proof.
  intros Hparse Hdec Hfalse.
  assert (Hf : truthy record = false) by (destruct Hfalse as [-> | H]; auto).
  assert (Hrun : replay (LinkController.validate_link self code)
                   [EGet (LinkRepository.key_of code) (Reply (Some raw))]
                 = Some (Return (LinkController.invalid
                                   "Link data is corrupted or invalid"))).
  { apply (validate_link_found _ _ _ _ _ _ _ Hparse). rewrite Hdec.
    cbn [LinkController.truthy_opt]. now rewrite Hf. }
  split; [exact Hrun|].
  intros raw' blob' meta' Hparse' Hdec'. rewrite Hrun.
  apply (validate_link_found _ _ _ _ _ _ _ Hparse'). now rewrite Hdec'.
Qed.

(** C9, amended. If the ciphertext decrypts to a non-empty record with
    no [expires_at] key, or an empty one, and the record's other fields
    are such as the response accepts ([encrypted_at] absent, empty or an
    ISO timestamp; [data] a mapping, null or absent; [token] a string,
    null or absent), then [validate_link] does not read the clock and
    returns the valid response with the record's data and credential. *)
Theorem validate_link_without_expiry (self : LinkController.t) (code : string)
    (raw blob : bytes) (meta : json) (record : dict)
    (stamp : option datetime) (payload : option dict)
    (credential : option string) :
  LinkRepository.parse_stored raw = Some (blob, meta) ->
  EncryptionService.decrypt blob = Some (JDict record) ->
  record <> [] ->
  LinkController.truthy_opt (dict_get "expires_at" record) = false ->
  (LinkController.truthy_opt (dict_get "encrypted_at" record) = false
   /\ stamp = None
   \/ exists s d, dict_get "encrypted_at" record = Some (JStr s)
                  /\ fromisoformat s = Some d /\ stamp = Some d) ->
  optional_dict (dict_get "data" record) = Return payload ->
  optional_str (dict_get "token" record) = Return credential ->
  replay (LinkController.validate_link self code)
         [EGet (LinkRepository.key_of code) (Reply (Some raw))]
  = Some (Return {| valid := true; data := payload; token := credential;
                    encrypted_at := stamp; error := None |}).
Proof.
  intros Hparse Hdec Hne Hexp Hstamp Hdata Htoken.
  apply (validate_link_found _ _ _ _ _ _ _ Hparse).
  rewrite Hdec. cbv zeta.
  destruct record as [|kv record]; [congruence|].
  cbn [LinkController.truthy_opt truthy negb]. rewrite Hexp.
  unfold LinkController.valid_response. rewrite Hdata, Htoken.
  destruct Hstamp as [[-> ->] | (s & d & Hs & Hiso & ->)]; [reflexivity|].
  rewrite Hs.
  destruct s as [|c s]; [vm_compute in Hiso; discriminate|].
  cbn [LinkController.truthy_opt truthy negb String.eqb
       LinkController.fromisoformat_value].
  now rewrite Hiso.
Qed.

End Validate.

Section GenerateClaims.
Context {floats : PyFloat} {cipher : Fernet} {local_time : LocalTime}.

Lemma exists_answers_app (tr1 tr2 : list Event) :
  exists_answers (tr1 ++ tr2) = exists_answers tr1 ++ exists_answers tr2.
Proof. apply List.flat_map_app. Qed.

Lemma exists_answers_probes (first retry : string) (r0 : redis_reply Z)
    (rs : list (redis_reply Z)) :
  exists_answers (probes first retry r0 rs) = List.map reply_truth (r0 :: rs).
Proof.
  unfold probes. cbn. f_equal. induction rs as [|r rs IH]; cbn; congruence.
Qed.

Lemma probed_keys_probes (first retry : string) (r0 : redis_reply Z)
    (rs : list (redis_reply Z)) :
  probed_keys (probes first retry r0 rs)
  = LinkRepository.key_of first
    :: repeat (LinkRepository.key_of retry) (List.length rs).
Proof.
  unfold probes. cbn. f_equal. induction rs as [|r rs IH]; cbn; congruence.
Qed.

Lemma probes_no_write (first retry : string) (r0 : redis_reply Z)
    (rs : list (redis_reply Z)) :
  forallb (fun e => match e with ESetex _ _ _ _ => false | _ => true end)
    (probes first retry r0 rs) = true.
Proof.
  unfold probes. cbn [forallb andb].
  induction rs as [|r rs IH]; [reflexivity | exact IH].
Qed.

Lemma saved_or_not_quiet (self : LinkController.t) (now expires : datetime)
    (blob : bytes) (code : string) (n : nat) (tail : list Event)
    (r : result LinkGenerateResponse) :
  saved_or_not self now expires blob code n tail r ->
  exists_answers tail = [] /\ probed_keys tail = [].
Proof. intros []; split; reflexivity. Qed.

Lemma repeat_snoc_inj (n m : nat) (a b : bool) :
  repeat true n ++ [a] = repeat true m ++ [b] -> n = m /\ a = b.
Proof.
  intros H. apply List.app_inj_tail in H as [H ->]. split; [|reflexivity].
  apply (f_equal (@List.length bool)) in H.
  now rewrite !List.repeat_length in H.
Qed.

Lemma answers_of_probed (now : datetime) (t : Z) (iv : bytes)
    (first retry : string) (r0 : redis_reply Z) (rs : list (redis_reply Z))
    (tail : list Event) :
  exists_answers tail = [] ->
  exists_answers (EUtcnow now :: ETimeTime t :: EUrandom 16 iv
                  :: probes first retry r0 rs ++ tail)
  = List.map reply_truth (r0 :: rs).
Proof.
  intros Hq.
  change (exists_answers (EUtcnow now :: ETimeTime t :: EUrandom 16 iv
                          :: probes first retry r0 rs ++ tail))
    with (exists_answers (probes first retry r0 rs ++ tail)).
  now rewrite exists_answers_app, exists_answers_probes, Hq, app_nil_r.
Qed.

Lemma keys_of_probed (now : datetime) (t : Z) (iv : bytes)
    (first retry : string) (r0 : redis_reply Z) (rs : list (redis_reply Z))
    (tail : list Event) :
  probed_keys tail = [] ->
  probed_keys (EUtcnow now :: ETimeTime t :: EUrandom 16 iv
               :: probes first retry r0 rs ++ tail)
  = LinkRepository.key_of first
    :: repeat (LinkRepository.key_of retry) (List.length rs).
Proof.
  intros Hq.
  change (probed_keys (EUtcnow now :: ETimeTime t :: EUrandom 16 iv
                       :: probes first retry r0 rs ++ tail))
    with (probed_keys (probes first retry r0 rs ++ tail)).
  unfold probed_keys at 1. rewrite List.flat_map_app.
  fold (probed_keys tail). fold (probed_keys (probes first retry r0 rs)).
  now rewrite probed_keys_probes, Hq, app_nil_r.
Qed.

(** [generate_link] gives up exactly when the first five probes all
    report a collision, whatever the sixth probe says. *)
Lemma generate_link_exhausted_iff (self : LinkController.t)
    (request : LinkGenerateRequest) (authorization : option string)
    (tr : list Event) (r : result LinkGenerateResponse) :
  replay (LinkController.generate_link self request authorization) tr = Some r ->
  r = Raise exhausted
  <-> exists last, exists_answers tr = repeat true 5 ++ [last].
Proof.
  intros Hrun. apply generate_link_runs in Hrun.
  destruct Hrun as [ | | | token now expires t iv blob r0 rs last code tail r
                           Htok Htne Hv Hadd Hiv Ht Henc Hans Hlast Hcode Htail];
    try (split; [discriminate | intros [last [=]]]).
  destruct (saved_or_not_quiet _ _ _ _ _ _ _ _ Htail) as [Hq _].
  rewrite (answers_of_probed _ _ _ _ _ _ _ _ Hq), Hans. split.
  - intros ->. exists last. inversion Htail as [Hfive | | ]. reflexivity.
  - intros [last' H]. apply repeat_snoc_inj in H as [Hfive _].
    rewrite Hfive in Htail. inversion Htail; subst; [reflexivity | lia | lia].
Qed.

(** C1 (the run on which the code departs from the claim). If the first
    five probes report a collision and the sixth reports none, then
    [generate_link] still fails with "Failed to generate unique short
    code": the free code found on the fifth retry is not used. *)
Theorem generate_link_gives_up_with_free_code (self : LinkController.t)
    (request : LinkGenerateRequest) (authorization : option string)
    (tr : list Event) (r : result LinkGenerateResponse) :
  replay (LinkController.generate_link self request authorization) tr = Some r ->
  exists_answers tr = [true; true; true; true; true; false] ->
  r = Raise (HTTPException 500 "Failed to generate unique short code").
Proof.
  intros Hrun Hans.
  apply (generate_link_exhausted_iff _ _ _ _ _ Hrun). now exists false.
Qed.

(** X1. After at most four collisions and then a free code,
    [generate_link] writes under the code whose probe was answered
    false and, if the store accepts the write, returns it. *)
Lemma generate_link_after_collisions (self : LinkController.t)
    (request : LinkGenerateRequest) (authorization : option string)
    (tr : list Event) (r : result LinkGenerateResponse) (n : nat) :
  replay (LinkController.generate_link self request authorization) tr = Some r ->
  (n <= 4)%nat ->
  exists_answers tr = repeat true n ++ [false] ->
  exists now expires blob code reply,
    last_error (probed_keys tr) = Some (LinkRepository.key_of code)
    /\ last_error tr
       = Some (ESetex (LinkRepository.key_of code)
                 (LinkRepository.expiration_hours (LinkController.repository self)
                  * 3600)
                 (stored_value blob now expires) reply)
    /\ (forall u, reply = Reply u ->
          r = Return {| short_code := code; expires_at := expires;
                        created_at := now |}).
Proof.
  intros Hrun Hn Hans. apply generate_link_runs in Hrun.
  destruct Hrun as [ | | | token now expires t iv blob r0 rs last code tail r
                           Htok Htne Hv Hadd Hiv Ht Henc Hrs Hlast Hcode Htail];
    try (now destruct n).
  destruct (saved_or_not_quiet _ _ _ _ _ _ _ _ Htail) as [Hq Hk].
  rewrite (answers_of_probed _ _ _ _ _ _ _ _ Hq), Hrs in Hans.
  apply repeat_snoc_inj in Hans as [Hlen ->].
  rewrite (keys_of_probed _ _ _ _ _ _ _ _ Hk).
  assert (Hkey : last_error
                   (LinkRepository.key_of
                      (HashingService.generate_short_code blob
                         HashingService.default_max_length)
                    :: repeat (LinkRepository.key_of (rederived blob now))
                         (List.length rs))
                 = Some (LinkRepository.key_of code)).
  { subst code. destruct rs; [reflexivity | apply last_error_repeat]. }
  exists now, expires, blob, code.
  inversion Htail as [Hfive | k msg Hlt | k u Hlt]; subst tail r; [lia | |].
  - exists (RedisError msg). repeat split; [assumption | | discriminate].
    rewrite !app_comm_cons. apply last_error_app_singleton.
  - exists (Reply u). repeat split; [assumption | ].
    rewrite !app_comm_cons. apply last_error_app_singleton.
Qed.

(** C2 (what the code does instead). Along every run of
    [generate_link] all retries hash one and the same byte string, the
    ciphertext followed by the stamp of the creation time taken before
    the loop: every probe after the first is for the one code derived
    from it. *)
Theorem retries_hash_the_same_bytes (self : LinkController.t)
    (request : LinkGenerateRequest) (authorization : option string)
    (tr : list Event) (r : result LinkGenerateResponse) :
  replay (LinkController.generate_link self request authorization) tr = Some r ->
  exists (blob : bytes) (now : datetime),
    forall (i : nat) (key : string),
      (1 <= i)%nat -> nth_error (probed_keys tr) i = Some key ->
      key = LinkRepository.key_of
              (HashingService.generate_short_code
                 (LinkController.encrypted_data_with_timestamp blob now) 8).
Proof.
  intros Hrun. apply generate_link_runs in Hrun.
  destruct Hrun as [ | | | token now expires t iv blob r0 rs last code tail r
                           Htok Htne Hv Hadd Hiv Ht Henc Hrs Hlast Hcode Htail];
    try (exists [], (Datetime 1 1 1 0 0 0 0); intros [|i] key Hi Hnth;
         [lia | destruct i; cbn in Hnth; discriminate Hnth]).
  destruct (saved_or_not_quiet _ _ _ _ _ _ _ _ Htail) as [_ Hk].
  exists blob, now. intros i key Hi.
  rewrite (keys_of_probed _ _ _ _ _ _ _ _ Hk).
  destruct i as [|i]; [lia|]. cbn [nth_error]. intros Hnth.
  apply List.nth_error_In, List.repeat_spec in Hnth. exact Hnth.
Qed.

(** C8. On every run of [generate_link] that returns a response: the
    response has [expires_at = created_at + expiration_hours]; the
    record that was encrypted carries the ISO strings of these two
    datetimes, which parse back to them; and the run ends with the one
    write to the store, of the ciphertext and of metadata with the same
    two ISO strings, under the returned code, with a time-to-live of
    [expiration_hours * 3600] seconds, the base hours and not the final
    ones. *)
Theorem generate_link_expiry_invariant (repository : LinkRepository.t)
    (request : LinkGenerateRequest) (authorization : option string)
    (tr : list Event) (response : LinkGenerateResponse) :
  replay (LinkController.generate_link (LinkController.init repository)
            request authorization) tr = Some (Return response) ->
  let created := created_at response in
  let expires := expires_at response in
  let hours := LinkRepository.expiration_hours repository in
  add_hours created hours = Some expires
  /\ fromisoformat (isoformat created) = Some created
  /\ fromisoformat (isoformat expires) = Some expires
  /\ exists token t iv blob before u,
       LinkController.extract_token authorization = Some token
       /\ encrypt_from_parts
            (utf8_encode
               (json_dumps
                  (JDict [("data", JDict (request_data request));
                          ("token", JStr token);
                          ("encrypted_at", JStr (isoformat created));
                          ("expires_at", JStr (isoformat expires))])))
            t iv = Return blob
       /\ tr = before
               ++ [ESetex (LinkRepository.key_of (short_code response))
                     (hours * 3600)
                     (json_dumps
                        (JDict [("encrypted_data", JStr (hex blob));
                                ("metadata",
                                 JDict [("encrypted_at", JStr (isoformat created));
                                        ("expires_at", JStr (isoformat expires))])]))
                     (Reply u)]
       /\ forallb (fun e => match e with ESetex _ _ _ _ => false | _ => true end)
            before = true.
Proof.
  intros Hrun. apply generate_link_runs in Hrun.
  inversion Hrun as [ | | | token now expires t iv blob r0 rs last code tail r
                            Htok Htne Hv Hadd Hiv Ht Henc Hrs Hlast Hcode Htail];
    subst.
  inversion Htail as [ | | n u Hlt Hn Htl Hr]; subst.
  cbn [created_at expires_at short_code].
  split; [exact Hadd|].
  split; [now apply fromisoformat_isoformat|].
  split; [apply fromisoformat_isoformat; now apply (add_hours_valid now _ _ Hv Hadd)|].
  exists token, t, iv, blob,
    (EUtcnow now :: ETimeTime t :: EUrandom 16 iv
     :: probes (HashingService.generate_short_code blob
                  HashingService.default_max_length)
               (rederived blob now) r0 rs), u.
  repeat split; try assumption.
  cbn [forallb andb]. apply probes_no_write.
Qed.

End GenerateClaims.

(** ** The strings that the service writes are well formed *)

Lemma substring_all (s : string) : String.substring 0 (String.length s) s = s.
Proof. induction s as [|c s IH]; cbn; [reflexivity | now rewrite IH]. Qed.

Lemma prefix_append (p t : string) : String.prefix p (p ++ t)%string = true.
Proof.
  induction p as [|a p IH].
  - now destruct t.
  - change (String a p ++ t)%string with (String a (p ++ t)%string).
    cbn [String.prefix]. destruct (ascii_dec a a); [exact IH | congruence].
Qed.

Lemma substring_append (p t : string) :
  String.substring (String.length p)
    (String.length (p ++ t)%string - String.length p) (p ++ t)%string = t.
Proof.
  induction p as [|a p IH].
  - change (EmptyString ++ t)%string with t.
    cbn [String.length]. now rewrite Nat.sub_0_r, substring_all.
  - change (String a p ++ t)%string with (String a (p ++ t)%string).
    cbn [String.length String.substring Nat.sub]. exact IH.
Qed.

Lemma prefix_split (p a : string) :
  String.prefix p a = true -> exists t, a = (p ++ t)%string.
Proof.
  revert a. induction p as [|c p IH]; intros a H.
  - now exists a.
  - destruct a as [|c' a]; [discriminate H|].
    cbn [String.prefix] in H. destruct (ascii_dec c c') as [<-|]; [|discriminate H].
    destruct (IH a H) as [t ->]. now exists t.
Qed.

Lemma chars_append (a b : string) : chars (a ++ b)%string = chars a ++ chars b.
Proof.
  induction a as [|c a IH]; [reflexivity|].
  change (String c a ++ b)%string with (String c (a ++ b)%string).
  change (c :: chars (a ++ b)%string = c :: (chars a ++ chars b)).
  now rewrite IH.
Qed.

Lemma code_points_ascii_app (l r : list ascii) :
  is_ascii_text l ->
  code_points (l ++ r) = option_map (app (List.map ord l)) (code_points r).
Proof.
  induction 1 as [|c l Hc _ IH]; cbn [app List.map].
  - now destruct (code_points r).
  - cbn [code_points]. destruct (Z.ltb_spec (ord c) 128); [|lia].
    rewrite IH. now destruct (code_points r).
Qed.

Lemma apart_app (a b : list Z) : apart (a ++ b) = true -> apart b = true.
Proof.
  induction a as [|x a IH]; [exact id|].
  cbn [app apart]. destruct (a ++ b) eqn:E.
  - destruct a; [|discriminate E]. cbn in E. now subst.
  - rewrite andb_true_iff. intros [_ H]. now apply IH.
Qed.

(** A [str] that follows an ASCII text in a well-formed [str] is well
    formed. *)
Lemma wf_str_suffix (p t : string) :
  is_ascii_text (chars p) -> wf_str (p ++ t)%string = true -> wf_str t = true.
Proof.
  intros Hp. unfold wf_str. rewrite chars_append, code_points_ascii_app by assumption.
  destruct (code_points (chars t)) as [cps|]; [|discriminate].
  cbn [option_map]. apply apart_app.
Qed.

Lemma hex_ascii (bs : bytes) : is_ascii_text (chars (hex bs)).
Proof.
  unfold hex. rewrite chars_str.
  induction bs as [|b bs IH]; [constructor|].
  cbn [flat_map app]. repeat constructor; try apply hex_digit_ascii. exact IH.
Qed.

Lemma digits_fixed_ascii (w : nat) (n : Z) : is_ascii_text (digits_fixed w n).
Proof.
  revert n. induction w as [|w IH]; intros n; [constructor|].
  cbn [digits_fixed]. apply is_ascii_text_app; [apply IH|].
  constructor; [|constructor].
  apply is_digit_ascii, digit_char_facts.
  pose proof (Z.mod_pos_bound n 10). lia.
Qed.

Lemma isoformat_ascii (d : datetime) : is_ascii_text (chars (isoformat d)).
Proof.
  unfold isoformat, isoformat_chars. rewrite chars_str.
  assert (Hfraction :
            is_ascii_text (if microsecond d =? 0 then []
                           else "."%char :: digits_fixed 6 (microsecond d))).
  { destruct (microsecond d =? 0); [constructor|].
    constructor; [reflexivity | apply digits_fixed_ascii]. }
  repeat (apply is_ascii_text_app; [apply digits_fixed_ascii|];
          constructor; [reflexivity|]).
  apply is_ascii_text_app; [apply digits_fixed_ascii | exact Hfraction].
Qed.

Lemma wf_str_hex (bs : bytes) : wf_str (hex bs) = true.
Proof. apply wf_str_ascii, hex_ascii. Qed.

Lemma wf_str_isoformat (d : datetime) : wf_str (isoformat d) = true.
Proof. apply wf_str_ascii, isoformat_ascii. Qed.

Section WellFormed.
Context {floats : PyFloat}.

(** The credential taken from a well-formed header is well formed. *)
Lemma extract_token_wf (authorization : option string) (token : string) :
  wf_header authorization = true ->
  LinkController.extract_token authorization = Some token ->
  wf_str token = true.
Proof.
  destruct authorization as [a|]; [|discriminate]. cbn [wf_header].
  unfold LinkController.extract_token.
  destruct (String.eqb a EmptyString); [discriminate|].
  destruct (String.prefix "Bearer " a) eqn:Hp; [|now intros ? [= <-]].
  destruct (prefix_split _ _ Hp) as [t ->]. intros Hwf.
  change 7%nat with (String.length "Bearer "). rewrite substring_append.
  intros [= <-]. revert Hwf. apply wf_str_suffix.
  repeat constructor; reflexivity.
Qed.

Lemma wf_metadata_of (now expires : datetime) :
  wf_json (metadata_of now expires) = true.
Proof.
  unfold metadata_of. cbn [wf_json List.map fst snd forallb].
  now rewrite !wf_str_isoformat.
Qed.

(** What [save] stores is read back by [json.loads]. *)
Lemma wf_stored (blob : bytes) (metadata : json) :
  wf_json metadata = true ->
  wf_json (JDict [("encrypted_data", JStr (hex blob)); ("metadata", metadata)])
  = true.
Proof.
  intros Hwf. cbn [wf_json List.map fst snd forallb].
  now rewrite wf_str_hex, Hwf.
Qed.

(** The record that [generate_link] encrypts is read back by
    [json.loads]. *)
Lemma wf_record_of (request : LinkGenerateRequest) (token : string)
    (now expires : datetime) :
  wf_json (JDict (request_data request)) = true -> wf_str token = true ->
  wf_json (record_of request token now expires) = true.
Proof.
  intros Hwf Htok. unfold record_of.
  cbn [wf_json List.map fst snd forallb] in Hwf |- *.
  now rewrite Hwf, Htok, !wf_str_isoformat.
Qed.

End WellFormed.

(** ** A link made and then resolved *)

Lemma fromhex_hex_byte (b : byte) (rest : list ascii) :
  fromhex_chars (hex_digit (byte_to_Z b / 16) :: hex_digit (byte_to_Z b mod 16) :: rest)
  = match fromhex_chars rest with
    | Some bs => Some (b :: bs)
    | None => None
    end.
Proof. destruct b; reflexivity. Qed.

Lemma fromhex_hex (bs : bytes) : fromhex (hex bs) = Some bs.
Proof.
  unfold fromhex, hex. rewrite chars_str.
  induction bs as [|b bs IH]; [reflexivity|].
  cbn [flat_map app]. now rewrite fromhex_hex_byte, IH.
Qed.

Lemma isoformat_nonempty (d : datetime) :
  String.eqb (isoformat d) EmptyString = false.
Proof.
  apply String.eqb_neq. intros H.
  apply (f_equal String.length) in H. unfold isoformat in H.
  rewrite length_str in H. unfold isoformat_chars in H.
  rewrite List.length_app, length_digits_fixed in H. cbn in H. lia.
Qed.

Section EndToEnd.
Context {floats : PyFloat} {cipher : Fernet} {local_time : LocalTime}.

(** [LinkRepository.get] reads back what [LinkRepository.save] wrote. *)
Lemma parse_stored_value (blob : bytes) (now expires : datetime) :
  LinkRepository.parse_stored (utf8_encode (stored_value blob now expires))
  = Some (blob, metadata_of now expires).
Proof.
  unfold LinkRepository.parse_stored, stored_value.
  rewrite utf8_decode_json_dumps, json_loads_dumps
    by (apply wf_stored, wf_metadata_of).
  cbn [dict_get String.eqb Ascii.eqb Bool.eqb]. now rewrite fromhex_hex.
Qed.

(** X2. After a successful [generate_link], [validate_link] of the
    returned code against the entry that was written gives back the
    payload and the credential, with the creation time, until the
    expiry time has passed, and the expired response afterwards.  The
    payload and the header are values that [json] writes and reads
    back ([wf_json], [wf_header]). *)
Theorem generate_then_validate_any (laws : FernetLaws cipher)
    (repository : LinkRepository.t) (request : LinkGenerateRequest)
    (authorization : option string) (tr : list Event)
    (response : LinkGenerateResponse) :
  wf_json (JDict (request_data request)) = true ->
  wf_header authorization = true ->
  replay (LinkController.generate_link (LinkController.init repository)
            request authorization) tr = Some (Return response) ->
  exists credential seconds value u,
    LinkController.extract_token authorization = Some credential
    /\ last_error tr
       = Some (ESetex (LinkRepository.key_of (short_code response)) seconds value
                 (Reply u))
    /\ forall (self : LinkController.t) (now : datetime),
         valid_datetime now = true ->
         replay (LinkController.validate_link self (short_code response))
           [EGet (LinkRepository.key_of (short_code response))
              (Reply (Some (utf8_encode value)));
            EUtcnow now]
         = Some (Return
                   (if datetime_gtb now (expires_at response)
                    then LinkController.invalid "Link has expired"
                    else {| valid := true;
                            data := Some (request_data request);
                            token := Some credential;
                            encrypted_at := Some (created_at response);
                            error := None |})).
Proof.
  intros Hwf Hheader Hrun. apply generate_link_runs in Hrun.
  inversion Hrun as [ | | | credential created expires t iv blob r0 rs last code tail r
                            Htok Htne Hv Hadd Hiv Ht Henc Hrs Hlast Hcode Htail];
    subst.
  inversion Htail as [ | | n u Hlt Hn Htl Hr]; subst.
  cbn [short_code expires_at created_at].
  eexists credential, _, (stored_value blob created expires), u.
  split; [exact Htok|]. split.
  { rewrite !app_comm_cons. apply last_error_app_singleton. }
  intros self now Hnow.
  apply (validate_link_found _ _ _ _ _ _ _ (parse_stored_value blob created expires)).
  assert (Hrec : wf_json (record_of request credential created expires) = true)
    by (apply wf_record_of; [exact Hwf | exact (extract_token_wf _ _ Hheader Htok)]).
  rewrite (decrypt_token laws _ _ _ _ Hrec Henc). cbv zeta.
  unfold record_of.
  cbn [LinkController.truthy_opt truthy negb dict_get String.eqb Ascii.eqb
       Bool.eqb].
  rewrite isoformat_nonempty.
  cbn [negb LinkController.fromisoformat_value].
  rewrite (fromisoformat_isoformat expires)
    by (apply (add_hours_valid created _ _ Hv Hadd)).
  cbn [replay]. rewrite Hnow.
  destruct (datetime_gtb now expires); [reflexivity|].
  unfold LinkController.valid_response.
  cbn [LinkController.truthy_opt truthy negb dict_get String.eqb Ascii.eqb
       Bool.eqb optional_dict optional_str].
  rewrite isoformat_nonempty.
  cbn [negb LinkController.fromisoformat_value].
  now rewrite (fromisoformat_isoformat created Hv).
Qed.

End EndToEnd.

(** ** The claims on the test platform *)

Section OnTestPlatform.
#[local] Existing Instance TestPlatform.floats.

Lemma generate_link_gives_up_with_free_code_witness :
  exists r,
    replay Scenario.generate Scenario.run_five_collisions = Some r
    /\ exists_answers Scenario.run_five_collisions
       = [true; true; true; true; true; false]
    /\ r = Raise (HTTPException 500 "Failed to generate unique short code").
Proof.
  eexists. split; [vm_compute; reflexivity|]. split; [reflexivity|].
  apply (@generate_link_gives_up_with_free_code TestPlatform.cipher
           TestPlatform.local_time Fixture.controller Fixture.request
           Fixture.authorization Scenario.run_five_collisions);
    vm_compute; reflexivity.
Defined.

Lemma retries_hash_the_same_bytes_witness :
  replay Scenario.generate Scenario.run_two_collisions
  = Some (Return {| short_code := Fixture.retry_code;
                    expires_at := Fixture.expires;
                    created_at := Fixture.now |})
  /\ exists blob now,
       forall i key,
         (1 <= i)%nat ->
         nth_error (probed_keys Scenario.run_two_collisions) i = Some key ->
         key = LinkRepository.key_of
                 (HashingService.generate_short_code
                    (@LinkController.encrypted_data_with_timestamp
                       TestPlatform.local_time blob now) 8).
Proof.
  assert (H : replay Scenario.generate Scenario.run_two_collisions
              = Some (Return {| short_code := Fixture.retry_code;
                                expires_at := Fixture.expires;
                                created_at := Fixture.now |}))
    by (vm_compute; reflexivity).
  split; [exact H|].
  exact (@retries_hash_the_same_bytes TestPlatform.cipher TestPlatform.local_time
           Fixture.controller Fixture.request Fixture.authorization
           Scenario.run_two_collisions _ H).
Defined.

Lemma generate_link_expiry_invariant_witness :
  replay Scenario.generate Scenario.run_free
  = Some (Return {| short_code := Fixture.first_code;
                    expires_at := Fixture.expires;
                    created_at := Fixture.now |})
  /\ add_hours Fixture.now 1 = Some Fixture.expires.
Proof.
  assert (H : replay Scenario.generate Scenario.run_free
              = Some (Return {| short_code := Fixture.first_code;
                                expires_at := Fixture.expires;
                                created_at := Fixture.now |}))
    by (vm_compute; reflexivity).
  split; [exact H|].
  exact (proj1 (@generate_link_expiry_invariant TestPlatform.cipher
                  TestPlatform.local_time Fixture.repository Fixture.request
                  Fixture.authorization Scenario.run_free _ H)).
Defined.


Lemma decrypt_refuses_invalid_token_witness :
  @fernet_decrypt TestPlatform.cipher (Fixture.ascii_bytes "invalid_encrypted_data")
  = None
  /\ @EncryptionService.decrypt TestPlatform.floats TestPlatform.cipher
       (Fixture.ascii_bytes "invalid_encrypted_data") = None.
Proof.
  split; [reflexivity|].
  apply (@decrypt_refuses_invalid_token TestPlatform.floats TestPlatform.cipher
           (Fixture.ascii_bytes "invalid_encrypted_data")).
  reflexivity.
Defined.

Lemma validate_link_empty_record_witness :
  @EncryptionService.decrypt TestPlatform.floats TestPlatform.cipher (Fixture.sealed (JDict []))
  = Some (JDict [])
  /\ replay (Scenario.validate Fixture.first_code)
       [Scenario.fetch Fixture.first_code (Scenario.entry (JDict []))]
     = Some (Return {| valid := false; data := None; token := None;
                       encrypted_at := None;
                       error := Some "Link data is corrupted or invalid" |}).
Proof.
  split; [vm_compute; reflexivity|].
  apply (@validate_link_empty_record TestPlatform.floats TestPlatform.cipher Fixture.controller
           Fixture.first_code (Scenario.entry (JDict []))
           (Fixture.sealed (JDict [])) (JDict []) (JDict []));
    [vm_compute; reflexivity | vm_compute; reflexivity | now left].
Defined.

(** C9 as stated fails on a record without [expires_at] whose
    [encrypted_at] is not a timestamp: [validate_link] raises the
    [ValueError] of [fromisoformat] instead of returning a response. *)
Lemma validate_link_without_expiry_counterexample :
  LinkRepository.parse_stored (Scenario.entry (JDict Scenario.undated))
  = Some (Fixture.sealed (JDict Scenario.undated), JDict [])
  /\ @EncryptionService.decrypt TestPlatform.floats TestPlatform.cipher
       (Fixture.sealed (JDict Scenario.undated))
     = Some (JDict Scenario.undated)
  /\ Scenario.undated <> []
  /\ dict_get "expires_at" Scenario.undated = None
  /\ replay (Scenario.validate Fixture.first_code)
       [Scenario.fetch Fixture.first_code (Scenario.entry (JDict Scenario.undated))]
     = Some (Raise (PyError "ValueError" "Invalid isoformat string"))
  /\ ~ (exists response,
          replay (Scenario.validate Fixture.first_code)
            [Scenario.fetch Fixture.first_code
               (Scenario.entry (JDict Scenario.undated))]
          = Some (Return response)).
Proof.
  assert (H : replay (Scenario.validate Fixture.first_code)
                [Scenario.fetch Fixture.first_code
                   (Scenario.entry (JDict Scenario.undated))]
              = Some (Raise (PyError "ValueError" "Invalid isoformat string")))
    by (vm_compute; reflexivity).
  split; [vm_compute; reflexivity|].
  split; [vm_compute; reflexivity|].
  split; [discriminate|].
  split; [reflexivity|].
  split; [exact H|].
  intros [response Hr]. rewrite H in Hr. discriminate Hr.
Qed.

Lemma validate_link_without_expiry_witness :
  replay (Scenario.validate Fixture.first_code)
    [Scenario.fetch Fixture.first_code (Scenario.entry (JDict Scenario.unexpiring))]
  = Some (Return {| valid := true; data := Some [("a", JInt 1)];
                    token := Some "tok"; encrypted_at := Some Fixture.now;
                    error := None |}).
Proof.
  apply (@validate_link_without_expiry TestPlatform.floats TestPlatform.cipher Fixture.controller
           Fixture.first_code (Scenario.entry (JDict Scenario.unexpiring))
           (Fixture.sealed (JDict Scenario.unexpiring)) (JDict [])
           Scenario.unexpiring).
  - vm_compute; reflexivity.
  - vm_compute; reflexivity.
  - discriminate.
  - reflexivity.
  - right. exists "2024-01-15T10:30:00.250000", Fixture.now.
    split; [reflexivity|]. split; [vm_compute; reflexivity | reflexivity].
  - reflexivity.
  - reflexivity.
Defined.

(** ** A link made and then resolved, against the store handler *)

Example generate_then_validate :
  let '(made, world) := run world_handler Scenario.generate Fixture.world in
  made = Return {| short_code := Fixture.first_code;
                   expires_at := Fixture.expires; created_at := Fixture.now |}
  /\ fst (run world_handler (Scenario.validate Fixture.first_code) world)
     = Return {| valid := true; data := Some [("a", JInt 1)];
                 token := Some "tok"; encrypted_at := Some Fixture.now;
                 error := None |}
  /\ fst (run world_handler (Scenario.validate "doesnotexist") world)
     = Return {| valid := false; data := None; token := None;
                 encrypted_at := None;
                 error := Some "Link not found or expired" |}.
Proof. vm_compute. repeat split. Qed.

End OnTestPlatform.

(** * Further properties of the code *)
(** ** Short codes of any length *)

Lemma byte_to_Z_range (b : byte) : 0 <= byte_to_Z b < 256.
Proof. destruct b; vm_compute; split; congruence. Qed.

Lemma byte_to_Z_inj (a b : byte) : byte_to_Z a = byte_to_Z b -> a = b.
Proof.
  unfold byte_to_Z. intros H. apply N2Z.inj in H.
  apply (f_equal Byte.of_N) in H. rewrite !Byte.of_to_N in H. congruence.
Qed.

(** The four sextets of a group of three bytes, and those of a last group
    of one or two bytes. *)
Lemma sextets_of_three (a b c : Z) :
  0 <= a < 256 -> 0 <= b < 256 -> 0 <= c < 256 ->
  let n := a * 65536 + b * 256 + c in
  (n / 262144) mod 64 = a / 4
  /\ (n / 4096) mod 64 = (a mod 4) * 16 + b / 16
  /\ (n / 64) mod 64 = (b mod 16) * 4 + c / 64
  /\ n mod 64 = c mod 64.
Proof. intros Ha Hb Hc n. subst n. repeat split; Z.div_mod_to_equations; lia. Qed.

Lemma sextets_of_two (a b : Z) :
  0 <= a < 256 -> 0 <= b < 256 ->
  let n := (a * 256 + b) * 4 in
  (n / 4096) mod 64 = a / 4
  /\ (n / 64) mod 64 = (a mod 4) * 16 + b / 16
  /\ n mod 64 = (b mod 16) * 4.
Proof. intros Ha Hb n. subst n. repeat split; Z.div_mod_to_equations; lia. Qed.

Lemma sextets_of_one (a : Z) :
  0 <= a < 256 ->
  let n := a * 16 in
  (n / 64) mod 64 = a / 4 /\ n mod 64 = (a mod 4) * 16.
Proof. intros Ha n. subst n. repeat split; Z.div_mod_to_equations; lia. Qed.

(** The first [k] characters of the encoding depend on the first [k]
    bytes only. *)
Lemma b64url_nopad_firstn (bs : bytes) :
  forall m k : nat, (k <= m)%nat ->
  firstn k (b64url_nopad (firstn m bs)) = firstn k (b64url_nopad bs).
Proof.
  induction bs as [|b0|b0 b1|b0 b1 b2 r IH] using triples_ind; intros m k Hk.
  - now rewrite List.firstn_nil.
  - destruct m as [|m]; [now replace k with 0%nat by lia|].
    cbn [firstn]. now rewrite List.firstn_nil.
  - pose proof (byte_to_Z_range b0) as H0. pose proof (byte_to_Z_range b1) as H1.
    destruct m as [|[|m]].
    + now replace k with 0%nat by lia.
    + destruct k as [|[|k]]; [reflexivity | | lia].
      cbn [firstn b64url_nopad].
      destruct (sextets_of_one _ H0) as [-> _].
      destruct (sextets_of_two _ _ H0 H1) as [-> _]. reflexivity.
    + cbn [firstn]. now rewrite List.firstn_nil.
  - pose proof (byte_to_Z_range b0) as H0. pose proof (byte_to_Z_range b1) as H1.
    pose proof (byte_to_Z_range b2) as H2.
    destruct (sextets_of_three _ _ _ H0 H1 H2) as (E0 & E1 & E2 & E3).
    destruct m as [|[|[|m]]].
    + now replace k with 0%nat by lia.
    + destruct k as [|[|k]]; [reflexivity | | lia].
      cbn [firstn b64url_nopad]. rewrite E0.
      destruct (sextets_of_one _ H0) as [-> _]. reflexivity.
    + destruct k as [|[|[|k]]]; [reflexivity | | | lia];
        cbn [firstn b64url_nopad]; rewrite E0, ?E1;
        destruct (sextets_of_two _ _ H0 H1) as (F0 & F1 & _);
        rewrite F0, ?F1; reflexivity.
    + cbn [firstn b64url_nopad].
      destruct k as [|[|[|[|k]]]]; try reflexivity.
      cbn [firstn]. now rewrite IH by lia.
Qed.

Lemma length_b64url_nopad_digest (b : bytes) :
  List.length (b64url_nopad (SHA256.digest b)) = 43%nat.
Proof.
  pose proof (sha256_digest_length b) as Hd.
  revert Hd. generalize (SHA256.digest b). intros l Hd.
  do 32 (destruct l as [|? l]; [discriminate Hd|]).
  destruct l; [reflexivity | discriminate Hd].
Qed.

(** X3. For every byte string and every [max_length >= 0], the short
    code is the first [max_length] characters of the unpadded URL-safe
    base64 of the whole SHA-256 digest (so a shorter code is a prefix of
    a longer one), it has [min max_length 43] characters, and all of them
    are letters, digits, [-] or [_]. *)
Theorem generate_short_code_prefix (b : bytes) (n : nat) :
  let code := HashingService.generate_short_code b (Z.of_nat n) in
  code = str (firstn n (b64url_nopad (SHA256.digest b)))
  /\ String.length code = Nat.min n 43
  /\ forallb is_urlsafe (chars code) = true.
Proof.
  cbv zeta.
  assert (E : HashingService.generate_short_code b (Z.of_nat n)
              = str (firstn n (b64url_nopad (SHA256.digest b)))).
  { unfold HashingService.generate_short_code.
    rewrite !slice_to_nonneg, rstrip_urlsafe_b64encode.
    now rewrite b64url_nopad_firstn. }
  rewrite E. split; [reflexivity|]. split.
  - now rewrite length_str, List.length_firstn, length_b64url_nopad_digest.
  - rewrite chars_str. apply forallb_forall. intros c Hc.
    pose proof (b64url_nopad_chars (SHA256.digest b)) as Hall.
    rewrite List.Forall_forall in Hall.
    apply In_firstn, Hall in Hc. tauto.
Qed.

Lemma generate_short_code_firstn (b : bytes) (n : nat) :
  HashingService.generate_short_code b (Z.of_nat n)
  = str (firstn n (b64url_nopad (SHA256.digest b))).
Proof.
  unfold HashingService.generate_short_code.
  rewrite !slice_to_nonneg, rstrip_urlsafe_b64encode.
  now rewrite b64url_nopad_firstn.
Qed.

Lemma index_of_urlsafe_char (i : Z) :
  0 <= i < 64 -> index_of (urlsafe_char i) urlsafe_alphabet = i.
Proof. revert i. apply sextet_cases. repeat constructor. Qed.

Lemma urlsafe_char_inj (i j : Z) :
  0 <= i < 64 -> 0 <= j < 64 -> urlsafe_char i = urlsafe_char j -> i = j.
Proof.
  intros Hi Hj H. apply (f_equal (fun c => index_of c urlsafe_alphabet)) in H.
  now rewrite !index_of_urlsafe_char in H.
Qed.

(** Three bytes can be read back from their four characters. *)
Lemma b64url_group_inj (a b c a' b' c' : byte) (r r' : list ascii) :
  b64url_nopad [a; b; c] ++ r = b64url_nopad [a'; b'; c'] ++ r' ->
  a = a' /\ b = b' /\ c = c' /\ r = r'.
Proof.
  pose proof (byte_to_Z_range a) as Ha. pose proof (byte_to_Z_range b) as Hb.
  pose proof (byte_to_Z_range c) as Hc. pose proof (byte_to_Z_range a') as Ha'.
  pose proof (byte_to_Z_range b') as Hb'. pose proof (byte_to_Z_range c') as Hc'.
  cbn [b64url_nopad app].
  destruct (sextets_of_three _ _ _ Ha Hb Hc) as (-> & -> & -> & ->).
  destruct (sextets_of_three _ _ _ Ha' Hb' Hc') as (-> & -> & -> & ->).
  intros [= E0 E1 E2 E3 Er].
  apply urlsafe_char_inj in E0, E1, E2, E3;
    try (Z.div_mod_to_equations; lia).
  assert (byte_to_Z a = byte_to_Z a' /\ byte_to_Z b = byte_to_Z b'
          /\ byte_to_Z c = byte_to_Z c') as (Ea & Eb & Ec)
    by (Z.div_mod_to_equations; lia).
  apply byte_to_Z_inj in Ea, Eb, Ec. auto.
Qed.

Lemma str_inj (l l' : list ascii) : str l = str l' -> l = l'.
Proof. intros H. apply (f_equal chars) in H. now rewrite !chars_str in H. Qed.

Lemma generate_from_data_six (b : bytes) :
  HashingService.generate_from_data b
  = str (b64url_nopad (firstn 6 (SHA256.digest b))).
Proof.
  unfold HashingService.generate_from_data, HashingService.default_max_length.
  change 8 with (Z.of_nat 8). rewrite generate_short_code_firstn.
  pose proof (sha256_digest_length b) as Hd.
  revert Hd. generalize (SHA256.digest b). intros l Hd.
  do 7 (destruct l as [|? l]; [discriminate Hd|]). reflexivity.
Qed.

(** X4. The default code ([generate_from_data], eight characters) is the
    unpadded URL-safe base64 of the first six bytes of the SHA-256
    digest: it always has exactly eight characters, and two inputs get
    the same code exactly when their digests agree on the first 48
    bits. *)
Theorem generate_from_data_collision (b b' : bytes) :
  HashingService.generate_from_data b
  = str (b64url_nopad (firstn 6 (SHA256.digest b)))
  /\ String.length (HashingService.generate_from_data b) = 8%nat
  /\ (HashingService.generate_from_data b = HashingService.generate_from_data b'
      <-> firstn 6 (SHA256.digest b) = firstn 6 (SHA256.digest b')).
Proof.
  rewrite !generate_from_data_six.
  pose proof (sha256_digest_length b) as Hd.
  pose proof (sha256_digest_length b') as Hd'.
  revert Hd Hd'. generalize (SHA256.digest b) (SHA256.digest b'). intros l l' Hd Hd'.
  do 6 (destruct l as [|? l]; [discriminate Hd|]).
  do 6 (destruct l' as [|? l']; [discriminate Hd'|]).
  cbn [firstn].
  split; [reflexivity|]. split; [reflexivity|]. split.
  - intros H. apply str_inj in H.
    change (b64url_nopad [b0; b1; b2] ++ b64url_nopad [b3; b4; b5]
            = b64url_nopad [b6; b7; b8] ++ b64url_nopad [b9; b10; b11]) in H.
    apply b64url_group_inj in H as (-> & -> & -> & H).
    rewrite <- (app_nil_r (b64url_nopad [b3; b4; b5])) in H.
    rewrite <- (app_nil_r (b64url_nopad [b9; b10; b11])) in H.
    apply b64url_group_inj in H as (-> & -> & -> & _). reflexivity.
  - now intros ->.
Qed.

(** ** [generate_link]: the credential *)

Section GenerateMore.
Context {floats : PyFloat} {cipher : Fernet} {local_time : LocalTime}.

Lemma extract_token_bearer (t : string) :
  t <> EmptyString ->
  LinkController.extract_token (Some ("Bearer " ++ t)%string) = Some t.
Proof.
  intros _. unfold LinkController.extract_token.
  rewrite prefix_append.
  change 7%nat with (String.length "Bearer "). now rewrite substring_append.
Qed.

(** X5. The [Bearer ] prefix of the Authorization header is optional: a
    header [Bearer t] and the bare header [t] (for a non-empty [t] that
    does not itself begin with [Bearer ]) give the same credential [t]
    and the same behaviour of [generate_link]. *)
Theorem generate_link_bearer_prefix (self : LinkController.t)
    (request : LinkGenerateRequest) (t : string) :
  t <> EmptyString -> String.prefix "Bearer " t = false ->
  LinkController.extract_token (Some ("Bearer " ++ t)%string) = Some t
  /\ LinkController.extract_token (Some t) = Some t
  /\ LinkController.generate_link self request (Some ("Bearer " ++ t)%string)
     = LinkController.generate_link self request (Some t).
Proof.
  intros Hne Hpre.
  assert (Hbare : LinkController.extract_token (Some t) = Some t).
  { unfold LinkController.extract_token. rewrite Hpre.
    apply String.eqb_neq in Hne. now rewrite Hne. }
  split; [now apply extract_token_bearer|]. split; [exact Hbare|].
  unfold LinkController.generate_link.
  now rewrite (extract_token_bearer t Hne), Hbare.
Qed.

End GenerateMore.

(** ** [generate_link]: calls to the store *)

Lemma count_app (f : Event -> bool) (a b : list Event) :
  count f (a ++ b) = (count f a + count f b)%nat.
Proof. unfold count. now rewrite List.filter_app, List.length_app. Qed.

Lemma count_probes_quiet (f : Event -> bool) (first retry : string)
    (r0 : redis_reply Z) (rs : list (redis_reply Z)) :
  (forall key r, f (EExists key r) = false) ->
  count f (probes first retry r0 rs) = 0%nat.
Proof.
  intros Hf. unfold probes, count. cbn [List.filter]. rewrite Hf.
  induction rs as [|r rs IH]; [reflexivity|].
  cbn [List.map List.filter]. now rewrite Hf.
Qed.

Lemma count_probes (first retry : string) (r0 : redis_reply Z)
    (rs : list (redis_reply Z)) :
  count is_probe (probes first retry r0 rs) = S (List.length rs)
  /\ count is_write (probes first retry r0 rs) = 0%nat
  /\ count is_stored (probes first retry r0 rs) = 0%nat
  /\ count is_clock_read (probes first retry r0 rs) = 0%nat
  /\ count is_read_or_delete (probes first retry r0 rs) = 0%nat.
Proof.
  repeat split; try (apply count_probes_quiet; reflexivity).
  unfold probes, count. cbn [List.filter is_probe List.length]. f_equal.
  induction rs as [|r rs IH]; [reflexivity|].
  cbn [List.map List.filter is_probe List.length]. now rewrite IH.
Qed.

(** In a run that ends with its only write, a write is the last call. *)
Lemma write_is_last (xs : list Event) (w : Event) :
  count is_write xs = 0%nat ->
  forall before e after,
    xs ++ [w] = before ++ e :: after -> is_write e = true -> after = [].
Proof.
  induction xs as [|x xs IH]; intros Hxs before e after Heq He.
  - destruct before as [|b [|b' before]]; cbn in Heq; congruence.
  - unfold count in Hxs. cbn [List.filter] in Hxs.
    destruct (is_write x) eqn:Hx; [discriminate Hxs|].
    destruct before as [|b before]; cbn in Heq.
    + injection Heq as <- _. congruence.
    + injection Heq as _ Heq. exact (IH Hxs _ _ _ Heq He).
Qed.

Lemma no_write_no_split (xs : list Event) :
  count is_write xs = 0%nat ->
  forall before e after, xs = before ++ e :: after -> is_write e = true -> False.
Proof.
  intros Hxs before e after -> He.
  rewrite count_app in Hxs. unfold count in Hxs. cbn [List.filter] in Hxs.
  rewrite He in Hxs. cbn in Hxs. lia.
Qed.

Section GenerateCalls.
Context {floats : PyFloat} {cipher : Fernet} {local_time : LocalTime}.

(** X6. [generate_link] leaves an entry in the store exactly when it
    returns a response: a run that returns holds one write that the
    store acknowledged, a run that raises holds none. *)
Theorem generate_link_stores_iff_returns (self : LinkController.t)
    (request : LinkGenerateRequest) (authorization : option string)
    (tr : list Event) (r : result LinkGenerateResponse) :
  replay (LinkController.generate_link self request authorization) tr = Some r ->
  count is_stored tr = match r with Return _ => 1%nat | Raise _ => 0%nat end.
Proof.
  intros Hrun. apply generate_link_runs in Hrun.
  destruct Hrun as [ | | | token now expires t iv blob r0 rs last code tail r
                           Htok Htne Hv Hadd Hiv Ht Henc Hans Hlast Hcode Htail];
    try reflexivity.
  change (count is_stored
            (probes (HashingService.generate_short_code blob
                       HashingService.default_max_length)
                    (rederived blob now) r0 rs ++ tail)
          = match r with Return _ => 1%nat | Raise _ => 0%nat end).
  rewrite count_app.
  destruct (count_probes (HashingService.generate_short_code blob
                            HashingService.default_max_length)
              (rederived blob now) r0 rs) as (_ & _ & -> & _).
  destruct Htail; reflexivity.
Qed.

(** X7. The calls of one [generate_link]: at most six existence probes
    and one write; at most one reading of [datetime.utcnow()], and
    inside [Fernet.encrypt] at most one reading of [time.time()] and
    one draw of random bytes, so at most two readings of the clock in
    all; no read and no delete of an entry; and a write, when there is
    one, is the last call of the run. *)
Theorem generate_link_call_budget (self : LinkController.t)
    (request : LinkGenerateRequest) (authorization : option string)
    (tr : list Event) (r : result LinkGenerateResponse) :
  replay (LinkController.generate_link self request authorization) tr = Some r ->
  (count is_probe tr <= 6)%nat
  /\ (count is_write tr <= 1)%nat
  /\ (count is_utcnow tr <= 1)%nat
  /\ (count is_time_time tr <= 1)%nat
  /\ (count is_urandom tr <= 1)%nat
  /\ (count is_clock_read tr <= 2)%nat
  /\ count is_read_or_delete tr = 0%nat
  /\ (forall before e after,
        tr = before ++ e :: after -> is_write e = true -> after = []).
Proof.
  intros Hrun. apply generate_link_runs in Hrun.
  destruct Hrun as [ | | | token now expires t iv blob r0 rs last code tail r
                           Htok Htne Hv Hadd Hiv Ht Henc Hans Hlast Hcode Htail].
  1-3: (repeat split; try (cbn; lia);
        intros before ev after Heq He;
        exfalso; revert Heq He; apply no_write_no_split; reflexivity).
  set (ps := probes _ _ r0 rs) in *.
  destruct (count_probes (HashingService.generate_short_code blob
                            HashingService.default_max_length)
              (rederived blob now) r0 rs) as (Hp & Hw & _ & Hc & Hg).
  pose proof (count_probes_quiet is_utcnow
                (HashingService.generate_short_code blob
                   HashingService.default_max_length)
                (rederived blob now) r0 rs (fun _ _ => eq_refl)) as Hu.
  pose proof (count_probes_quiet is_time_time
                (HashingService.generate_short_code blob
                   HashingService.default_max_length)
                (rederived blob now) r0 rs (fun _ _ => eq_refl)) as Ht'.
  pose proof (count_probes_quiet is_urandom
                (HashingService.generate_short_code blob
                   HashingService.default_max_length)
                (rederived blob now) r0 rs (fun _ _ => eq_refl)) as Hr.
  fold ps in Hp, Hw, Hc, Hg, Hu, Ht', Hr.
  assert (Hpre : forall f,
             count f (EUtcnow now :: ETimeTime t :: EUrandom 16 iv :: ps ++ tail)
             = (count f [EUtcnow now; ETimeTime t; EUrandom 16 iv]
                + count f ps + count f tail)%nat).
  { intros f.
    change (EUtcnow now :: ETimeTime t :: EUrandom 16 iv :: ps ++ tail)
      with ([EUtcnow now; ETimeTime t; EUrandom 16 iv] ++ ps ++ tail).
    rewrite !count_app. lia. }
  assert (Hn : (List.length rs <= 5)%nat) by (destruct Htail; lia).
  rewrite !Hpre, Hp, Hw, Hc, Hg, Hu, Ht', Hr.
  assert (Htl : count is_probe tail = 0%nat /\ (count is_write tail <= 1)%nat
                /\ count is_utcnow tail = 0%nat
                /\ count is_time_time tail = 0%nat
                /\ count is_urandom tail = 0%nat
                /\ count is_clock_read tail = 0%nat
                /\ count is_read_or_delete tail = 0%nat)
    by (destruct Htail; repeat split; cbn; lia).
  destruct Htl as (-> & Hwt & -> & -> & -> & -> & ->).
  repeat split; try (cbn; lia).
  intros before ev after Heq He.
  assert (Hquiet : count is_write
                     ([EUtcnow now; ETimeTime t; EUrandom 16 iv] ++ ps) = 0%nat)
    by (rewrite count_app, Hw; reflexivity).
  change (EUtcnow now :: ETimeTime t :: EUrandom 16 iv :: ps ++ tail)
    with ([EUtcnow now; ETimeTime t; EUrandom 16 iv] ++ ps ++ tail) in Heq.
  rewrite List.app_assoc in Heq.
  destruct Htail.
  - rewrite List.app_nil_r in Heq.
    exfalso. exact (no_write_no_split _ Hquiet _ _ _ Heq He).
  - exact (write_is_last _ _ Hquiet _ _ _ Heq He).
  - exact (write_is_last _ _ Hquiet _ _ _ Heq He).
Qed.

End GenerateCalls.

Lemma count_cons (f : Event -> bool) (e : Event) (l : list Event) :
  count f (e :: l) = ((if f e then 1 else 0) + count f l)%nat.
Proof. unfold count. cbn [List.filter]. now destruct (f e). Qed.

(** A run splits in one way only at the first call of a kind. *)
Lemma split_at_first (f : Event -> bool) (l1 : list Event) :
  forall (x : Event) (l2 l1' : list Event) (x' : Event) (l2' : list Event),
    l1 ++ x :: l2 = l1' ++ x' :: l2' ->
    f x = true -> f x' = true -> count f l1 = 0%nat -> count f l1' = 0%nat ->
    l1 = l1' /\ x = x' /\ l2 = l2'.
Proof.
  induction l1 as [|a l1 IH]; intros x l2 l1' x' l2' Heq Hx Hx' H1 H1'.
  - destruct l1' as [|a' l1']; cbn in Heq.
    + injection Heq as -> ->. auto.
    + injection Heq as <- _. rewrite count_cons, Hx in H1'. discriminate H1'.
  - destruct l1' as [|a' l1']; cbn in Heq.
    + injection Heq as -> _. rewrite count_cons, Hx' in H1. discriminate H1.
    + injection Heq as <- Heq. rewrite count_cons in H1, H1'.
      destruct (f a); [discriminate H1|].
      destruct (IH _ _ _ _ _ Heq Hx Hx' H1 H1') as (-> & -> & ->). auto.
Qed.

Lemma count_truthy_probes (key : string) (rs : list (redis_reply Z)) :
  List.map reply_truth rs = repeat true (List.length rs) ->
  count is_free_probe (List.map (EExists key) rs) = 0%nat
  /\ count is_probe (List.map (EExists key) rs) = List.length rs.
Proof.
  induction rs as [|r rs IH]; [now split|].
  cbn [List.map List.length repeat]. intros [= Hr Hrs].
  rewrite !count_cons. cbn [is_free_probe is_probe]. rewrite Hr.
  destruct (IH Hrs) as [-> ->]. now split.
Qed.

(** The last probe of a collision loop is the one for the code that the
    loop leaves with; all probes before it reported a collision. *)
Lemma probes_last (first retry : string) (r0 : redis_reply Z)
    (rs : list (redis_reply Z)) (last : bool) :
  List.map reply_truth (r0 :: rs) = repeat true (List.length rs) ++ [last] ->
  exists init rl,
    probes first retry r0 rs
    = init ++ [EExists (LinkRepository.key_of
                          (match rs with [] => first | _ => retry end)) rl]
    /\ reply_truth rl = last
    /\ count is_free_probe init = 0%nat
    /\ count is_probe init = List.length rs.
Proof.
  intros Hans. unfold probes.
  destruct (List.exists_last (l := r0 :: rs) ltac:(discriminate)) as (ri & rl & Hsplit).
  destruct rs as [|r1 rs].
  - exists [], r0. cbn in Hans. injection Hans as ->. now repeat split.
  - destruct ri as [|r0' ri]; [destruct rs; discriminate Hsplit|].
    cbn [app] in Hsplit. injection Hsplit as <- Hrs. rewrite Hrs in Hans |- *.
    rewrite List.length_app in Hans. cbn [List.length] in Hans.
    rewrite Nat.add_1_r in Hans.
    change (List.map reply_truth (r0 :: ri ++ [rl]))
      with (reply_truth r0 :: List.map reply_truth (ri ++ [rl])) in Hans.
    rewrite List.map_app in Hans. cbn [List.map] in Hans.
    rewrite app_comm_cons in Hans.
    apply List.app_inj_tail in Hans as [Hinit Hlast].
    cbn [repeat] in Hinit. injection Hinit as H0 Hri.
    exists (EExists (LinkRepository.key_of first) r0
            :: List.map (EExists (LinkRepository.key_of retry)) ri), rl.
    rewrite List.map_app. cbn [List.map].
    destruct (count_truthy_probes (LinkRepository.key_of retry) ri) as [Hf Hp].
    { exact Hri. }
    split; [now destruct ri|]. split; [exact Hlast|]. split.
    + rewrite count_cons, Hf. cbn [is_free_probe]. now rewrite H0.
    + rewrite count_cons, Hp, List.length_app. cbn. lia.
Qed.

Section GenerateProbes.
Context {floats : PyFloat} {cipher : Fernet} {local_time : LocalTime}.

Lemma short_code_shape (b : bytes) :
  let code := HashingService.generate_short_code b
                HashingService.default_max_length in
  String.length code = 8%nat /\ forallb is_urlsafe (chars code) = true.
Proof.
  cbv zeta. unfold HashingService.default_max_length.
  split; [apply generate_short_code_length|].
  change 8 with (Z.of_nat 8). rewrite generate_short_code_firstn, chars_str.
  apply forallb_forall. intros c Hc.
  pose proof (b64url_nopad_chars (SHA256.digest b)) as Hall.
  rewrite List.Forall_forall in Hall.
  apply In_firstn, Hall in Hc. tauto.
Qed.

(** X8. Every code that [generate_link] returns has exactly eight
    characters, all of them letters, digits, [-] or [_]. *)
Theorem generate_link_code_shape (self : LinkController.t)
    (request : LinkGenerateRequest) (authorization : option string)
    (tr : list Event) (response : LinkGenerateResponse) :
  replay (LinkController.generate_link self request authorization) tr
  = Some (Return response) ->
  String.length (short_code response) = 8%nat
  /\ forallb is_urlsafe (chars (short_code response)) = true.
Proof.
  intros Hrun. apply generate_link_runs in Hrun.
  inversion Hrun as [ | | | token now expires t iv blob r0 rs last code tail r
                            Htok Htne Hv Hadd Hiv Ht Henc Hrs Hlast Hcode Htail];
    subst.
  inversion Htail as [ | | n u Hlt Hn Htl Hr]; subst.
  cbn [short_code]. destruct rs; apply short_code_shape.
Qed.

(** X9. A probe that the store answers with an error counts as "no
    such entry" and ends the collision loop: the write follows at once,
    under the very key whose probe failed, and the code is returned if
    that write succeeds.  Only when five retries have already been made
    does [generate_link] give up instead. *)
Theorem generate_link_probe_error (self : LinkController.t)
    (request : LinkGenerateRequest) (authorization : option string)
    (tr before after : list Event) (key msg : string)
    (r : result LinkGenerateResponse) :
  replay (LinkController.generate_link self request authorization) tr = Some r ->
  tr = before ++ EExists key (RedisError msg) :: after ->
  (count is_probe before = 5%nat /\ after = []
   /\ r = Raise (HTTPException 500 "Failed to generate unique short code"))
  \/ ((count is_probe before < 5)%nat
      /\ exists seconds value reply,
           after = [ESetex key seconds value reply]
           /\ forall u, reply = Reply u ->
                exists response,
                  r = Return response
                  /\ LinkRepository.key_of (short_code response) = key).
Proof.
  intros Hrun Heq. apply generate_link_runs in Hrun.
  destruct Hrun as [ | token now | token now expires t iv ex
                     | token now expires t iv blob r0 rs last code tail r
                         Htok Htne Hv Hadd Hiv Ht Henc Hans Hlast Hcode Htail].
  - destruct before; discriminate Heq.
  - destruct before as [|? [|? ?]]; discriminate Heq.
  - destruct before as [|? [|? [|? [|? ?]]]]; discriminate Heq.
  - destruct (probes_last (HashingService.generate_short_code blob
                             HashingService.default_max_length)
                (rederived blob now) r0 rs last Hans)
      as (init & rl & Hprobes & Hrl & Hfree & Hcount).
    rewrite <- Hcode in Hprobes. rewrite Hprobes in Heq.
    rewrite <- List.app_assoc in Heq. cbn [app] in Heq.
    assert (Htailq : count is_free_probe tail = 0%nat)
      by (destruct Htail; reflexivity).
    set (pre := EUtcnow now :: ETimeTime t :: EUrandom 16 iv :: init).
    change (EUtcnow now :: ETimeTime t :: EUrandom 16 iv
            :: init ++ EExists (LinkRepository.key_of code) rl :: tail)
      with (pre ++ EExists (LinkRepository.key_of code) rl :: tail) in Heq.
    assert (Hpre : count is_free_probe pre = 0%nat
                   /\ count is_probe pre = List.length rs).
    { unfold pre. rewrite !count_cons, Hfree, Hcount. now split. }
    destruct Hpre as [Hpre Hpren].
    assert (Hall : count is_free_probe
                     (pre ++ EExists (LinkRepository.key_of code) rl :: tail)
                   = (count is_free_probe before + 1
                      + count is_free_probe after)%nat).
    { rewrite Heq, count_app, count_cons.
      cbn [is_free_probe reply_truth negb]. lia. }
    rewrite count_app, count_cons, Hpre, Htailq in Hall.
    cbn [is_free_probe] in Hall.
    destruct (reply_truth rl) eqn:Htruth; cbn [negb] in Hall; [lia|].
    assert (Hb : count is_free_probe before = 0%nat) by lia.
    symmetry in Heq.
    destruct (split_at_first is_free_probe before _ _ pre _ _ Heq)
      as (-> & HE & ->); try assumption; try reflexivity.
    { cbn [is_free_probe]. now rewrite Htruth. }
    injection HE as -> _. rewrite Hpren.
    destruct Htail as [ | n emsg Hlt | n u Hlt].
    + left. now repeat split.
    + right. split; [exact Hlt|]. eexists _, _, _. split; [reflexivity|].
      discriminate.
    + right. split; [exact Hlt|]. eexists _, _, _. split; [reflexivity|].
      intros u' _. eexists. split; reflexivity.
Qed.

End GenerateProbes.

(** ** [generate_link]: the ways it fails *)

Section GenerateFailures.
Context {floats : PyFloat} {cipher : Fernet} {local_time : LocalTime}.

(** X10. The failures of [generate_link], all of them: 401 for a
    missing credential, before any call; the [OverflowError] of the
    expiry computation, after the clock was read and nothing else; 500
    "Failed to encrypt data: ..." when the cipher raises, before any
    call to the store; 500 "Failed to generate unique short code" after
    six probes; and 500 "Failed to save link: Failed to save link data:
    ..." with the error of the store when the final write fails. *)
Theorem generate_link_failures (self : LinkController.t)
    (request : LinkGenerateRequest) (authorization : option string)
    (tr : list Event) (e : exn) :
  replay (LinkController.generate_link self request authorization) tr
  = Some (Raise e) ->
  (e = HTTPException 401 "Authorization token is required" /\ tr = [])
  \/ (exists msg now,
        e = PyError "OverflowError" msg /\ tr = [EUtcnow now]
        /\ add_hours now (LinkController.expiration_hours self) = None)
  \/ (exists cause now t iv,
        e = HTTPException 500
              ("Failed to encrypt data: Failed to encrypt data: "
               ++ exn_str cause)
        /\ tr = [EUtcnow now; ETimeTime t; EUrandom 16 iv])
  \/ (e = HTTPException 500 "Failed to generate unique short code"
      /\ count is_probe tr = 6%nat /\ count is_write tr = 0%nat)
  \/ (exists before key seconds value msg,
        e = HTTPException 500
              ("Failed to save link: Failed to save link data: " ++ msg)
        /\ tr = before ++ [ESetex key seconds value (RedisError msg)]
        /\ count is_write before = 0%nat).
Proof.
  intros Hrun. apply generate_link_runs in Hrun.
  inversion Hrun as [ Hm Htr Hr | token now Htok Htne Hv Hadd Htr Hr
                     | token now expires t iv cause Htok Htne Hv Hadd Hiv Ht Henc
                         Htr Hr
                     | token now expires t iv blob r0 rs last code tail r
                         Htok Htne Hv Hadd Hiv Ht Henc Hans Hlast Hcode Htail
                         Htr Hr]; subst.
  - left. now split.
  - right; left. eauto.
  - right; right; left. exists cause, now, t, iv. now split.
  - set (ps := probes _ _ r0 rs) in *.
    destruct (count_probes (HashingService.generate_short_code blob
                              HashingService.default_max_length)
                (rederived blob now) r0 rs) as (Hp & Hw & _).
    fold ps in Hp, Hw.
    inversion Htail as [Hn Htl Hr | n msg Hlt Hn Htl Hr | n u Hlt Hn Htl Hr]; subst.
    + right; right; right; left. split; [reflexivity|].
      rewrite List.app_nil_r, !count_cons, Hp, Hw. cbn [is_probe is_write].
      split; lia.
    + right; right; right; right.
      exists (EUtcnow now :: ETimeTime t :: EUrandom 16 iv :: ps).
      eexists _, _, _, msg. split; [reflexivity|]. split; [reflexivity|].
      rewrite !count_cons, Hw. reflexivity.
Qed.

End GenerateFailures.

(** ** [validate_link]: all its runs *)

Section ValidateMore.
Context {floats : PyFloat} {cipher : Fernet}.

Lemma get_replay (code : string) (tr : list Event) (a : option (bytes * json)) :
  replay (LinkRepository.get code) tr = Some a
  <-> exists reply, tr = [EGet (LinkRepository.key_of code) reply]
                    /\ a = fetched reply.
Proof.
  unfold LinkRepository.get. rewrite replay_get. split.
  - intros (reply & tr' & -> & H). exists reply.
    destruct reply as [[[|b data]|]|msg]; cbn [fetched];
      apply replay_ret in H as [-> ->]; auto.
  - intros (reply & -> & ->). exists reply, []. split; [reflexivity|].
    destruct reply as [[[|b data]|]|msg]; reflexivity.
Qed.

Lemma validate_link_runs (self : LinkController.t) (code : string)
    (tr : list Event) (r : result LinkValidationResponse) :
  replay (LinkController.validate_link self code) tr = Some r ->
  validate_run code tr r.
Proof.
  unfold LinkController.validate_link. rewrite replay_bind.
  intros (link & tr1 & tr2 & -> & Hget & Hrest).
  apply get_replay in Hget as (reply & -> & ->).
  destruct (fetched reply) as [[blob meta]|] eqn:Hf.
  2:{ apply replay_ret in Hrest as [-> ->]. now constructor. }
  cbv zeta in Hrest.
  destruct (LinkController.truthy_opt (EncryptionService.decrypt blob)) eqn:Ht;
    cbn [negb] in Hrest.
  2:{ apply replay_ret in Hrest as [-> ->]. now apply (run_corrupted _ _ blob meta). }
  destruct (EncryptionService.decrypt blob) as [v|] eqn:Hd; [|discriminate Ht].
  cbn [LinkController.truthy_opt] in Ht.
  destruct v as [|b|n|x|s|l|record];
    try (apply replay_ret in Hrest as [-> ->];
         apply (run_not_a_record _ _ blob meta _ Hf Hd Ht); discriminate).
  assert (Hne : record <> []) by (intros ->; discriminate Ht).
  destruct (LinkController.truthy_opt (dict_get "expires_at" record)) eqn:He.
  2:{ apply replay_ret in Hrest as [-> ->]. now apply (run_undated _ _ blob meta). }
  destruct (LinkController.fromisoformat_value (dict_get "expires_at" record))
    as [expires|e] eqn:Hiso.
  2:{ apply replay_ret in Hrest as [-> ->].
      now apply (run_bad_expiry _ _ blob meta record). }
  apply replay_utcnow in Hrest as (now & tr' & -> & Hv & Hrest).
  destruct (datetime_gtb now expires) eqn:Hgt;
    apply replay_ret in Hrest as [-> ->];
    pose proof (run_dated code reply blob meta record expires now Hf Hd Hne He
                  Hiso Hv) as Hrun;
    rewrite Hgt in Hrun; exact Hrun.
Qed.

Lemma validate_run_replays (self : LinkController.t) (code : string)
    (tr : list Event) (r : result LinkValidationResponse) :
  validate_run code tr r ->
  replay (LinkController.validate_link self code) tr = Some r.
Proof.
  intros Hrun. unfold LinkController.validate_link. apply replay_bind.
  destruct Hrun as [reply Hf | reply blob meta Hf Ht | reply blob meta v Hf Hd Ht Hv
                    | reply blob meta record Hf Hd Hne He
                    | reply blob meta record e Hf Hd Hne He Hiso
                    | reply blob meta record expires now Hf Hd Hne He Hiso Hnow].
  all: eexists (fetched reply), [EGet (LinkRepository.key_of code) reply], _.
  all: (split; [reflexivity|]).
  all: (split; [apply get_replay; eauto|]).
  all: rewrite Hf; cbv zeta.
  - reflexivity.
  - now rewrite Ht.
  - rewrite Hd. cbn [LinkController.truthy_opt]. rewrite Ht. cbn [negb].
    destruct v; try reflexivity. now destruct (Hv d).
  - rewrite Hd. destruct record; [congruence|].
    cbn [LinkController.truthy_opt truthy negb]. now rewrite He.
  - rewrite Hd. destruct record; [congruence|].
    cbn [LinkController.truthy_opt truthy negb]. now rewrite He, Hiso.
  - rewrite Hd. destruct record; [congruence|].
    cbn [LinkController.truthy_opt truthy negb]. rewrite He, Hiso.
    cbn [replay]. rewrite Hnow. now destruct (datetime_gtb now expires).
Qed.

End ValidateMore.

Section ValidateProps.
Context {floats : PyFloat} {cipher : Fernet}.

Lemma fetched_found (raw blob : bytes) (meta : json) :
  LinkRepository.parse_stored raw = Some (blob, meta) ->
  fetched (Reply (Some raw)) = Some (blob, meta).
Proof.
  intros H. destruct raw as [|b raw]; [vm_compute in H; discriminate H|].
  exact H.
Qed.

(** The response built from a record whose fields the schema accepts. *)
Lemma valid_response_accepted (record : dict) (stamp : option datetime)
    (payload : option dict) (credential : option string) :
  (LinkController.truthy_opt (dict_get "encrypted_at" record) = false
   /\ stamp = None
   \/ exists s d, dict_get "encrypted_at" record = Some (JStr s)
                  /\ fromisoformat s = Some d /\ stamp = Some d) ->
  optional_dict (dict_get "data" record) = Return payload ->
  optional_str (dict_get "token" record) = Return credential ->
  LinkController.valid_response record
  = Return {| valid := true; data := payload; token := credential;
              encrypted_at := stamp; error := None |}.
Proof.
  intros Hstamp Hdata Htoken.
  unfold LinkController.valid_response. rewrite Hdata, Htoken.
  destruct Hstamp as [[-> ->] | (s & d & Hs & Hiso & ->)]; [reflexivity|].
  rewrite Hs.
  destruct s as [|c s]; [vm_compute in Hiso; discriminate|].
  cbn [LinkController.truthy_opt truthy negb String.eqb
       LinkController.fromisoformat_value].
  now rewrite Hiso.
Qed.

(** What a response of [valid_response] looks like. *)
Lemma valid_response_returns (record : dict) (response : LinkValidationResponse) :
  LinkController.valid_response record = Return response ->
  valid response = true /\ error response = None
  /\ optional_dict (dict_get "data" record) = Return (data response)
  /\ optional_str (dict_get "token" record) = Return (token response).
Proof.
  unfold LinkController.valid_response.
  destruct (LinkController.truthy_opt (dict_get "encrypted_at" record)).
  - destruct (LinkController.fromisoformat_value (dict_get "encrypted_at" record));
      [|discriminate].
    destruct (optional_dict (dict_get "data" record)); [|discriminate].
    destruct (optional_str (dict_get "token" record)); [|discriminate].
    intros [= <-]. now repeat split.
  - destruct (optional_dict (dict_get "data" record)); [|discriminate].
    destruct (optional_str (dict_get "token" record)); [|discriminate].
    intros [= <-]. now repeat split.
Qed.

(** X11. [validate_link] answers "Link not found or expired", after the
    one lookup and nothing else, when the store has no entry under the
    key, when it holds an empty value, when the lookup fails with an
    error of the store, and when the entry is JSON but not a link entry
    (no hex string [encrypted_data] or no [metadata]). *)
Theorem validate_link_not_found (self : LinkController.t) (code : string)
    (reply : redis_reply (option bytes)) :
  reply = Reply None \/ reply = Reply (Some [])
  \/ (exists msg, reply = RedisError msg)
  \/ (exists raw text v,
        reply = Reply (Some raw) /\ utf8_decode raw = Some text
        /\ json_loads text = Some v
        /\ LinkRepository.parse_stored raw = None) ->
  replay (LinkController.validate_link self code)
         [EGet (LinkRepository.key_of code) reply]
  = Some (Return {| valid := false; data := None; token := None;
                    encrypted_at := None;
                    error := Some "Link not found or expired" |}).
Proof.
  intros Hreply. apply validate_run_replays. apply run_not_found.
  destruct Hreply as [-> | [-> | [[msg ->] | (raw & text & v & -> & _ & _ & Hp)]]];
    try reflexivity.
  destruct raw; [reflexivity | exact Hp].
Qed.


(** X13. [validate_link] only reads: every run is the one lookup of
    the key [link:<code>], followed by at most one reading of the
    clock.  It never writes, deletes or probes, so a link can be
    validated any number of times. *)
Theorem validate_link_read_only (self : LinkController.t) (code : string)
    (tr : list Event) (r : result LinkValidationResponse) :
  replay (LinkController.validate_link self code) tr = Some r ->
  exists reply,
    tr = [EGet (LinkRepository.key_of code) reply]
    \/ exists now, tr = [EGet (LinkRepository.key_of code) reply; EUtcnow now].
Proof.
  intros Hrun. apply validate_link_runs in Hrun.
  destruct Hrun; eauto.
Qed.

(** X14. [validate_link] says valid only for a live, authentic record:
    if the response has [valid = true], then the store returned an
    entry whose ciphertext the cipher accepted and which decrypts to a
    record; the response carries that record's data and credential and
    no error; and either the record has no expiry (the clock was not
    read) or the clock was read and its time is not later than the
    record's [expires_at]. *)
Theorem validate_link_valid_sound (self : LinkController.t) (code : string)
    (tr : list Event) (response : LinkValidationResponse) :
  replay (LinkController.validate_link self code) tr = Some (Return response) ->
  valid response = true ->
  exists raw blob meta plain record,
    LinkRepository.parse_stored raw = Some (blob, meta)
    /\ fernet_decrypt blob = Some plain
    /\ EncryptionService.decrypt blob = Some (JDict record)
    /\ optional_dict (dict_get "data" record) = Return (data response)
    /\ optional_str (dict_get "token" record) = Return (token response)
    /\ error response = None
    /\ (tr = [EGet (LinkRepository.key_of code) (Reply (Some raw))]
        /\ LinkController.truthy_opt (dict_get "expires_at" record) = false
        \/ exists s expires now,
             tr = [EGet (LinkRepository.key_of code) (Reply (Some raw));
                   EUtcnow now]
             /\ dict_get "expires_at" record = Some (JStr s)
             /\ fromisoformat s = Some expires
             /\ datetime_gtb now expires = false).
Proof.
  intros Hrun Hvalid. apply validate_link_runs in Hrun.
  assert (Hraw : forall reply blob meta,
             fetched reply = Some (blob, meta) ->
             exists raw, reply = Reply (Some raw)
                         /\ LinkRepository.parse_stored raw = Some (blob, meta)).
  { intros [[[|b raw]|]|msg] blob meta Hf; try discriminate Hf. eauto. }
  assert (Hplain : forall blob v,
             EncryptionService.decrypt blob = Some v ->
             exists plain, fernet_decrypt blob = Some plain).
  { intros blob v. unfold EncryptionService.decrypt.
    destruct (fernet_decrypt blob); [eauto | discriminate]. }
  inversion Hrun as [reply Hf | reply blob meta Hf Ht | reply blob meta v Hf Hd Ht Hv
                     | reply blob meta record Hf Hd Hne He Htr Hu
                     | reply blob meta record e Hf Hd Hne He Hiso
                     | reply blob meta record expires now Hf Hd Hne He Hiso Hnow Htr Hr];
    subst; try discriminate Hvalid.
  - destruct (Hraw _ _ _ Hf) as (raw & -> & Hp).
    destruct (Hplain _ _ Hd) as [plain Hpl].
    apply valid_response_returns in Hu as (_ & Herr & Hdata & Htok).
    exists raw, blob, meta, plain, record. repeat split; auto.
  - destruct (datetime_gtb now expires) eqn:Hgt.
    { injection Hr as <-. discriminate Hvalid. }
    destruct (Hraw _ _ _ Hf) as (raw & -> & Hp).
    destruct (Hplain _ _ Hd) as [plain Hpl].
    apply valid_response_returns in Hr as (_ & Herr & Hdata & Htok).
    exists raw, blob, meta, plain, record. repeat split; auto.
    right.
    destruct (dict_get "expires_at" record) as [[| | | |s| |]|];
      try discriminate Hiso.
    cbn [LinkController.fromisoformat_value] in Hiso.
    destruct (fromisoformat s) as [d|] eqn:Hs; [|discriminate Hiso].
    injection Hiso as ->. exists s, expires, now. auto.
Qed.

(** X15. A response that is not valid carries nothing of the record:
    every response of [validate_link] either is valid and has no error,
    or has no data, no credential and no timestamp and gives one of the
    three reasons. *)
Theorem validate_link_invalid_is_empty (self : LinkController.t)
    (code : string) (tr : list Event) (response : LinkValidationResponse) :
  replay (LinkController.validate_link self code) tr = Some (Return response) ->
  (valid response = true /\ error response = None)
  \/ (valid response = false /\ data response = None /\ token response = None
      /\ encrypted_at response = None
      /\ (error response = Some "Link not found or expired"
          \/ error response = Some "Link data is corrupted or invalid"
          \/ error response = Some "Link has expired")).
Proof.
  intros Hrun. apply validate_link_runs in Hrun.
  inversion Hrun as [reply Hf | reply blob meta Hf Ht | reply blob meta v Hf Hd Ht Hv
                     | reply blob meta record Hf Hd Hne He Htr Hu
                     | reply blob meta record e Hf Hd Hne He Hiso
                     | reply blob meta record expires now Hf Hd Hne He Hiso Hnow Htr Hr];
    subst.
  - right. cbn. auto 10.
  - right. cbn. auto 10.
  - apply valid_response_returns in Hu as (Hv & Herr & _).
    now left.
  - destruct (datetime_gtb now expires).
    + injection Hr as <-. right. cbn. auto 10.
    + apply valid_response_returns in Hr as (Hv & Herr & _).
      now left.
Qed.

End ValidateProps.

(** ** [validate_link]: what it does not look at *)

Section ValidateBlind.
Context {floats : PyFloat} {cipher : Fernet}.

(** X16. [validate_link] decides on the ciphertext alone: neither the
    metadata stored beside it nor the code under which the entry was
    found enters the answer.  Two entries with the same ciphertext
    give the same runs and responses, whatever their metadata and
    whatever the codes they are looked up under. *)
Theorem validate_link_ciphertext_only (self : LinkController.t)
    (code code' : string) (raw raw' blob : bytes) (meta meta' : json)
    (tr : list Event) (r : result LinkValidationResponse) :
  LinkRepository.parse_stored raw = Some (blob, meta) ->
  LinkRepository.parse_stored raw' = Some (blob, meta') ->
  replay (LinkController.validate_link self code)
    (EGet (LinkRepository.key_of code) (Reply (Some raw)) :: tr) = Some r
  <-> replay (LinkController.validate_link self code')
        (EGet (LinkRepository.key_of code') (Reply (Some raw')) :: tr) = Some r.
Proof.
  intros Hp Hp'.
  rewrite (validate_link_found self code raw blob meta tr r Hp).
  rewrite (validate_link_found self code' raw' blob meta' tr r Hp').
  reflexivity.
Qed.

End ValidateBlind.

(** ** The repository: what is written can be read back *)

Section Repository.
Context {floats : PyFloat}.

Lemma stored_entry_parses (blob : bytes) (metadata : json) :
  wf_json metadata = true ->
  LinkRepository.parse_stored
    (utf8_encode (json_dumps (JDict [("encrypted_data", JStr (hex blob));
                                     ("metadata", metadata)])))
  = Some (blob, metadata).
Proof.
  intros Hwf. unfold LinkRepository.parse_stored.
  rewrite utf8_decode_json_dumps, json_loads_dumps by now apply wf_stored.
  cbn [dict_get String.eqb Ascii.eqb Bool.eqb]. now rewrite fromhex_hex.
Qed.

Lemma append_cancel (p a b : string) : (p ++ a = p ++ b)%string -> a = b.
Proof.
  induction p as [|c p IH]; [exact id|].
  change (String c (p ++ a) = String c (p ++ b) -> a = b)%string.
  intros [= H]. exact (IH H).
Qed.

Lemma key_of_inj (a b : string) :
  LinkRepository.key_of a = LinkRepository.key_of b -> a = b.
Proof. apply append_cancel. Qed.

(** X17. [get] reads back what [save] wrote: when [save] succeeds it has
    made one SETEX under the key [link:<code>], and [get], given the
    bytes of that value, returns the very ciphertext and metadata that
    were saved. *)
Theorem save_then_get (self : LinkRepository.t) (code : string) (blob : bytes)
    (metadata : json) (tr : list Event) :
  wf_json metadata = true ->
  replay (LinkRepository.save self code blob metadata) tr = Some (Return true) ->
  exists value u,
    tr = [ESetex (LinkRepository.key_of code)
            (LinkRepository.expiration_hours self * 3600) value (Reply u)]
    /\ replay (LinkRepository.get code)
         [EGet (LinkRepository.key_of code) (Reply (Some (utf8_encode value)))]
       = Some (Some (blob, metadata)).
Proof.
  intros Hwf. unfold LinkRepository.save. rewrite replay_setex.
  intros (r & tr' & -> & Hrest).
  destruct r as [u|msg]; apply replay_ret in Hrest as [-> Hr]; [|discriminate Hr].
  eexists _, u. split; [reflexivity|].
  apply get_replay. eexists. split; [reflexivity|].
  symmetry. apply fetched_found. now apply stored_entry_parses.
Qed.

(** X18. On a store that behaves like Redis, and for a positive
    expiration time: after [save], [get] returns what was saved and
    [exists] is true, whatever the key held before; [delete] then reports
    a removal, after which [get] finds nothing, [exists] is false and a
    second [delete] reports none. *)
Theorem repository_lifecycle (self : LinkRepository.t) (code : string)
    (blob : bytes) (metadata : json) (w : World) :
  0 < LinkRepository.expiration_hours self ->
  wf_json metadata = true ->
  let saved := run world_handler (LinkRepository.save self code blob metadata) w in
  let removed := run world_handler (LinkRepository.delete code) (snd saved) in
  fst saved = Return true
  /\ fst (run world_handler (LinkRepository.get code) (snd saved))
     = Some (blob, metadata)
  /\ fst (run world_handler (LinkRepository.exists_ code) (snd saved)) = true
  /\ fst removed = true
  /\ fst (run world_handler (LinkRepository.get code) (snd removed)) = None
  /\ fst (run world_handler (LinkRepository.exists_ code) (snd removed)) = false
  /\ fst (run world_handler (LinkRepository.delete code) (snd removed)) = false
  /\ store (snd removed) = delete (LinkRepository.key_of code) (store w).
Proof.
  intros Hpos Hwf. cbv zeta.
  unfold LinkRepository.save, LinkRepository.get, LinkRepository.exists_,
    LinkRepository.delete.
  cbn [run world_handler on_setex on_get on_exists on_delete].
  assert (Hs : (0 <? LinkRepository.expiration_hours self * 3600) = true)
    by (apply Z.ltb_lt; lia).
  rewrite Hs. cbn [fst snd store run].
  rewrite !lookup_insert_eq. cbn [fmap option_fmap option_map snd fst run store].
  rewrite !lookup_delete_eq. cbn [fmap option_fmap option_map snd fst run store].
  rewrite delete_insert_eq.
  pose proof (stored_entry_parses blob metadata Hwf) as Hp.
  destruct (utf8_encode _) eqn:Hv; [vm_compute in Hp; discriminate Hp|].
  cbn [run fst]. rewrite Hp. now repeat split.
Qed.

(** X19. [save] and [delete] touch the entry of their own code only: on
    a store that behaves like Redis, [get] and [exists] for any other
    code answer after them as they did before. *)
Theorem repository_isolation (self : LinkRepository.t) (code other : string)
    (blob : bytes) (metadata : json) (w : World) :
  other <> code ->
  let saved := snd (run world_handler
                      (LinkRepository.save self code blob metadata) w) in
  let removed := snd (run world_handler (LinkRepository.delete code) w) in
  fst (run world_handler (LinkRepository.get other) saved)
  = fst (run world_handler (LinkRepository.get other) w)
  /\ fst (run world_handler (LinkRepository.exists_ other) saved)
     = fst (run world_handler (LinkRepository.exists_ other) w)
  /\ fst (run world_handler (LinkRepository.get other) removed)
     = fst (run world_handler (LinkRepository.get other) w)
  /\ fst (run world_handler (LinkRepository.exists_ other) removed)
     = fst (run world_handler (LinkRepository.exists_ other) w).
Proof.
  intros Hne. cbv zeta.
  assert (Hk : LinkRepository.key_of code <> LinkRepository.key_of other)
    by (intros H; apply key_of_inj in H; congruence).
  unfold LinkRepository.save, LinkRepository.get, LinkRepository.exists_,
    LinkRepository.delete.
  cbn [run world_handler on_setex on_get on_exists on_delete].
  destruct (0 <? LinkRepository.expiration_hours self * 3600);
    destruct (store w !! LinkRepository.key_of code);
    cbn [fst snd store run];
    rewrite ?lookup_insert_ne, ?lookup_delete_ne by exact Hk.
  all: destruct (store w !! LinkRepository.key_of other) as [[? [|? ?]]|];
    now repeat split.
Qed.

End Repository.

(** ** The calendar: ordinals and the order of datetimes *)

Lemma month_day_ordinal (n : Z) (leapyear : bool) :
  0 <= n <= 364 ->
  nth (Z.to_nat (fst (month_day n leapyear))) days_before_month_table 0
  + (if (2 <? fst (month_day n leapyear)) && leapyear then 1 else 0)
  + snd (month_day n leapyear) = n + 1.
Proof.
  intros Hn.
  assert (Hall : forallb (fun k =>
            let md := month_day (Z.of_nat k) leapyear in
            nth (Z.to_nat (fst md)) days_before_month_table 0
            + (if (2 <? fst md) && leapyear then 1 else 0) + snd md
            =? Z.of_nat k + 1) (seq 0 365) = true)
    by (destruct leapyear; vm_compute; reflexivity).
  rewrite forallb_forall in Hall.
  specialize (Hall (Z.to_nat n)). rewrite Z2Nat.id in Hall by lia.
  cbv zeta in Hall. apply Z.eqb_eq, Hall, in_seq. lia.
Qed.

Lemma days_before_year_cycle (q n100 n4 n1 : Z) :
  0 <= n100 <= 3 -> 0 <= n4 <= 24 -> 0 <= n1 <= 3 ->
  days_before_year (q * 400 + 1 + n100 * 100 + n4 * 4 + n1)
  = 146097 * q + 36524 * n100 + 1461 * n4 + 365 * n1.
Proof.
  intros H100 H4 H1. unfold days_before_year. cbv zeta.
  replace (q * 400 + 1 + n100 * 100 + n4 * 4 + n1 - 1)
    with (q * 400 + n100 * 100 + n4 * 4 + n1) by lia.
  Z.div_mod_to_equations. lia.
Qed.

Lemma ymd2ord_ord2ymd (n : Z) :
  0 < n <= 3652059 ->
  ymd2ord (fst (fst (ord2ymd n))) (snd (fst (ord2ymd n))) (snd (ord2ymd n)) = n.
Proof.
  intros Hn. unfold ord2ymd. cbv zeta.
  pose proof (Z.div_mod (n - 1) 146097 ltac:(lia)) as E1.
  pose proof (Z.mod_pos_bound (n - 1) 146097 ltac:(lia)) as B1.
  set (q := (n - 1) / 146097) in *. set (r1 := (n - 1) mod 146097) in *.
  pose proof (Z.div_mod r1 36524 ltac:(lia)) as E2.
  pose proof (Z.mod_pos_bound r1 36524 ltac:(lia)) as B2.
  set (n100 := r1 / 36524) in *. set (r2 := r1 mod 36524) in *.
  pose proof (Z.div_mod r2 1461 ltac:(lia)) as E3.
  pose proof (Z.mod_pos_bound r2 1461 ltac:(lia)) as B3.
  set (n4 := r2 / 1461) in *. set (r3 := r2 mod 1461) in *.
  pose proof (Z.div_mod r3 365 ltac:(lia)) as E4.
  pose proof (Z.mod_pos_bound r3 365 ltac:(lia)) as B4.
  set (n1 := r3 / 365) in *. set (r4 := r3 mod 365) in *.
  clearbody q r1 n100 r2 n4 r3 n1 r4.
  assert (Hdec : forall y, days_before_month y 12 + 31
                           = 365 + (if is_leap y then 1 else 0))
    by (intros y; unfold days_before_month; cbn; destruct (is_leap y); reflexivity).
  destruct (Z.eqb_spec n1 4) as [H1|H1]; destruct (Z.eqb_spec n100 4) as [H100|H100];
    cbn [orb fst snd].
  - exfalso. lia.
  - unfold ymd2ord. rewrite <- Z.add_assoc, Hdec.
    replace (q * 400 + 1 + n100 * 100 + n4 * 4 + n1 - 1)
      with (q * 400 + 1 + n100 * 100 + n4 * 4 + 3) by lia.
    rewrite is_leap_cycle, days_before_year_cycle by lia.
    destruct (Z.eqb_spec n4 24); [exfalso; lia|].
    rewrite Z.eqb_refl. cbn [negb andb orb]. lia.
  - unfold ymd2ord. rewrite <- Z.add_assoc, Hdec.
    replace (q * 400 + 1 + n100 * 100 + n4 * 4 + n1 - 1)
      with (q * 400 + 1 + 3 * 100 + 24 * 4 + 3) by lia.
    rewrite is_leap_cycle, days_before_year_cycle by lia.
    rewrite !Z.eqb_refl. cbn [negb andb orb]. lia.
  - pose proof (month_day_ordinal r4
                  ((n1 =? 3) && (negb (n4 =? 24) || (n100 =? 3))) ltac:(lia)) as Hmd.
    destruct (month_day r4 ((n1 =? 3) && (negb (n4 =? 24) || (n100 =? 3))))
      as [m d] eqn:Emd.
    cbn [fst snd] in *. unfold ymd2ord, days_before_month.
    rewrite is_leap_cycle, days_before_year_cycle by lia. lia.
Qed.

(** [(d + timedelta(hours=h)) - d == timedelta(hours=h)] *)
Lemma add_hours_sub (d e : datetime) (h : Z) :
  valid_datetime d = true -> add_hours d h = Some e ->
  datetime_sub e d = h * 3600 * 1000000.
Proof.
  intros Hv. pose proof (valid_datetime_bounds d Hv) as Hb.
  unfold add_hours. cbv zeta.
  destruct (_ <? _); [discriminate|].
  set (total := hour d * 3600 + minute d * 60 + second d + h * 3600).
  destruct (Z.ltb_spec 0 (toordinal d + total / 86400)) as [H0|]; [|discriminate].
  destruct (Z.leb_spec (toordinal d + total / 86400) 3652059) as [H1|];
    [|discriminate].
  cbn [andb].
  pose proof (ymd2ord_ord2ymd (toordinal d + total / 86400) ltac:(lia)) as Hord.
  destruct (ord2ymd (toordinal d + total / 86400)) as [[y m] dd].
  cbn [fst snd] in Hord. intros [= <-].
  unfold datetime_sub, toordinal at 1.
  cbn [year month day hour minute second microsecond]. rewrite Hord.
  pose proof (Z.div_mod total 86400 ltac:(lia)) as E0.
  pose proof (Z.mod_pos_bound total 86400 ltac:(lia)) as Hs.
  set (secs := total mod 86400) in *.
  pose proof (Z.div_mod secs 3600 ltac:(lia)) as E1.
  pose proof (Z.div_mod (secs mod 3600) 60 ltac:(lia)) as E2.
  assert (E3 : secs mod 60 = (secs mod 3600) mod 60)
    by (clear; Z.div_mod_to_equations; lia).
  rewrite E3. subst total. lia.
Qed.

Lemma days_before_year_succ (y : Z) :
  days_before_year (y + 1)
  = days_before_year y + 365 + (if is_leap y then 1 else 0).
Proof.
  unfold days_before_year, is_leap. cbv zeta.
  replace (y + 1 - 1) with y by lia.
  destruct (Z.eqb_spec (y mod 4) 0); destruct (Z.eqb_spec (y mod 100) 0);
    destruct (Z.eqb_spec (y mod 400) 0); cbn [negb andb orb];
    Z.div_mod_to_equations; lia.
Qed.

Lemma days_before_year_mono (y : Z) (k : nat) :
  days_before_year y + 365 * Z.of_nat k <= days_before_year (y + Z.of_nat k).
Proof.
  induction k as [|k IH].
  - replace (y + Z.of_nat 0) with y by lia. lia.
  - replace (y + Z.of_nat (S k)) with (y + Z.of_nat k + 1) by lia.
    rewrite days_before_year_succ. destruct (is_leap (y + Z.of_nat k)); lia.
Qed.

Lemma month_cases (m : Z) :
  1 <= m <= 12 ->
  m = 1 \/ m = 2 \/ m = 3 \/ m = 4 \/ m = 5 \/ m = 6 \/ m = 7 \/ m = 8 \/ m = 9
  \/ m = 10 \/ m = 11 \/ m = 12.
Proof. lia. Qed.

Lemma day_of_year_bounds (y m d : Z) :
  1 <= m <= 12 -> 1 <= d <= days_in_month y m ->
  1 <= days_before_month y m + d <= 365 + (if is_leap y then 1 else 0).
Proof.
  intros Hm. unfold days_in_month, days_before_month.
  destruct (is_leap y);
    destruct (month_cases m Hm) as [->|[->|[->|[->|[->|[->|[->|[->|[->|[->|[->| ->]]]]]]]]]]];
    vm_compute month_length; vm_compute nth; vm_compute andb; lia.
Qed.

Lemma months_in_order (y m m' : Z) :
  1 <= m -> m < m' -> m' <= 12 ->
  days_before_month y m + days_in_month y m <= days_before_month y m'.
Proof.
  intros H1 Hlt H12. unfold days_in_month, days_before_month.
  assert (Hm : 1 <= m <= 12) by lia. assert (Hm' : 1 <= m' <= 12) by lia.
  destruct (is_leap y);
    destruct (month_cases m Hm) as [->|[->|[->|[->|[->|[->|[->|[->|[->|[->|[->| ->]]]]]]]]]]];
    destruct (month_cases m' Hm') as [->|[->|[->|[->|[->|[->|[->|[->|[->|[->|[->| ->]]]]]]]]]]];
    try lia; vm_compute; discriminate.
Qed.

(** The ordinal grows with the date. *)
Lemma ymd2ord_lt (y m d y' m' d' : Z) :
  1 <= y -> 1 <= m <= 12 -> 1 <= d <= days_in_month y m ->
  1 <= m' <= 12 -> 1 <= d' <= days_in_month y' m' ->
  y < y' \/ (y = y' /\ (m < m' \/ (m = m' /\ d < d'))) ->
  ymd2ord y m d < ymd2ord y' m' d'.
Proof.
  intros Hy Hm Hd Hm' Hd' Hlt. unfold ymd2ord.
  pose proof (day_of_year_bounds y m d Hm Hd) as Ha.
  pose proof (day_of_year_bounds y' m' d' Hm' Hd') as Hb.
  destruct Hlt as [Hlt | [<- [Hlt | [<- Hlt]]]]; [| |lia].
  - pose proof (days_before_year_succ y) as Hs.
    pose proof (days_before_year_mono (y + 1) (Z.to_nat (y' - (y + 1)))) as Hmono.
    rewrite Z2Nat.id in Hmono by lia.
    replace (y + 1 + (y' - (y + 1))) with y' in Hmono by lia. lia.
  - pose proof (months_in_order y m m' ltac:(lia) Hlt ltac:(lia)). lia.
Qed.

Lemma valid_datetime_date (d : datetime) :
  valid_datetime d = true ->
  1 <= year d /\ 1 <= month d <= 12
  /\ 1 <= day d <= days_in_month (year d) (month d)
  /\ 0 <= hour d <= 23 /\ 0 <= minute d <= 59 /\ 0 <= second d <= 59
  /\ 0 <= microsecond d <= 999999.
Proof.
  unfold valid_datetime. rewrite !andb_true_iff, !Z.leb_le. lia.
Qed.

(** One place of a lexicographic comparison: decided here, or passed on to
    the next place. *)
Ltac lex_step x y :=
  let H := fresh "H" in
  destruct (Z.lt_trichotomy x y) as [H|[H|H]];
  [ rewrite (proj2 (Z.ltb_lt x y) H); cbn [orb];
    split; [intros _; lia | reflexivity]
  | rewrite (proj2 (Z.ltb_ge x y)) by lia;
    rewrite (proj2 (Z.eqb_eq x y) H); cbn [orb andb]
  | rewrite (proj2 (Z.ltb_ge x y)) by lia;
    rewrite (proj2 (Z.eqb_neq x y)) by lia; cbn [orb andb];
    split; [discriminate | intros; exfalso; lia] ].

(** [a < b] exactly when [a - b] is negative. *)
Lemma datetime_ltb_sub (a b : datetime) :
  valid_datetime a = true -> valid_datetime b = true ->
  datetime_ltb a b = true <-> datetime_sub a b < 0.
Proof.
  intros Ha Hb.
  apply valid_datetime_date in Ha as (Hya & Hma & Hda & Hha & Hmia & Hsa & Husa).
  apply valid_datetime_date in Hb as (Hyb & Hmb & Hdb & Hhb & Hmib & Hsb & Husb).
  assert (Hlt : forall y m d y' m' d',
             1 <= y -> 1 <= m <= 12 -> 1 <= d <= days_in_month y m ->
             1 <= m' <= 12 -> 1 <= d' <= days_in_month y' m' ->
             y < y' \/ (y = y' /\ (m < m' \/ (m = m' /\ d < d'))) ->
             ymd2ord y m d < ymd2ord y' m' d') by exact ymd2ord_lt.
  pose proof (Hlt (year a) (month a) (day a) (year b) (month b) (day b)
                Hya Hma Hda Hmb Hdb) as Hab.
  pose proof (Hlt (year b) (month b) (day b) (year a) (month a) (day a)
                Hyb Hmb Hdb Hma Hda) as Hba.
  assert (Heq : year a = year b -> month a = month b -> day a = day b ->
                toordinal a = toordinal b)
    by (unfold toordinal; congruence).
  unfold datetime_sub, datetime_ltb, datetime_key. cbn [lex_ltb].
  fold (toordinal a) in Hab, Hba. fold (toordinal b) in Hab, Hba.
  set (oa := toordinal a) in *. set (ob := toordinal b) in *.
  clearbody oa ob. clear Hlt.
  lex_step (year a) (year b). lex_step (month a) (month b).
  lex_step (day a) (day b). lex_step (hour a) (hour b).
  lex_step (minute a) (minute b). lex_step (second a) (second b).
  lex_step (microsecond a) (microsecond b).
  split; [discriminate | intros; exfalso; lia].
Qed.

Lemma datetime_sub_opp (a b : datetime) : datetime_sub a b = - datetime_sub b a.
Proof. unfold datetime_sub. lia. Qed.

Lemma datetime_sub_chain (a b c : datetime) :
  datetime_sub a c = datetime_sub a b + datetime_sub b c.
Proof. unfold datetime_sub. lia. Qed.

Lemma checked_valid (d e : datetime) : checked d = Some e -> valid_datetime e = true.
Proof.
  unfold checked. destruct (valid_datetime d) eqn:Hv; [|discriminate].
  now intros [= <-].
Qed.

(** What [fromisoformat] returns is a valid datetime. *)
Lemma fromisoformat_valid (s : string) (d : datetime) :
  fromisoformat s = Some d -> valid_datetime d = true.
Proof.
  unfold fromisoformat.
  destruct (parse_date (chars s)) as [[[[y m] dd] [|c t]]|]; [| |discriminate].
  - apply checked_valid.
  - cbv zeta. generalize (skip_separator c t). intros t'.
    destruct (existsb _ t'); [discriminate|].
    destruct (parse_time t') as [[[[hh mm] ss] us]|]; [|discriminate].
    apply checked_valid.
Qed.

Section Expiry.
Context {floats : PyFloat} {cipher : Fernet} {local_time : LocalTime}.

(** X20. The expiry time of a generated link is exactly the configured
    number of hours after its creation time:
    [expires_at - created_at == timedelta(hours=expiration_hours)].  So
    with a non-negative setting the creation time is never later than
    the expiry time, and with a positive one it is strictly earlier. *)
Theorem generate_link_expiry_is_later (repository : LinkRepository.t)
    (request : LinkGenerateRequest) (authorization : option string)
    (tr : list Event) (response : LinkGenerateResponse) :
  replay (LinkController.generate_link (LinkController.init repository)
            request authorization) tr = Some (Return response) ->
  let hours := LinkRepository.expiration_hours repository in
  datetime_sub (expires_at response) (created_at response)
  = hours * 3600 * 1000000
  /\ (0 <= hours ->
      datetime_gtb (created_at response) (expires_at response) = false)
  /\ (0 < hours ->
      datetime_gtb (expires_at response) (created_at response) = true).
Proof.
  intros Hrun hours. apply generate_link_runs in Hrun.
  inversion Hrun as [ | | | token now expires t iv blob r0 rs last code tail r
                            Htok Htne Hv Hadd Hiv Ht Henc Hrs Hlast Hcode Htail];
    subst.
  inversion Htail as [ | | n u Hlt Hn Htl Hr]; subst.
  cbn [created_at expires_at].
  cbn [LinkController.init LinkController.expiration_hours] in Hadd.
  pose proof (add_hours_valid now _ _ Hv Hadd) as Hve.
  pose proof (add_hours_sub now expires _ Hv Hadd) as Hsub.
  fold hours in Hsub. split; [exact Hsub|].
  unfold datetime_gtb. split; intros Hh.
  - destruct (datetime_ltb expires now) eqn:E; [|reflexivity].
    apply (datetime_ltb_sub expires now Hve Hv) in E. lia.
  - apply (datetime_ltb_sub now expires Hv Hve).
    rewrite datetime_sub_opp. lia.
Qed.

End Expiry.

Section ExpiryMonotone.
Context {floats : PyFloat} {cipher : Fernet}.

(** X21. Expiry is final: if [validate_link] answers "Link has
    expired" for a stored entry at one reading of the clock, it gives
    the same answer for that entry at every later reading. *)
Theorem validate_link_expired_for_good (self : LinkController.t)
    (code : string) (raw : bytes) (now later : datetime) :
  valid_datetime later = true ->
  datetime_gtb later now = true ->
  replay (LinkController.validate_link self code)
    [EGet (LinkRepository.key_of code) (Reply (Some raw)); EUtcnow now]
  = Some (Return {| valid := false; data := None; token := None;
                    encrypted_at := None; error := Some "Link has expired" |}) ->
  replay (LinkController.validate_link self code)
    [EGet (LinkRepository.key_of code) (Reply (Some raw)); EUtcnow later]
  = Some (Return {| valid := false; data := None; token := None;
                    encrypted_at := None; error := Some "Link has expired" |}).
Proof.
  intros Hlater Hgt Hrun. apply validate_link_runs in Hrun.
  inversion Hrun as [ | | | |
                     | reply blob meta record expires now' Hf Hd Hne He Hiso Hnow
                         Htr Hr]; subst.
  destruct (datetime_gtb now expires) eqn:Hexp.
  2:{ apply valid_response_returns in Hr as (Hv & _). discriminate Hv. }
  assert (Hve : valid_datetime expires = true).
  { destruct (dict_get "expires_at" record) as [[| | | |s| |]|];
      try discriminate Hiso.
    cbn [LinkController.fromisoformat_value] in Hiso.
    destruct (fromisoformat s) as [d|] eqn:Hs; [|discriminate Hiso].
    injection Hiso as ->. exact (fromisoformat_valid s expires Hs). }
  assert (Hexp' : datetime_gtb later expires = true).
  { unfold datetime_gtb in *.
    apply (datetime_ltb_sub expires now Hve Hnow) in Hexp.
    apply (datetime_ltb_sub now later Hnow Hlater) in Hgt.
    apply (datetime_ltb_sub expires later Hve Hlater).
    rewrite (datetime_sub_chain expires now later). lia. }
  apply validate_run_replays.
  pose proof (run_dated code (Reply (Some raw)) blob meta record expires later
                Hf Hd Hne He Hiso Hlater) as Hrun'.
  rewrite Hexp' in Hrun'. exact Hrun'.
Qed.

End ExpiryMonotone.

(** ** The service against a store that behaves like Redis *)

Lemma run_bind {S A B} (h : Handler S) (p : Prog A) (f : A -> Prog B) (s : S) :
  run h (bind p f) s = run h (f (fst (run h p s))) (snd (run h p s)).
Proof.
  revert s.
  induction p as [a | k IH | k IH | n k IH | key sec v k IH | key k IH
                  | key k IH | key k IH]; intros s; cbn [bind run].
  - reflexivity.
  - destruct (on_utcnow h s). apply IH.
  - destruct (on_time h s). apply IH.
  - destruct (on_urandom h n s). apply IH.
  - destruct (on_setex h key sec v s). apply IH.
  - destruct (on_get h key s). apply IH.
  - destruct (on_delete h key s). apply IH.
  - destruct (on_exists h key s). apply IH.
Qed.

Section OnStore.
Context {floats : PyFloat} {cipher : Fernet} {local_time : LocalTime}.

Lemma run_exists (w : World) (code : string) :
  run world_handler (LinkRepository.exists_ code) w = (occupied w code, w).
Proof.
  unfold LinkRepository.exists_, occupied.
  cbn [run world_handler on_exists].
  now destruct (store w !! LinkRepository.key_of code).
Qed.

(** The retries: they probe one code, so they end at once when it is
    free and run out when it is taken. *)
Lemma run_retries (w : World) (blob : bytes) (now : datetime) (fuel : nat) :
  forall attempt : Z,
    0 <= attempt -> attempt + Z.of_nat fuel = LinkController.max_attempts ->
    run world_handler
      (LinkController.collision_loop fuel blob now (rederived blob now) attempt) w
    = ((rederived blob now,
        if occupied w (rederived blob now) then LinkController.max_attempts
        else attempt), w).
Proof.
  unfold LinkController.max_attempts.
  induction fuel as [|fuel IH]; intros attempt H0 Hsum.
  - cbn [LinkController.collision_loop]. rewrite run_bind, run_exists.
    cbn [fst snd]. replace attempt with 5 by lia.
    unfold LinkController.max_attempts. rewrite Z.ltb_irrefl, andb_false_r.
    cbn [run]. now destruct (occupied w (rederived blob now)).
  - cbn [LinkController.collision_loop]. rewrite run_bind, run_exists.
    cbn [fst snd]. unfold LinkController.max_attempts.
    destruct (occupied w (rederived blob now)) eqn:Hocc; cbn [andb].
    + rewrite (proj2 (Z.ltb_lt attempt 5)) by lia.
      fold (rederived blob now). now rewrite IH by lia.
    + reflexivity.
Qed.

Lemma run_first_probe (w : World) (blob : bytes) (now : datetime)
    (code : string) (fuel : nat) :
  run world_handler
    (LinkController.collision_loop (S fuel) blob now code 0) w
  = if occupied w code
    then run world_handler
           (LinkController.collision_loop fuel blob now (rederived blob now) 1) w
    else ((code, 0), w).
Proof.
  cbn [LinkController.collision_loop]. rewrite run_bind, run_exists.
  cbn [fst snd]. unfold LinkController.max_attempts.
  change (0 <? 5) with true. rewrite andb_true_r.
  now destruct (occupied w code).
Qed.

(** [generate_link] on a store, as a function of what the store holds. *)
Lemma run_generate_link (self : LinkController.t) (request : LinkGenerateRequest)
    (authorization : option string) (token : string) (expires : datetime)
    (blob : bytes) (w : World) :
  LinkController.extract_token authorization = Some token ->
  token <> EmptyString ->
  add_hours (clock w) (LinkController.expiration_hours self) = Some expires ->
  encrypt_from_parts
    (utf8_encode (json_dumps (record_of request token (clock w) expires)))
    (unix_time w) (firstn 16 (entropy w)) = Return blob ->
  let seconds :=
    LinkRepository.expiration_hours (LinkController.repository self) * 3600 in
  let first := HashingService.generate_short_code blob
                 HashingService.default_max_length in
  let retry := rederived blob (clock w) in
  let made code :=
    if 0 <? seconds then
      (Return {| short_code := code; expires_at := expires;
                 created_at := clock w |},
       with_entry w (LinkRepository.key_of code) seconds
         (stored_value blob (clock w) expires))
    else
      (Raise (HTTPException 500
                ("Failed to save link: Failed to save link data: "
                 ++ "invalid expire time in setex")), w) in
  run world_handler (LinkController.generate_link self request authorization) w
  = if negb (occupied w first) then made first
    else if negb (occupied w retry) then made retry
    else (Raise (HTTPException 500 "Failed to generate unique short code"), w).
Proof.
  intros Htok Hne Hadd Henc. cbv zeta.
  unfold LinkController.generate_link. rewrite Htok.
  apply String.eqb_neq in Hne. cbn [LinkController.missing]. rewrite Hne.
  cbn [run world_handler on_utcnow]. rewrite Hadd.
  rewrite run_bind. unfold EncryptionService.encrypt at 1 2.
  cbn [run world_handler on_time on_urandom fst snd].
  change (Z.to_nat 16) with 16%nat.
  fold (record_of request token (clock w) expires). rewrite Henc.
  cbn [run fst snd]. rewrite run_bind.
  change (Z.to_nat LinkController.max_attempts) with 5%nat.
  rewrite run_first_probe.
  assert (Hsave : forall code,
             run world_handler
               (let* s := LinkRepository.save (LinkController.repository self)
                            code blob (metadata_of (clock w) expires) in
                match s with
                | Raise e =>
                    Ret (Raise (HTTPException 500
                                  ("Failed to save link: " ++ exn_str e)))
                | Return _ =>
                    Ret (Return {| short_code := code; expires_at := expires;
                                   created_at := clock w |})
                end) w
             = if 0 <? LinkRepository.expiration_hours
                         (LinkController.repository self) * 3600
               then
                 (Return {| short_code := code; expires_at := expires;
                            created_at := clock w |},
                  with_entry w (LinkRepository.key_of code)
                    (LinkRepository.expiration_hours
                       (LinkController.repository self) * 3600)
                    (stored_value blob (clock w) expires))
               else
                 (Raise (HTTPException 500
                           ("Failed to save link: Failed to save link data: "
                            ++ "invalid expire time in setex")), w)).
  { intros code. unfold LinkRepository.save.
    cbn [bind run world_handler on_setex].
    now destruct (0 <? _). }
  destruct (occupied w (HashingService.generate_short_code blob
                          HashingService.default_max_length)) eqn:Hfirst;
    cbn [negb].
  - rewrite (run_retries w blob (clock w) 4 1)
      by (unfold LinkController.max_attempts; lia).
    cbn [fst snd].
    destruct (occupied w (rederived blob (clock w))) eqn:Hretry; cbn [negb].
    + reflexivity.
    + unfold LinkController.max_attempts. change (5 <=? 1) with false.
      cbv iota. exact (Hsave _).
  - cbn [run fst snd]. unfold LinkController.max_attempts.
    change (5 <=? 0) with false. cbv iota. exact (Hsave _).
Qed.

(** X22. [generate_link] on a store that behaves like Redis, with a
    positive expiration time: if the first code is free it is stored
    and returned; if it is taken and the code derived again is free,
    that one is stored and returned; if both are taken, [generate_link]
    fails with "Failed to generate unique short code" and leaves the
    store as it was. *)
Theorem generate_link_on_store (self : LinkController.t)
    (request : LinkGenerateRequest) (authorization : option string)
    (token : string) (expires : datetime) (blob : bytes) (w : World) :
  LinkController.extract_token authorization = Some token ->
  token <> EmptyString ->
  add_hours (clock w) (LinkController.expiration_hours self) = Some expires ->
  encrypt_from_parts
    (utf8_encode (json_dumps (record_of request token (clock w) expires)))
    (unix_time w) (firstn 16 (entropy w)) = Return blob ->
  0 < LinkRepository.expiration_hours (LinkController.repository self) ->
  let first := HashingService.generate_short_code blob
                 HashingService.default_max_length in
  let retry := rederived blob (clock w) in
  let made code :=
    (Return {| short_code := code; expires_at := expires;
               created_at := clock w |},
     with_entry w (LinkRepository.key_of code)
       (LinkRepository.expiration_hours (LinkController.repository self) * 3600)
       (stored_value blob (clock w) expires)) in
  let outcome :=
    run world_handler
      (LinkController.generate_link self request authorization) w in
  (occupied w first = false -> outcome = made first)
  /\ (occupied w first = true -> occupied w retry = false ->
      outcome = made retry)
  /\ (occupied w first = true -> occupied w retry = true ->
      outcome
      = (Raise (HTTPException 500 "Failed to generate unique short code"), w)).
Proof.
  intros Htok Hne Hadd Henc Hpos. cbv zeta.
  rewrite (run_generate_link self request authorization token expires blob w
             Htok Hne Hadd Henc).
  cbv zeta. rewrite (proj2 (Z.ltb_lt 0 _)) by lia.
  repeat split.
  - now intros ->.
  - now intros -> ->.
  - now intros -> ->.
Qed.

End OnStore.

(** A run that only reads is the run against a store that gives the same
    answers, and leaves that store as it was. *)
Lemma run_of_replay {A} (w : World) (p : Prog A) :
  forall (tr : list Event) (r : A),
    replay p tr = Some r -> Forall (answered_by w) tr ->
    run world_handler p w = (r, w).
Proof.
  induction p as [a | k IH | k IH | n k IH | key sec v k IH | key k IH
                  | key k IH | key k IH]; intros tr r Hrun Hall.
  - apply replay_ret in Hrun as [_ ->]. reflexivity.
  - apply replay_utcnow in Hrun as (now & tr' & -> & _ & Hrun).
    inversion Hall as [|e l He Hl]; subst. cbn in He. subst now.
    cbn [run world_handler on_utcnow]. exact (IH _ _ _ Hrun Hl).
  - apply replay_time in Hrun as (t & tr' & -> & _ & Hrun).
    inversion Hall as [|e l He Hl]; subst. destruct He.
  - apply replay_urandom in Hrun as (b & tr' & -> & _ & Hrun).
    inversion Hall as [|e l He Hl]; subst. destruct He.
  - apply replay_setex in Hrun as (x & tr' & -> & Hrun).
    inversion Hall as [|e l He Hl]; subst. destruct He.
  - apply replay_get in Hrun as (x & tr' & -> & Hrun).
    inversion Hall as [|e l He Hl]; subst. cbn in He. subst x.
    cbn [run world_handler on_get]. exact (IH _ _ _ Hrun Hl).
  - apply replay_delete in Hrun as (x & tr' & -> & Hrun).
    inversion Hall as [|e l He Hl]; subst. destruct He.
  - apply replay_exists in Hrun as (x & tr' & -> & Hrun).
    inversion Hall as [|e l He Hl]; subst. cbn in He. subst x.
    cbn [run world_handler on_exists]. exact (IH _ _ _ Hrun Hl).
Qed.

Section RoundTripOnStore.
Context {floats : PyFloat} {cipher : Fernet} {local_time : LocalTime}.

(** The entry of a generated link, read at the time [now]. *)
Lemma validate_generated (laws : FernetLaws cipher) (self : LinkController.t)
    (code : string) (request : LinkGenerateRequest) (credential : string)
    (created expires now : datetime) (hours t : Z) (iv blob : bytes) :
  wf_json (JDict (request_data request)) = true ->
  wf_str credential = true ->
  valid_datetime created = true ->
  add_hours created hours = Some expires ->
  encrypt_from_parts
    (utf8_encode (json_dumps (record_of request credential created expires)))
    t iv = Return blob ->
  valid_datetime now = true ->
  replay (LinkController.validate_link self code)
    [EGet (LinkRepository.key_of code)
       (Reply (Some (utf8_encode (stored_value blob created expires))));
     EUtcnow now]
  = Some (Return
            (if datetime_gtb now expires
             then LinkController.invalid "Link has expired"
             else {| valid := true; data := Some (request_data request);
                     token := Some credential; encrypted_at := Some created;
                     error := None |})).
Proof.
  intros Hwf Hcred Hv Hadd Henc Hnow.
  pose proof (add_hours_valid created _ _ Hv Hadd) as Hve.
  assert (Hrec : wf_json (record_of request credential created expires) = true)
    by now apply wf_record_of.
  assert (Hresp : LinkController.valid_response
                    [("data", JDict (request_data request));
                     ("token", JStr credential);
                     ("encrypted_at", JStr (isoformat created));
                     ("expires_at", JStr (isoformat expires))]
                  = Return {| valid := true; data := Some (request_data request);
                              token := Some credential;
                              encrypted_at := Some created; error := None |}).
  { apply valid_response_accepted; [|reflexivity|reflexivity].
    right. exists (isoformat created), created.
    split; [reflexivity|]. split; [now apply fromisoformat_isoformat | reflexivity]. }
  apply validate_run_replays.
  pose proof (run_dated code
                (Reply (Some (utf8_encode (stored_value blob created expires))))
                blob (metadata_of created expires) _ expires now
                (fetched_found _ _ _ (parse_stored_value blob created expires))
                (decrypt_token laws _ _ _ _ Hrec Henc)) as Hrun.
  rewrite Hresp in Hrun.
  destruct (datetime_gtb now expires); apply Hrun; try exact Hnow;
    try discriminate.
  all: cbn [dict_get String.eqb Ascii.eqb Bool.eqb LinkController.truthy_opt
            truthy LinkController.fromisoformat_value];
    now rewrite ?isoformat_nonempty, ?(fromisoformat_isoformat expires Hve).
Qed.

(** X23. Generate, then validate at once, on a store that behaves like
    Redis: if [generate_link] returns a response, [validate_link] of
    the returned code, run on the store as [generate_link] left it and
    at the same reading of the clock, returns the valid response with
    the payload, the credential of the header and the creation time.
    The payload and the header are values that [json] writes and reads
    back ([wf_json], [wf_header]). *)
Theorem generate_then_validate_on_store (laws : FernetLaws cipher)
    (repository : LinkRepository.t) (self : LinkController.t)
    (request : LinkGenerateRequest) (authorization : option string)
    (w w' : World) (response : LinkGenerateResponse) :
  wf_json (JDict (request_data request)) = true ->
  wf_header authorization = true ->
  valid_datetime (clock w) = true ->
  run world_handler
    (LinkController.generate_link (LinkController.init repository)
       request authorization) w
  = (Return response, w') ->
  exists credential,
    LinkController.extract_token authorization = Some credential
    /\ created_at response = clock w
    /\ run world_handler
         (LinkController.validate_link self (short_code response)) w'
       = (Return {| valid := true; data := Some (request_data request);
                    token := Some credential;
                    encrypted_at := Some (created_at response);
                    error := None |}, w').
Proof.
  intros Hwf Hheader Hv Hrun.
  destruct (LinkController.extract_token authorization) as [credential|] eqn:Htok.
  2:{ unfold LinkController.generate_link in Hrun. rewrite Htok in Hrun.
      discriminate Hrun. }
  destruct (String.eqb_spec credential EmptyString) as [->|Hne].
  { unfold LinkController.generate_link in Hrun. rewrite Htok in Hrun.
    discriminate Hrun. }
  destruct (add_hours (clock w) (LinkRepository.expiration_hours repository))
    as [expires|] eqn:Hadd.
  2:{ unfold LinkController.generate_link in Hrun. rewrite Htok in Hrun.
      apply String.eqb_neq in Hne. cbn [LinkController.missing] in Hrun.
      rewrite Hne in Hrun. cbn [run world_handler on_utcnow] in Hrun.
      cbn [LinkController.init LinkController.expiration_hours] in Hrun.
      rewrite Hadd in Hrun. discriminate Hrun. }
  destruct (encrypt_from_parts
              (utf8_encode
                 (json_dumps (record_of request credential (clock w) expires)))
              (unix_time w) (firstn 16 (entropy w))) as [blob|ex] eqn:Henc.
  2:{ unfold LinkController.generate_link in Hrun. rewrite Htok in Hrun.
      apply String.eqb_neq in Hne. cbn [LinkController.missing] in Hrun.
      rewrite Hne in Hrun. cbn [run world_handler on_utcnow] in Hrun.
      cbn [LinkController.init LinkController.expiration_hours] in Hrun.
      rewrite Hadd, run_bind in Hrun.
      unfold EncryptionService.encrypt at 1 2 in Hrun.
      cbn [run world_handler on_time on_urandom fst snd] in Hrun.
      change (Z.to_nat 16) with 16%nat in Hrun.
      fold (record_of request credential (clock w) expires) in Hrun.
      rewrite Henc in Hrun. discriminate Hrun. }
  rewrite (run_generate_link (LinkController.init repository) request
             authorization credential expires blob w Htok Hne Hadd Henc) in Hrun.
  cbv zeta in Hrun.
  cbn [LinkController.init LinkController.repository] in Hrun.
  set (seconds := LinkRepository.expiration_hours repository * 3600) in *.
  assert (Hmade : exists code,
             0 < seconds
             /\ response = {| short_code := code; expires_at := expires;
                              created_at := clock w |}
             /\ w' = with_entry w (LinkRepository.key_of code) seconds
                       (stored_value blob (clock w) expires)).
  { destruct (Z.ltb_spec 0 seconds) as [Hpos|Hneg];
      destruct (occupied w _); cbn [negb] in Hrun;
      try destruct (occupied w _); cbn [negb] in Hrun;
      try discriminate Hrun; injection Hrun as <- <-; eauto. }
  destruct Hmade as (code & Hpos & -> & ->).
  exists credential. split; [reflexivity|]. split; [reflexivity|].
  cbn [short_code created_at].
  pose proof (validate_generated laws self code request credential (clock w)
                expires (clock w) _ _ _ blob Hwf
                (extract_token_wf _ _ Hheader Htok) Hv Hadd Henc Hv) as Hval.
  assert (Hlive : datetime_gtb (clock w) expires = false).
  { unfold datetime_gtb.
    pose proof (add_hours_valid (clock w) _ _ Hv Hadd) as Hve.
    pose proof (add_hours_sub (clock w) expires _ Hv Hadd) as Hsub.
    destruct (datetime_ltb expires (clock w)) eqn:E; [|reflexivity].
    apply (datetime_ltb_sub expires (clock w) Hve Hv) in E.
    unfold seconds in Hpos. lia. }
  rewrite Hlive in Hval.
  apply (run_of_replay _ _ _ _ Hval).
  repeat constructor.
  cbn [answered_by with_entry store]. now rewrite lookup_insert_eq.
Qed.

End RoundTripOnStore.

(** ** The further properties on the test platform *)

Section MoreOnTestPlatform.
#[local] Existing Instance TestPlatform.floats.

Lemma generate_link_bearer_prefix_witness :
  "tok" <> EmptyString
  /\ String.prefix "Bearer " "tok" = false
  /\ @LinkController.generate_link TestPlatform.cipher TestPlatform.local_time
       Fixture.controller Fixture.request (Some "Bearer tok")
     = @LinkController.generate_link TestPlatform.cipher TestPlatform.local_time
         Fixture.controller Fixture.request (Some "tok").
Proof.
  split; [discriminate|]. split; [reflexivity|].
  apply (@generate_link_bearer_prefix TestPlatform.cipher TestPlatform.local_time
           Fixture.controller Fixture.request "tok");
    [discriminate | reflexivity].
Defined.

Lemma generate_link_stores_iff_returns_witness :
  replay Scenario.generate Scenario.run_free
  = Some (Return {| short_code := Fixture.first_code;
                    expires_at := Fixture.expires;
                    created_at := Fixture.now |})
  /\ count is_stored Scenario.run_free = 1%nat.
Proof.
  assert (H : replay Scenario.generate Scenario.run_free
              = Some (Return {| short_code := Fixture.first_code;
                                expires_at := Fixture.expires;
                                created_at := Fixture.now |}))
    by (vm_compute; reflexivity).
  split; [exact H|].
  exact (@generate_link_stores_iff_returns TestPlatform.cipher
           TestPlatform.local_time Fixture.controller Fixture.request
           Fixture.authorization Scenario.run_free _ H).
Defined.

Lemma generate_link_call_budget_witness :
  replay Scenario.generate Scenario.run_free
  = Some (Return {| short_code := Fixture.first_code;
                    expires_at := Fixture.expires;
                    created_at := Fixture.now |})
  /\ (count is_probe Scenario.run_free <= 6)%nat
  /\ (count is_write Scenario.run_free <= 1)%nat
  /\ (count is_utcnow Scenario.run_free <= 1)%nat
  /\ (count is_time_time Scenario.run_free <= 1)%nat
  /\ (count is_urandom Scenario.run_free <= 1)%nat
  /\ (count is_clock_read Scenario.run_free <= 2)%nat
  /\ count is_read_or_delete Scenario.run_free = 0%nat
  /\ (forall before e after,
        Scenario.run_free = before ++ e :: after -> is_write e = true ->
        after = []).
Proof.
  assert (H : replay Scenario.generate Scenario.run_free
              = Some (Return {| short_code := Fixture.first_code;
                                expires_at := Fixture.expires;
                                created_at := Fixture.now |}))
    by (vm_compute; reflexivity).
  split; [exact H|].
  exact (@generate_link_call_budget TestPlatform.cipher
           TestPlatform.local_time Fixture.controller Fixture.request
           Fixture.authorization Scenario.run_free _ H).
Defined.

Lemma generate_link_code_shape_witness :
  replay Scenario.generate Scenario.run_two_collisions
  = Some (Return {| short_code := Fixture.retry_code;
                    expires_at := Fixture.expires;
                    created_at := Fixture.now |})
  /\ String.length Fixture.retry_code = 8%nat.
Proof.
  assert (H : replay Scenario.generate Scenario.run_two_collisions
              = Some (Return {| short_code := Fixture.retry_code;
                                expires_at := Fixture.expires;
                                created_at := Fixture.now |}))
    by (vm_compute; reflexivity).
  split; [exact H|].
  exact (proj1 (@generate_link_code_shape TestPlatform.cipher
                  TestPlatform.local_time Fixture.controller Fixture.request
                  Fixture.authorization Scenario.run_two_collisions _ H)).
Defined.

Lemma generate_link_probe_error_witness :
  replay Scenario.generate Outage.run_probe_error
  = Some (Return {| short_code := Fixture.first_code;
                    expires_at := Fixture.expires;
                    created_at := Fixture.now |})
  /\ ((count is_probe Scenario.prelude = 5%nat
       /\ [Scenario.write Fixture.first_code] = []
       /\ Return {| short_code := Fixture.first_code;
                    expires_at := Fixture.expires;
                    created_at := Fixture.now |}
          = Raise (HTTPException 500 "Failed to generate unique short code"))
      \/ ((count is_probe Scenario.prelude < 5)%nat
          /\ exists seconds value reply,
               [Scenario.write Fixture.first_code]
               = [ESetex (LinkRepository.key_of Fixture.first_code) seconds value
                    reply]
               /\ forall u, reply = Reply u ->
                    exists response,
                      Return {| short_code := Fixture.first_code;
                                expires_at := Fixture.expires;
                                created_at := Fixture.now |}
                      = Return response
                      /\ LinkRepository.key_of (short_code response)
                         = LinkRepository.key_of Fixture.first_code)).
Proof.
  assert (H : replay Scenario.generate Outage.run_probe_error
              = Some (Return {| short_code := Fixture.first_code;
                                expires_at := Fixture.expires;
                                created_at := Fixture.now |}))
    by (vm_compute; reflexivity).
  split; [exact H|].
  exact (@generate_link_probe_error TestPlatform.cipher TestPlatform.local_time
           Fixture.controller Fixture.request Fixture.authorization
           Outage.run_probe_error Scenario.prelude
           [Scenario.write Fixture.first_code]
           (LinkRepository.key_of Fixture.first_code) "Connection refused"
           _ H eq_refl).
Defined.

Lemma validate_link_not_found_witness :
  (@Reply (option bytes) None = Reply None
   \/ @Reply (option bytes) None = Reply (Some [])
   \/ (exists msg, @Reply (option bytes) None = RedisError msg)
   \/ (exists raw text v,
         @Reply (option bytes) None = Reply (Some raw)
         /\ utf8_decode raw = Some text /\ json_loads text = Some v
         /\ LinkRepository.parse_stored raw = None))
  /\ replay (Scenario.validate "nonexistent")
       [EGet (LinkRepository.key_of "nonexistent") (Reply None)]
     = Some (Return {| valid := false; data := None; token := None;
                       encrypted_at := None;
                       error := Some "Link not found or expired" |}).
Proof.
  split; [now left|].
  apply (@validate_link_not_found TestPlatform.floats TestPlatform.cipher Fixture.controller
           "nonexistent" (Reply None)).
  now left.
Defined.


Lemma validate_link_read_only_witness :
  replay (Scenario.validate Fixture.first_code)
    [Scenario.fetch Fixture.first_code Outage.live_entry; EUtcnow Fixture.later]
  = Some (Return (LinkController.invalid "Link has expired"))
  /\ exists reply,
       [Scenario.fetch Fixture.first_code Outage.live_entry; EUtcnow Fixture.later]
       = [EGet (LinkRepository.key_of Fixture.first_code) reply]
       \/ exists now,
            [Scenario.fetch Fixture.first_code Outage.live_entry;
             EUtcnow Fixture.later]
            = [EGet (LinkRepository.key_of Fixture.first_code) reply; EUtcnow now].
Proof.
  assert (H : replay (Scenario.validate Fixture.first_code)
                [Scenario.fetch Fixture.first_code Outage.live_entry;
                 EUtcnow Fixture.later]
              = Some (Return (LinkController.invalid "Link has expired")))
    by (vm_compute; reflexivity).
  split; [exact H|].
  exact (@validate_link_read_only TestPlatform.floats TestPlatform.cipher Fixture.controller
           Fixture.first_code _ _ H).
Defined.

Lemma validate_link_valid_sound_witness :
  replay (Scenario.validate Fixture.first_code)
    [Scenario.fetch Fixture.first_code Outage.live_entry; EUtcnow Fixture.now]
  = Some (Return {| valid := true; data := Some (request_data Fixture.request);
                    token := Some "tok"; encrypted_at := Some Fixture.now;
                    error := None |})
  /\ exists raw blob meta plain record,
       LinkRepository.parse_stored raw = Some (blob, meta)
       /\ @fernet_decrypt TestPlatform.cipher blob = Some plain
       /\ @EncryptionService.decrypt TestPlatform.floats TestPlatform.cipher blob = Some (JDict record).
Proof.
  assert (H : replay (Scenario.validate Fixture.first_code)
                [Scenario.fetch Fixture.first_code Outage.live_entry;
                 EUtcnow Fixture.now]
              = Some (Return {| valid := true;
                                data := Some (request_data Fixture.request);
                                token := Some "tok";
                                encrypted_at := Some Fixture.now;
                                error := None |}))
    by (vm_compute; reflexivity).
  split; [exact H|].
  destruct (@validate_link_valid_sound TestPlatform.floats TestPlatform.cipher Fixture.controller
              Fixture.first_code _ _ H eq_refl)
    as (raw & blob & meta & plain & record & Hp & Hf & Hd & _).
  exists raw, blob, meta, plain, record. auto.
Defined.

Lemma validate_link_invalid_is_empty_witness :
  replay (Scenario.validate Fixture.first_code)
    [Scenario.fetch Fixture.first_code Outage.live_entry; EUtcnow Fixture.later]
  = Some (Return (LinkController.invalid "Link has expired"))
  /\ data (LinkController.invalid "Link has expired") = None.
Proof.
  assert (H : replay (Scenario.validate Fixture.first_code)
                [Scenario.fetch Fixture.first_code Outage.live_entry;
                 EUtcnow Fixture.later]
              = Some (Return (LinkController.invalid "Link has expired")))
    by (vm_compute; reflexivity).
  split; [exact H|].
  destruct (@validate_link_invalid_is_empty TestPlatform.floats TestPlatform.cipher
              Fixture.controller Fixture.first_code _ _ H)
    as [[Hv _] | (_ & Hd & _)]; [discriminate Hv | exact Hd].
Defined.

Lemma save_then_get_witness :
  wf_json (JDict [("test", JStr "metadata")]) = true
  /\ exists value u,
       [ESetex (LinkRepository.key_of "test123") 3600
          (json_dumps
             (JDict [("encrypted_data",
                      JStr (hex (Fixture.ascii_bytes "encrypted_data")));
                     ("metadata", JDict [("test", JStr "metadata")])]))
          (Reply tt)]
       = [ESetex (LinkRepository.key_of "test123")
            (LinkRepository.expiration_hours Fixture.repository * 3600) value
            (Reply u)]
       /\ replay (LinkRepository.get "test123")
            [EGet (LinkRepository.key_of "test123")
               (Reply (Some (utf8_encode value)))]
          = Some (Some (Fixture.ascii_bytes "encrypted_data",
                        JDict [("test", JStr "metadata")])).
Proof.
  split; [reflexivity|].
  apply (save_then_get Fixture.repository "test123"
           (Fixture.ascii_bytes "encrypted_data")
           (JDict [("test", JStr "metadata")])); [reflexivity|].
  vm_compute; reflexivity.
Defined.

Lemma repository_lifecycle_witness :
  0 < LinkRepository.expiration_hours Fixture.repository
  /\ fst (run world_handler (LinkRepository.get "test123")
            (snd (run world_handler
                    (LinkRepository.save Fixture.repository "test123"
                       (Fixture.ascii_bytes "encrypted_data")
                       (JDict [("test", JStr "metadata")])) Fixture.world)))
     = Some (Fixture.ascii_bytes "encrypted_data",
             JDict [("test", JStr "metadata")]).
Proof.
  split; [reflexivity|].
  refine (proj1 (proj2 (repository_lifecycle Fixture.repository "test123"
                          (Fixture.ascii_bytes "encrypted_data")
                          (JDict [("test", JStr "metadata")]) Fixture.world
                          _ _))); reflexivity.
Defined.

Lemma repository_isolation_witness :
  "other" <> "test123"
  /\ fst (run world_handler (LinkRepository.exists_ "other")
            (snd (run world_handler
                    (LinkRepository.save Fixture.repository "test123"
                       (Fixture.ascii_bytes "encrypted_data")
                       (JDict [("test", JStr "metadata")])) Fixture.world)))
     = fst (run world_handler (LinkRepository.exists_ "other") Fixture.world).
Proof.
  split; [discriminate|].
  refine (proj1 (proj2 (repository_isolation Fixture.repository "test123" "other"
                          (Fixture.ascii_bytes "encrypted_data")
                          (JDict [("test", JStr "metadata")]) Fixture.world _)));
    discriminate.
Defined.

Lemma generate_link_after_collisions_witness :
  replay Scenario.generate Scenario.run_two_collisions
  = Some (Return {| short_code := Fixture.retry_code;
                    expires_at := Fixture.expires;
                    created_at := Fixture.now |})
  /\ exists_answers Scenario.run_two_collisions = repeat true 2 ++ [false]
  /\ exists now expires blob code reply,
       last_error (probed_keys Scenario.run_two_collisions)
       = Some (LinkRepository.key_of code)
       /\ last_error Scenario.run_two_collisions
          = Some (ESetex (LinkRepository.key_of code)
                    (LinkRepository.expiration_hours
                       (LinkController.repository Fixture.controller) * 3600)
                    (@stored_value blob now expires) reply)
       /\ (forall u, reply = Reply u ->
             Return {| short_code := Fixture.retry_code;
                       expires_at := Fixture.expires;
                       created_at := Fixture.now |}
             = Return {| short_code := code; expires_at := expires;
                         created_at := now |}).
Proof.
  assert (H : replay Scenario.generate Scenario.run_two_collisions
              = Some (Return {| short_code := Fixture.retry_code;
                                expires_at := Fixture.expires;
                                created_at := Fixture.now |}))
    by (vm_compute; reflexivity).
  split; [exact H|]. split; [reflexivity|].
  apply (@generate_link_after_collisions TestPlatform.cipher
           TestPlatform.local_time Fixture.controller Fixture.request
           Fixture.authorization Scenario.run_two_collisions _ 2%nat H);
    [lia | reflexivity].
Defined.

Lemma generate_then_validate_any_witness :
  wf_json (JDict (request_data Fixture.request)) = true
  /\ wf_header Fixture.authorization = true
  /\ replay Scenario.generate Scenario.run_free
     = Some (Return {| short_code := Fixture.first_code;
                       expires_at := Fixture.expires;
                       created_at := Fixture.now |})
  /\ exists credential seconds value u,
       @LinkController.extract_token Fixture.authorization = Some credential
       /\ last_error Scenario.run_free
          = Some (ESetex (LinkRepository.key_of Fixture.first_code) seconds value
                    (Reply u)).
Proof.
  assert (H : replay Scenario.generate Scenario.run_free
              = Some (Return {| short_code := Fixture.first_code;
                                expires_at := Fixture.expires;
                                created_at := Fixture.now |}))
    by (vm_compute; reflexivity).
  split; [reflexivity|]. split; [reflexivity|]. split; [exact H|].
  destruct (@generate_then_validate_any TestPlatform.floats TestPlatform.cipher
              TestPlatform.local_time test_cipher_laws Fixture.repository
              Fixture.request Fixture.authorization Scenario.run_free _
              eq_refl eq_refl H)
    as (credential & seconds & value & u & Ht & Hl & _).
  exists credential, seconds, value, u. auto.
Defined.

Lemma generate_link_expiry_is_later_witness :
  replay Scenario.generate Scenario.run_free
  = Some (Return {| short_code := Fixture.first_code;
                    expires_at := Fixture.expires;
                    created_at := Fixture.now |})
  /\ datetime_sub Fixture.expires Fixture.now = 1 * 3600 * 1000000.
Proof.
  assert (H : replay Scenario.generate Scenario.run_free
              = Some (Return {| short_code := Fixture.first_code;
                                expires_at := Fixture.expires;
                                created_at := Fixture.now |}))
    by (vm_compute; reflexivity).
  split; [exact H|].
  exact (proj1 (@generate_link_expiry_is_later TestPlatform.cipher
                  TestPlatform.local_time Fixture.repository Fixture.request
                  Fixture.authorization Scenario.run_free _ H)).
Defined.

Lemma validate_link_expired_for_good_witness :
  valid_datetime Outage.next_day = true
  /\ datetime_gtb Outage.next_day Fixture.later = true
  /\ replay (Scenario.validate Fixture.first_code)
       [Scenario.fetch Fixture.first_code Outage.live_entry;
        EUtcnow Outage.next_day]
     = Some (Return {| valid := false; data := None; token := None;
                       encrypted_at := None;
                       error := Some "Link has expired" |}).
Proof.
  split; [reflexivity|]. split; [reflexivity|].
  apply (@validate_link_expired_for_good TestPlatform.floats TestPlatform.cipher Fixture.controller
           Fixture.first_code Outage.live_entry Fixture.later Outage.next_day);
    [reflexivity | reflexivity | vm_compute; reflexivity].
Defined.

Lemma generate_link_failures_witness :
  replay Scenario.generate Scenario.run_five_collisions
  = Some (Raise (HTTPException 500 "Failed to generate unique short code"))
  /\ count is_probe Scenario.run_five_collisions = 6%nat.
Proof.
  assert (H : replay Scenario.generate Scenario.run_five_collisions
              = Some (Raise (HTTPException 500
                               "Failed to generate unique short code")))
    by (vm_compute; reflexivity).
  split; [exact H|].
  destruct (@generate_link_failures TestPlatform.cipher TestPlatform.local_time
              Fixture.controller Fixture.request Fixture.authorization
              Scenario.run_five_collisions _ H)
    as [[He _] | [(msg & now & He & _) | [(c & now & t & iv & He & _)
        | [(_ & Hc & _) | (b & k & s & v & msg & He & Htr & _)]]]];
    try discriminate He.
  exact Hc.
Defined.

Lemma validate_link_ciphertext_only_witness :
  LinkRepository.parse_stored Outage.live_entry
  = Some (Fixture.blob,
          JDict [("encrypted_at", JStr (isoformat Fixture.now));
                 ("expires_at", JStr (isoformat Fixture.expires))])
  /\ LinkRepository.parse_stored (Fixture.stored Fixture.blob (JDict []))
     = Some (Fixture.blob, JDict [])
  /\ replay (@LinkController.validate_link TestPlatform.floats TestPlatform.cipher Fixture.controller
               "another1")
       [EGet (LinkRepository.key_of "another1")
          (Reply (Some (Fixture.stored Fixture.blob (JDict []))));
        EUtcnow Fixture.later]
     = Some (Return (LinkController.invalid "Link has expired")).
Proof.
  assert (H1 : LinkRepository.parse_stored Outage.live_entry
               = Some (Fixture.blob,
                       JDict [("encrypted_at", JStr (isoformat Fixture.now));
                              ("expires_at", JStr (isoformat Fixture.expires))]))
    by (vm_compute; reflexivity).
  assert (H2 : LinkRepository.parse_stored (Fixture.stored Fixture.blob (JDict []))
               = Some (Fixture.blob, JDict []))
    by (vm_compute; reflexivity).
  assert (H : replay (@LinkController.validate_link TestPlatform.floats TestPlatform.cipher
                        Fixture.controller "firstone")
                [EGet (LinkRepository.key_of "firstone")
                   (Reply (Some Outage.live_entry));
                 EUtcnow Fixture.later]
              = Some (Return (LinkController.invalid "Link has expired")))
    by (vm_compute; reflexivity).
  split; [exact H1|]. split; [exact H2|].
  exact (proj1 (@validate_link_ciphertext_only TestPlatform.floats TestPlatform.cipher
                  Fixture.controller "firstone" "another1"
                  Outage.live_entry (Fixture.stored Fixture.blob (JDict []))
                  Fixture.blob
                  (JDict [("encrypted_at", JStr (isoformat Fixture.now));
                          ("expires_at", JStr (isoformat Fixture.expires))])
                  (JDict []) [EUtcnow Fixture.later]
                  (Return (LinkController.invalid "Link has expired"))
                  H1 H2) H).
Defined.

Lemma generate_link_on_store_witness :
  0 < LinkRepository.expiration_hours
        (LinkController.repository Fixture.controller)
  /\ occupied Outage.crowded
       (HashingService.generate_short_code Fixture.blob
          HashingService.default_max_length) = true
  /\ occupied Outage.crowded
       (@rederived TestPlatform.local_time Fixture.blob (clock Outage.crowded)) = false
  /\ fst (run world_handler
            (@LinkController.generate_link TestPlatform.cipher
               TestPlatform.local_time Fixture.controller Fixture.request
               Fixture.authorization) Outage.crowded)
     = Return {| short_code :=
                   @rederived TestPlatform.local_time Fixture.blob (clock Outage.crowded);
                 expires_at := Fixture.expires;
                 created_at := clock Outage.crowded |}.
Proof.
  assert (H1 : occupied Outage.crowded
                 (HashingService.generate_short_code Fixture.blob
                    HashingService.default_max_length) = true)
    by (vm_compute; reflexivity).
  assert (H2 : occupied Outage.crowded
                 (@rederived TestPlatform.local_time Fixture.blob (clock Outage.crowded))
               = false)
    by (vm_compute; reflexivity).
  split; [reflexivity|]. split; [exact H1|]. split; [exact H2|].
  destruct (@generate_link_on_store TestPlatform.cipher TestPlatform.local_time
              Fixture.controller Fixture.request Fixture.authorization "tok"
              Fixture.expires Fixture.blob Outage.crowded)
    as (_ & Hretry & _).
  - reflexivity.
  - discriminate.
  - vm_compute; reflexivity.
  - vm_compute; reflexivity.
  - reflexivity.
  - rewrite (Hretry H1 H2). reflexivity.
Defined.

Lemma generate_then_validate_on_store_witness :
  wf_json (JDict (request_data Fixture.request)) = true
  /\ wf_header Fixture.authorization = true
  /\ valid_datetime (clock Fixture.world) = true
  /\ fst (run world_handler Scenario.generate Fixture.world)
     = Return {| short_code := Fixture.first_code;
                 expires_at := Fixture.expires; created_at := Fixture.now |}
  /\ fst (run world_handler (Scenario.validate Fixture.first_code)
            (snd (run world_handler Scenario.generate Fixture.world)))
     = Return {| valid := true; data := Some (request_data Fixture.request);
                 token := Some "tok"; encrypted_at := Some Fixture.now;
                 error := None |}.
Proof.
  assert (Hfst : fst (run world_handler Scenario.generate Fixture.world)
                 = Return {| short_code := Fixture.first_code;
                             expires_at := Fixture.expires;
                             created_at := Fixture.now |})
    by (vm_compute; reflexivity).
  split; [reflexivity|]. split; [reflexivity|]. split; [reflexivity|].
  split; [exact Hfst|].
  destruct (run world_handler Scenario.generate Fixture.world)
    as [made w'] eqn:Hrun.
  cbn [fst snd] in Hfst |- *. subst made.
  destruct (@generate_then_validate_on_store TestPlatform.floats TestPlatform.cipher
              TestPlatform.local_time test_cipher_laws Fixture.repository
              Fixture.controller Fixture.request Fixture.authorization
              Fixture.world w' _ eq_refl eq_refl eq_refl Hrun)
    as (credential & Htok & _ & Hval).
  injection Htok as <-. unfold Scenario.validate.
  cbn [short_code created_at] in Hval. rewrite Hval. reflexivity.
Defined.

End MoreOnTestPlatform.
